(** * The crawl engine of [parser.py]: rate controller, record normalizer,
      attachment batch and page loop.

    The development embeds the methods of [UzbekCourtAPIParser] as Rocq
    functions and settles the properties of the engine on them.

    Conventions of the embedding.
    - Python integers are [Z]; Python floats that hold delays are exact
      rationals [Q] (the delay arithmetic only multiplies by constants and
      clamps, and the properties below are about order); where the outcome
      of the code hangs on the rounding of a float operation, in
      [time.sleep] and in [datetime.fromtimestamp(ms / 1000)], the operation
      rounds to binary64 as the interpreter does;
    - a JSON value is a [pyval]; a Python dict is an association list whose
      first binding of a key is the live one;
    - [Optional[...]] is [option]; an exception that the code does not catch
      is [Raise] in a [may_raise];
    - what the network, the PDF library and the disk answer is given by
      oracles, so that every function stays executable. *)

From Stdlib Require Import ZArith QArith Qround Qpower Qabs Lqa.
From Stdlib Require Import String Ascii List Lia Permutation.
From stdpp Require Import base option list gmap strings pretty.

Local Close Scope Q_scope.
Local Open Scope Z_scope.

(** ** Exceptions *)

Inductive exn := ValueError | AttributeError | TypeError | OverflowError.

Inductive may_raise (A : Type) : Type :=
| Ok (a : A)
| Raise (e : exn).

Arguments Ok {A} a.
Arguments Raise {A} e.

#[global] Instance may_raise_ret : MRet may_raise := fun A a => Ok a.

#[global] Instance may_raise_bind : MBind may_raise := fun A B k r =>
  match r with
  | Ok a => k a
  | Raise e => Raise e
  end.

(** ** Python floats

    A Python float is an IEEE-754 binary64: 53 significant bits, results
    rounded to the nearest representable value, ties to the even one. *)

(** The integer nearest to [n / d], for [d > 0]; a tie goes to the even
    neighbour. *)
Definition round_half_even (n d : Z) : Z :=
  let q := n / d in
  let r := n mod d in
  if 2 * r <? d then q
  else if d <? 2 * r then q + 1
  else if Z.even q then q else q + 1.

Definition Qround_half_even (x : Q) : Z :=
  round_half_even (Qnum x) (Zpos (Qden x)).

(** The integral part that [modf] splits off: rounding toward zero. *)
Definition Qtrunc (x : Q) : Z := Z.quot (Qnum x) (Zpos (Qden x)).

(** The exponent of the last place of the binary64 nearest to a positive
    [x]: the one that puts the 53-bit significand between [2 ^ 52] and
    [2 ^ 53], and -1074 in the subnormal range. *)
Definition b64_exponent (x : Q) : Z :=
  Z.max (Z.log2 (Qfloor (x * 2 ^ 1080)) - 1132) (-1074).

Definition b64_round_pos (x : Q) : Q :=
  let e := b64_exponent x in
  (inject_Z (Qround_half_even (x * 2 ^ (- e))) * 2 ^ e)%Q.

(** The binary64 nearest to [x].  A value past the largest binary64 is kept
    finite instead of turning into an infinity: where the code rounds such a
    value (a timestamp, a duration) it raises on it either way. *)
Definition b64_round (x : Q) : Q :=
  match (x ?= 0)%Q with
  | Eq => 0%Q
  | Gt => b64_round_pos x
  | Lt => (- b64_round_pos (- x))%Q
  end.

(** [a / b] on two Python integers: the binary64 nearest to the quotient. *)
Definition true_divide (a b : Z) : Q := b64_round (inject_Z a / inject_Z b).

(** ** RateLimitInfo and the adaptive delay (parser.py 33-40, 125-131, 170-245) *)

Record RateLimitInfo := mkRateLimitInfo {
  is_limited : bool;
  retry_after : option Z;
  current_delay : Q;
  consecutive_errors : Z;
  last_request_time : option Q
}.

(** [RateLimitInfo()] with the dataclass defaults. *)
Definition RateLimitInfo_default : RateLimitInfo :=
  {| is_limited := false;
     retry_after := None;
     current_delay := 1.5%Q;
     consecutive_errors := 0;
     last_request_time := None |}.

Definition min_delay : Q := 0.1%Q.
Definition max_delay : Q := 10.0%Q.
Definition backoff_factor : Q := 1.5%Q.

(** Python's two-argument [min] and [max]: the first argument is kept unless
    the second is strictly smaller (resp. larger). *)
Definition py_min (a b : Q) : Q := if Qlt_le_dec b a then b else a.
Definition py_max (a b : Q) : Q := if Qlt_le_dec a b then b else a.

Definition set_current_delay (d : Q) (rl : RateLimitInfo) : RateLimitInfo :=
  {| is_limited := is_limited rl;
     retry_after := retry_after rl;
     current_delay := d;
     consecutive_errors := consecutive_errors rl;
     last_request_time := last_request_time rl |}.

Definition set_consecutive_errors (n : Z) (rl : RateLimitInfo) : RateLimitInfo :=
  {| is_limited := is_limited rl;
     retry_after := retry_after rl;
     current_delay := current_delay rl;
     consecutive_errors := n;
     last_request_time := last_request_time rl |}.

Definition set_is_limited (b : bool) (rl : RateLimitInfo) : RateLimitInfo :=
  {| is_limited := b;
     retry_after := retry_after rl;
     current_delay := current_delay rl;
     consecutive_errors := consecutive_errors rl;
     last_request_time := last_request_time rl |}.

Definition set_retry_after (r : option Z) (rl : RateLimitInfo) : RateLimitInfo :=
  {| is_limited := is_limited rl;
     retry_after := r;
     current_delay := current_delay rl;
     consecutive_errors := consecutive_errors rl;
     last_request_time := last_request_time rl |}.

Definition set_last_request_time (t : option Q) (rl : RateLimitInfo) : RateLimitInfo :=
  {| is_limited := is_limited rl;
     retry_after := retry_after rl;
     current_delay := current_delay rl;
     consecutive_errors := consecutive_errors rl;
     last_request_time := t |}.

(** The value of a response header, as far as the code tells values apart:
    the empty string (falsy), a non-empty text on which [int()] raises
    [ValueError], and a non-empty text that [int()] reads as [n]. *)
Inductive header_value :=
| HEmpty
| HText
| HInt (n : Z).

(** [response.headers.get(name)] is [None] when the header is absent. *)
Record Response := mkResponse {
  status_code : Z;
  hdr_Retry_After : option header_value;
  hdr_X_RateLimit_Remaining : option header_value;
  hdr_X_Rate_Limit_Remaining : option header_value
}.

Definition header_truthy (h : option header_value) : bool :=
  match h with
  | None | Some HEmpty => false
  | Some _ => true
  end.

(** [a or b] on two header lookups. *)
Definition header_or (a b : option header_value) : option header_value :=
  if header_truthy a then a else b.

(** [remaining] of line 218. *)
Definition remaining_header (response : Response) : option header_value :=
  header_or (hdr_X_RateLimit_Remaining response)
            (hdr_X_Rate_Limit_Remaining response).

Definition is_server_error (status : Z) : bool :=
  (status =? 502) || (status =? 503) || (status =? 504).

Definition _check_rate_limits (rl : RateLimitInfo) (response : Response)
  : bool * RateLimitInfo :=
  if status_code response =? 429 then
    let rl := set_is_limited true rl in
    let rl := set_consecutive_errors (consecutive_errors rl + 1) rl in
    match hdr_Retry_After response with
    | Some (HInt n) => (false, set_retry_after (Some n) rl)
    | _ =>
        (false,
         set_current_delay
           (py_min (current_delay rl * backoff_factor)%Q max_delay) rl)
    end
  else if is_server_error (status_code response) then
    let rl := set_consecutive_errors (consecutive_errors rl + 1) rl in
    (false,
     set_current_delay (py_min (current_delay rl * 1.5)%Q max_delay) rl)
  else
    let rl :=
      if (status_code response =? 200) && (consecutive_errors rl >? 0) then
        let rl := set_consecutive_errors 0 rl in
        set_current_delay (py_max (current_delay rl * 0.9)%Q min_delay) rl
      else rl in
    match remaining_header response with
    | Some (HInt remaining_requests) =>
        if remaining_requests <? 10 then
          (true, set_current_delay (py_max (current_delay rl) 2.0%Q) rl)
        else (true, rl)
    | _ => (true, rl)
    end.

(** Truthiness of an [Optional[int]]: [None] and [0] are falsy. *)
Definition optint_truthy (o : option Z) : bool :=
  match o with
  | Some n => negb (n =? 0)
  | None => false
  end.

(** [time.sleep(secs)], as CPython does it from version 3.7 on: the duration
    is first turned into a signed 64-bit count of nanoseconds, the float
    product [secs * 1e9] rounded away from zero, and a count that does not
    fit raises [OverflowError]; a negative count then raises [ValueError].
    (CPython 3.11 lets a rounded product of exactly [2 ^ 63] through to the
    sign test, where it reads as negative and raises [ValueError]; here it
    is refused with the larger ones.)  A host can refuse more: Linux answers
    [OSError] when the deadline passes [2 ^ 63] nanoseconds on its monotonic
    clock, that is for a duration within its uptime of the largest one.
    That failure belongs to the host and is not modelled; the properties
    that need a sleep to return keep the duration at or below
    [sleep_horizon]. *)
Definition time_sleep (secs : Q) : may_raise unit :=
  let d := b64_round (secs * 1000000000) in
  let ns := if Qle_bool 0 d then Qceiling d else Qfloor d in
  if (ns <? - 2 ^ 63) || (2 ^ 63 <=? ns) then Raise OverflowError
  else if ns <? 0 then Raise ValueError
  else Ok tt.

(** A duration, in seconds, far from the limits of [time.sleep]: about 31
    years, which a host sleeps through unless its monotonic clock reads
    more than 260 years. *)
Definition sleep_horizon : Z := 1000000000.

(** [_adaptive_delay]: [delay] is [self.delay], [now] is what [time.time()]
    reads after the sleep.  The result carries the duration slept.  The test
    [if self.rate_limit.retry_after] is Python truthiness: [None] and [0]
    both fail it. *)
Definition _adaptive_delay (delay now : Q) (rl : RateLimitInfo)
  : may_raise (Q * RateLimitInfo) :=
  if optint_truthy (retry_after rl) then
    let d := (inject_Z (default 0%Z (retry_after rl)) + 0.5)%Q in
    time_sleep d ;;
    Ok (d, set_last_request_time (Some now)
             (set_is_limited false (set_retry_after None rl)))
  else if consecutive_errors rl >? 0 then
    time_sleep (current_delay rl) ;;
    Ok (current_delay rl, set_last_request_time (Some now) rl)
  else
    time_sleep delay ;;
    Ok (delay, set_last_request_time (Some now) rl).

(** The [except requests.exceptions.RequestException] block of
    [get_decisions_list] (lines 322-326) and of
    [download_pdf_and_extract_text] (lines 425-429), on the rate state. *)
Definition on_request_exception (rl : RateLimitInfo) : RateLimitInfo :=
  let rl := set_consecutive_errors (consecutive_errors rl + 1) rl in
  set_current_delay (py_min (current_delay rl * 1.5)%Q max_delay) rl.

(** What the rate controller lives through: a response handed to
    [_check_rate_limits], a request that raised, a call of
    [_adaptive_delay]. *)
Inductive event :=
| Observed (response : Response)
| RequestFailed
| Delayed (delay now : Q).

Definition rate_step (rl : RateLimitInfo) (ev : event) : RateLimitInfo :=
  match ev with
  | Observed response => snd (_check_rate_limits rl response)
  | RequestFailed => on_request_exception rl
  | Delayed delay now =>
      match _adaptive_delay delay now rl with
      | Ok (_, rl') => rl'
      | Raise _ => rl
      end
  end.

Definition rate_run (evs : list event) (rl : RateLimitInfo) : RateLimitInfo :=
  fold_left rate_step evs rl.

Definition delay_in_bounds (rl : RateLimitInfo) : Prop :=
  (min_delay <= current_delay rl)%Q /\ (current_delay rl <= max_delay)%Q.

(** ** JSON values and Python strings *)

#[warnings="-register-all"]
Inductive pyval :=
| PNone
| PBool (b : bool)
| PInt (n : Z)
| PFloat (q : Q)
| PStr (s : string)
| PList (l : list pyval)
| PDict (kvs : list (string * pyval)).

(** Truthiness, as [if v], [not v] and [v or w] test it. *)
Definition truthy (v : pyval) : bool :=
  match v with
  | PNone => false
  | PBool b => b
  | PInt n => negb (n =? 0)
  | PFloat q => negb (Qeq_bool q 0)
  | PStr s => negb (String.eqb s "")
  | PList l => match l with [] => false | _ => true end
  | PDict kvs => match kvs with [] => false | _ => true end
  end.

Definition py_or (a b : pyval) : pyval := if truthy a then a else b.

Fixpoint assoc (kvs : list (string * pyval)) (k : string) : option pyval :=
  match kvs with
  | [] => None
  | (k', v) :: rest => if String.eqb k' k then Some v else assoc rest k
  end.

(** [v[k]] with a string key: [None] is the [KeyError] of a dict without the
    key or the [TypeError] of a value that is no dict. *)
Definition getitem (v : pyval) (k : string) : option pyval :=
  match v with
  | PDict kvs => assoc kvs k
  | _ => None
  end.

(** [v.get(k, dflt)]: [None] is the [AttributeError] of a value that is no
    dict. *)
Definition get_default (v : pyval) (k : string) (dflt : pyval) : option pyval :=
  match v with
  | PDict kvs => Some (default dflt (assoc kvs k))
  | _ => None
  end.

(** [v.get(k)]. *)
Definition get (v : pyval) (k : string) : option pyval := get_default v k PNone.

(** [v[0]]. *)
Definition getitem0 (v : pyval) : option pyval :=
  match v with
  | PList (x :: _) => Some x
  | PStr (String c _) => Some (PStr (String c ""))
  | _ => None
  end.

(** [isinstance(v, int)]; [bool] is a subclass of [int]. *)
Definition isinstance_int (v : pyval) : option Z :=
  match v with
  | PInt n => Some n
  | PBool b => Some (if b then 1 else 0)
  | _ => None
  end.

Fixpoint string_map (f : ascii -> ascii) (s : string) : string :=
  match s with
  | EmptyString => EmptyString
  | String c rest => String (f c) (string_map f rest)
  end.

(** [s.replace(c, '_')] for a one-character [c]. *)
Definition replace_char (c : ascii) (s : string) : string :=
  string_map (fun x => if Ascii.eqb x c then "_"%char else x) s.

(** [s[:n]]. *)
Definition str_prefix (n : nat) (s : string) : string := String.substring 0 n s.

(** Decimal digits of a non-negative number, padded with zeros on the left to
    at least [width] characters. *)
Definition zfill (width : nat) (s : string) : string :=
  string_of_list_ascii
    (repeat "0"%char (width - String.length s)) +:+ s.

(** The format specs [{n:04d}], [{n:02d}], [{n:06d}]: the sign counts in the
    width. *)
Definition fmt_0wd (width : nat) (n : Z) : string :=
  if n <? 0 then "-" +:+ zfill (width - 1) (pretty (- n))
  else zfill width (pretty n).

(** ** datetime.fromtimestamp(...).isoformat() *)

Record datetime := mkDatetime {
  year : Z; month : Z; day : Z;
  hour : Z; minute : Z; second : Z; microsecond : Z
}.

(** Day number (days since 1970-01-01) to proleptic Gregorian date. *)
Definition civil_from_days (z : Z) : Z * Z * Z :=
  let z := z + 719468 in
  let era := z / 146097 in
  let doe := z - era * 146097 in
  let yoe := (doe - doe / 1460 + doe / 36524 - doe / 146096) / 365 in
  let doy := doe - (365 * yoe + yoe / 4 - yoe / 100) in
  let mp := (5 * doy + 2) / 153 in
  let d := doy - (153 * mp + 2) / 5 + 1 in
  let m := if mp <? 10 then mp + 3 else mp - 9 in
  let y := yoe + era * 400 in
  (if m <=? 2 then y + 1 else y, m, d).

(** Proleptic Gregorian date to day number: the inverse direction, used to
    cross-check [civil_from_days]. *)
Definition days_from_civil (y m d : Z) : Z :=
  let y := if m <=? 2 then y - 1 else y in
  let era := y / 400 in
  let yoe := y - era * 400 in
  let doy := (153 * (if m >? 2 then m - 3 else m + 9) + 2) / 5 + d - 1 in
  let doe := yoe * 365 + yoe / 4 - yoe / 100 + doy in
  era * 146097 + doe - 719468.

Definition roundtrip_ok (z : Z) : bool :=
  let '(y, m, d) := civil_from_days z in
  (days_from_civil y m d =? z) && (1 <=? m) && (m <=? 12) && (1 <=? d) && (d <=? 31).

(** [roundtrip_ok] on the [n] days from [z] on. *)
Definition roundtrip_ok_from (n z : Z) : bool :=
  snd (Z.iter n (fun '(z, ok) => (z + 1, ok && roundtrip_ok z)) (z, true)).

(** The calendar reading of a clock that shows [secs] seconds since
    1970-01-01T00:00:00, with [us] microseconds.  [datetime] holds years 1
    to 9999 only; outside them its constructor raises, which is [None]
    here. *)
Definition wall_clock (secs us : Z) : option datetime :=
  let '(y, m, d) := civil_from_days (secs / 86400) in
  let sod := secs mod 86400 in
  if (1 <=? y) && (y <=? 9999) then
    Some {| year := y; month := m; day := d;
            hour := sod / 3600; minute := sod mod 3600 / 60;
            second := sod mod 60;
            microsecond := us |}
  else None.

(** The reading of a clock [offset] seconds east of UTC at the instant [ms]
    milliseconds after the epoch, in exact arithmetic: the conversion that
    the specification speaks of.  What the code computes is [fromtimestamp],
    below. *)
Definition datetime_at (offset : Z) (ms : Z) : option datetime :=
  wall_clock (ms / 1000 + offset) (ms mod 1000 * 1000).

(** How [datetime.fromtimestamp] splits its float argument into whole
    seconds and microseconds: [modf], the fraction times [1e6] as a float
    product, rounded half to even, and a carry into the seconds. *)
Definition split_timestamp (x : Q) : Z * Z :=
  let intpart := Qtrunc x in
  let floatpart := b64_round ((x - inject_Z intpart) * 1000000) in
  let us := Qround_half_even floatpart in
  if 1000000 <=? us then (intpart + 1, us - 1000000)
  else if us <? 0 then (intpart - 1, us + 1000000)
  else (intpart, us).

Definition isoformat (t : datetime) : string :=
  fmt_0wd 4 (year t) +:+ "-" +:+ fmt_0wd 2 (month t) +:+ "-" +:+
  fmt_0wd 2 (day t) +:+ "T" +:+ fmt_0wd 2 (hour t) +:+ ":" +:+
  fmt_0wd 2 (minute t) +:+ ":" +:+ fmt_0wd 2 (second t) +:+
  (if microsecond t =? 0 then "" else "." +:+ fmt_0wd 6 (microsecond t)).

(** The ISO-8601 rendering of the UTC date and time of an epoch-millisecond
    timestamp: what the specification asks of the normalizer. *)
Definition iso8601_utc (ms : Z) : option string := isoformat <$> datetime_at 0 ms.

(** ** CourtDecision (parser.py 43-70)

    A dataclass does not check its annotations: the fields filled from JSON
    hold whatever value the entry had, so they are [pyval]s here.  The
    fields the crawl itself fills are typed. *)

Record CourtDecision := mkCourtDecision {
  decision_id : pyval;          (* the field [id] *)
  case_number : pyval;
  court_name_uz : pyval;
  court_name_ru : pyval;
  responsible_judge : pyval;
  speaker_judge : pyval;
  hearing_date : pyval;
  result : pyval;
  instance : pyval;
  categories : pyval;
  pdf_id : pyval;
  pdf_name : pyval;
  pdf_size : pyval;
  pdf_url : string;
  text_file_path : option string;
  text_file_relative_path : option string;
  text_extraction_success : bool;
  extracted_text : option string
}.

Definition set_text_paths (p r : option string) (d : CourtDecision) : CourtDecision :=
  {| decision_id := decision_id d; case_number := case_number d;
     court_name_uz := court_name_uz d; court_name_ru := court_name_ru d;
     responsible_judge := responsible_judge d; speaker_judge := speaker_judge d;
     hearing_date := hearing_date d; result := result d; instance := instance d;
     categories := categories d; pdf_id := pdf_id d; pdf_name := pdf_name d;
     pdf_size := pdf_size d; pdf_url := pdf_url d;
     text_file_path := p;
     text_file_relative_path := r;
     text_extraction_success := text_extraction_success d;
     extracted_text := extracted_text d |}.

Definition set_text_extraction_success (b : bool) (d : CourtDecision) : CourtDecision :=
  {| decision_id := decision_id d; case_number := case_number d;
     court_name_uz := court_name_uz d; court_name_ru := court_name_ru d;
     responsible_judge := responsible_judge d; speaker_judge := speaker_judge d;
     hearing_date := hearing_date d; result := result d; instance := instance d;
     categories := categories d; pdf_id := pdf_id d; pdf_name := pdf_name d;
     pdf_size := pdf_size d; pdf_url := pdf_url d;
     text_file_path := text_file_path d;
     text_file_relative_path := text_file_relative_path d;
     text_extraction_success := b;
     extracted_text := extracted_text d |}.

Definition set_extracted_text (t : option string) (d : CourtDecision) : CourtDecision :=
  {| decision_id := decision_id d; case_number := case_number d;
     court_name_uz := court_name_uz d; court_name_ru := court_name_ru d;
     responsible_judge := responsible_judge d; speaker_judge := speaker_judge d;
     hearing_date := hearing_date d; result := result d; instance := instance d;
     categories := categories d; pdf_id := pdf_id d; pdf_name := pdf_name d;
     pdf_size := pdf_size d; pdf_url := pdf_url d;
     text_file_path := text_file_path d;
     text_file_relative_path := text_file_relative_path d;
     text_extraction_success := text_extraction_success d;
     extracted_text := t |}.

Definition optstr_to_py (o : option string) : pyval :=
  match o with
  | Some s => PStr s
  | None => PNone
  end.

(** [to_dict]: [asdict] without the key [extracted_text]. *)
Definition to_dict (d : CourtDecision) : pyval :=
  PDict [ ("id", decision_id d); ("case_number", case_number d);
          ("court_name_uz", court_name_uz d); ("court_name_ru", court_name_ru d);
          ("responsible_judge", responsible_judge d);
          ("speaker_judge", speaker_judge d);
          ("hearing_date", hearing_date d); ("result", result d);
          ("instance", instance d); ("categories", categories d);
          ("pdf_id", pdf_id d); ("pdf_name", pdf_name d);
          ("pdf_size", pdf_size d); ("pdf_url", PStr (pdf_url d));
          ("text_file_path", optstr_to_py (text_file_path d));
          ("text_file_relative_path", optstr_to_py (text_file_relative_path d));
          ("text_extraction_success", PBool (text_extraction_success d)) ]%string.

(** A record as the normalizer leaves it: the crawl-derived fields at their
    dataclass defaults. *)
Definition fresh (d : CourtDecision) : Prop :=
  text_file_path d = None /\ text_file_relative_path d = None /\
  text_extraction_success d = false /\ extracted_text d = None.

Inductive Period := new | old.

Definition period_str (period : Period) : string :=
  match period with
  | new => "new"
  | old => "old"
  end.

Definition new_api_base : string := "https://adolatapi1.sud.uz".
Definition old_api_base : string := "https://publication.sud.uz".

(** [str()] on the sample values that the examples use: exact on [None],
    booleans, integers and strings. *)
Definition str_of_scalar (v : pyval) : string :=
  match v with
  | PNone => "None"
  | PBool true => "True"
  | PBool false => "False"
  | PInt n => pretty n
  | PStr s => s
  | _ => ""
  end.

Section Crawler.

(** Python's [str()] (also what an f-string applies to a value), and the
    offset of local time from UTC, in seconds, at a given epoch second: both
    belong to the interpreter and the host, not to the program.  The host
    is one whose [localtime] takes any 64-bit time and counts no leap
    seconds, as Linux with the usual time zone files. *)
Variable py_str : pyval -> string.
Variable utcoffset : Z -> Z.

(** ** RecordNormalizer: parse_decision_from_json (parser.py 330-391) *)

(** [time.localtime(t)] read as a [datetime]. *)
Definition local_datetime (t us : Z) : option datetime :=
  wall_clock (t + utcoffset t) us.

(** [datetime.fromtimestamp(x)] without a time zone: naive local time.
    After reading the local clock at the timestamp, the method looks for a
    repeated hour (the [fold] attribute) by reading the clock again a day
    earlier and, when the offset has dropped over that day, once more at
    the shifted time.  The fold does not show in [isoformat], but each
    reading must fall in the years 1 to 9999, or the call raises. *)
Definition fromtimestamp (x : Q) : option datetime :=
  let '(t, us) := split_timestamp x in
  result ← local_datetime t us;
  _ ← local_datetime (t - 86400) us;
  let trans := (t + utcoffset t) - (t - 86400 + utcoffset (t - 86400)) - 86400 in
  if trans <? 0 then
    _ ← local_datetime (t + trans) us; Some result
  else Some result.

(** [datetime.fromtimestamp(ms / 1000).isoformat()]. *)
Definition fromtimestamp_isoformat (ms : Z) : option string :=
  isoformat <$> fromtimestamp (true_divide ms 1000).

(** Lines 361-364. *)
Definition convert_hearing_date (hearing_date : pyval) : option pyval :=
  if truthy hearing_date then
    match isinstance_int hearing_date with
    | Some ms => PStr <$> fromtimestamp_isoformat ms
    | None => Some hearing_date
    end
  else Some hearing_date.

(** Every exception inside the method is caught and turns into [None]. *)
Definition parse_decision_from_json (decision_data : pyval) (period : Period)
  : option CourtDecision :=
  match period with
  | new =>
      pdf ← getitem decision_data "pdf";
      pdf_id ← getitem pdf "id";
      let pdf_url := new_api_base +:+ "/public/onStream/" +:+ py_str pdf_id in
      id ← getitem decision_data "id";
      case_number ← getitem decision_data "case_number";
      court_names ← getitem decision_data "court_names";
      court_name_uz ← get_default court_names "uz" (PStr "");
      court_name_ru ← get_default court_names "ru" (PStr "");
      responsible_judge ← get decision_data "responsible_judge_name";
      speaker_judge ← get decision_data "speaker_judge_name";
      hearing_date ← getitem decision_data "hearing_date";
      result ← getitem decision_data "result";
      instance ← getitem decision_data "instance";
      categories ← get_default decision_data "categories" (PList []);
      pdf_name ← getitem pdf "name";
      pdf_size ← getitem pdf "size";
      Some {| decision_id := id; case_number := case_number;
              court_name_uz := court_name_uz; court_name_ru := court_name_ru;
              responsible_judge := responsible_judge;
              speaker_judge := speaker_judge;
              hearing_date := hearing_date; result := result;
              instance := instance; categories := categories;
              pdf_id := pdf_id; pdf_name := pdf_name; pdf_size := pdf_size;
              pdf_url := pdf_url;
              text_file_path := None; text_file_relative_path := None;
              text_extraction_success := false; extracted_text := None |}
  | old =>
      attachments ← get decision_data "attachmentsList";
      if negb (truthy attachments) then None else
      first ← getitem0 attachments;
      file_data ← getitem first "fileData";
      file_id ← getitem file_data "id";
      let pdf_id := py_str file_id in
      let pdf_url := old_api_base +:+ "/api/file/download/" +:+ pdf_id +:+ "/" in
      hearing_date ← get decision_data "hearingDate";
      hearing_date ← convert_hearing_date hearing_date;
      category ← get decision_data "category";
      let categories :=
        if truthy category then PList [PDict [("uz"%string, category)]]
        else PList [] in
      id ← getitem decision_data "id";
      case_number ← get decision_data "caseNumber";
      court_name ← get_default decision_data "dbName" (PStr "");
      judge ← get decision_data "judge";
      result ← get_default decision_data "result" (PStr "");
      pdf_name ← getitem file_data "name";
      pdf_size ← getitem file_data "size";
      Some {| decision_id := PStr (py_str id);
              case_number := py_or case_number (PStr "");
              court_name_uz := court_name; court_name_ru := court_name;
              responsible_judge := judge; speaker_judge := PNone;
              hearing_date := py_or hearing_date (PStr "");
              result := result; instance := PStr "FIRST";
              categories := categories;
              pdf_id := PStr pdf_id; pdf_name := pdf_name; pdf_size := pdf_size;
              pdf_url := pdf_url;
              text_file_path := None; text_file_relative_path := None;
              text_extraction_success := false; extracted_text := None |}
  end.

(** ** File names and the text artifact (parser.py 433-468, 653-661) *)

Definition forbidden_chars : list ascii :=
  ["<"; ">"; ":"; ascii_of_nat 34; "|"; "?"; "*"]%char.

(** [decision.case_number.replace] needs a string ([AttributeError]
    otherwise); [decision.id[:8]] slices a string or a list and raises
    [TypeError] on the other values. *)
Definition _create_safe_filename (decision : CourtDecision) : may_raise string :=
  match case_number decision with
  | PStr cn =>
      let case_num := replace_char "\" (replace_char "/" cn) in
      id_prefix ← match decision_id decision with
                  | PStr s => Ok (str_prefix 8 s)
                  | PList l => Ok (py_str (PList (take 8 l)))
                  | _ => Raise TypeError
                  end;
      let safe_name := case_num +:+ "_" +:+ id_prefix in
      Ok (fold_left (fun s c => replace_char c s) forbidden_chars safe_name)
  | _ => Raise AttributeError
  end.

(** Truthiness of an [Optional[str]]. *)
Definition optstr_truthy (o : option string) : bool :=
  match o with
  | Some s => negb (String.eqb s "")
  | None => false
  end.

(** [save_decision_with_text]; [write_ok] tells whether the [try] block that
    opens and writes the text file runs to its end. *)
Definition save_decision_with_text (write_ok : bool) (decision : CourtDecision)
  : may_raise CourtDecision :=
  if optstr_truthy (extracted_text decision) then
    safe_filename ← _create_safe_filename decision;
    if write_ok then
      let relative_path := "extracted_text/" +:+ safe_filename +:+ ".txt" in
      Ok (set_text_paths
            (Some relative_path)
            (Some ("../extracted_text/" +:+ safe_filename +:+ ".txt"))
            decision)
    else Ok (set_text_paths None None decision)
  else Ok (set_text_paths None None decision).

(** ** AttachmentCoordinator: _download_pdfs_batch (parser.py 617-651) *)

(** What [future.result()] gives for one task: the value returned by
    [download_pdf_and_extract_text], or an exception. *)
Inductive future_result :=
| Returned (extracted_text : option string)
| Raised.

Record TaskOutcome := mkTaskOutcome {
  future : future_result;
  write_ok : bool
}.

(** The body of the [for future in as_completed(...)] loop. *)
Definition complete_task (o : TaskOutcome) (decision : CourtDecision)
  : CourtDecision :=
  match future o with
  | Returned extracted =>
      if optstr_truthy extracted then
        let decision := set_extracted_text extracted decision in
        let decision := set_text_extraction_success true decision in
        match save_decision_with_text (write_ok o) decision with
        | Ok decision' => decision'
        | Raise _ => set_text_extraction_success false decision
        end
      else set_text_extraction_success false decision
  | Raised => set_text_extraction_success false decision
  end.

(** The records are objects shared with the caller's list: completing the
    task of index [i] updates the list in place at [i]. *)
Definition on_completed (outcome : nat -> TaskOutcome)
  (decisions : list CourtDecision) (i : nat) : list CourtDecision :=
  match decisions !! i with
  | Some decision => <[i := complete_task (outcome i) decision]> decisions
  | None => decisions
  end.

(** [completed] lists the task indices in the order in which [as_completed]
    yields their futures.  Building [download_tasks] computes every file
    name first, and [ThreadPoolExecutor] refuses a non-positive pool. *)
Definition _download_pdfs_batch (outcome : nat -> TaskOutcome)
  (completed : list nat) (decisions : list CourtDecision) (max_workers : Z)
  : may_raise (list CourtDecision) :=
  mapM _create_safe_filename decisions ;;
  (if max_workers <=? 0 then Raise ValueError else Ok tt) ;;
  Ok (fold_left (on_completed outcome) completed decisions).

(** ** CrawlOrchestrator: parse_all_decisions (parser.py 484-615) *)

(** A listing as the page loop reads it: [None] is an absent key. *)
Record PageData := mkPageData {
  totalPages : option Z;
  totalElements : option Z;
  content : option (list pyval)
}.

(** The answers of the outside world during one run.
    [get_decisions_list page period] is what the method of that name
    returns, [None] standing for [None] and for a falsy dict alike. *)
Record World := mkWorld {
  get_decisions_list : Z -> Period -> option PageData;
  task_outcome : Period -> Z -> nat -> TaskOutcome;
  completed_order : Period -> Z -> list nat
}.

Record Args := mkArgs {
  max_pages : option Z;
  download_pdfs : bool;
  max_workers : Z;
  start_page : Z;
  end_page : option Z;
  overwrite_files : bool
}.

Inductive io_event :=
| Fetched (period : Period) (page : Z)
| MetadataSaved (name : string) (records : list pyval)
| BatchRun (period : Period) (page : Z) (completed : list nat).

(** The part of [self] that [parse_all_decisions] itself updates, the
    directory of metadata artifacts, and the log of its outward actions. *)
Record RunState := mkRunState {
  all_decisions : list CourtDecision;
  pages_processed : Z;
  decisions_found : Z;
  metadata_dir : gmap string (list pyval);
  trace : list io_event
}.

Definition log (e : io_event) (st : RunState) : RunState :=
  {| all_decisions := all_decisions st;
     pages_processed := pages_processed st;
     decisions_found := decisions_found st;
     metadata_dir := metadata_dir st;
     trace := trace st ++ [e] |}.

(** [f"page_{period}_{page:04d}.json"]. *)
Definition page_identifier (period : Period) (page : Z) : string :=
  period_str period +:+ "_" +:+ fmt_0wd 4 page.

Definition metadata_file (page_identifier : string) : string :=
  "page_" +:+ page_identifier +:+ ".json".

Definition save_metadata (decisions : list CourtDecision)
  (page_identifier : string) (st : RunState) : RunState :=
  let records := to_dict <$> decisions in
  log (MetadataSaved (metadata_file page_identifier) records)
    {| all_decisions := all_decisions st;
       pages_processed := pages_processed st;
       decisions_found := decisions_found st;
       metadata_dir := <[metadata_file page_identifier := records]> (metadata_dir st);
       trace := trace st |}.

(** [range(a, b)]. *)
Definition py_range (a b : Z) : list Z := seqZ a (b - a).

(** Lines 536-538. *)
Definition limit_total_pages (total_pages : Z) (max_pages : option Z) : Z :=
  if optint_truthy max_pages then Z.min total_pages (default 0 max_pages)
  else total_pages.

(** Lines 540-547. *)
Definition actual_end_page (end_page : option Z) (total_pages : Z) : Z :=
  match end_page with
  | Some end_page => Z.min (end_page + 1) total_pages
  | None => total_pages
  end.

(** Lines 549-564: the pages that the loop visits; [None] when the section
    is skipped. *)
Definition section_pages (start_page : Z) (end_page : option Z) (total_pages : Z)
  : option (list Z) :=
  if (start_page >? 0) && (start_page >=? total_pages) then None
  else if start_page >=? actual_end_page end_page total_pages then None
  else Some (py_range start_page (actual_end_page end_page total_pages)).

(** Lines 573-586: the listing of [page]; the first listing is reused for
    page 0. *)
Definition page_listing (w : World) (a : Args) (period : Period)
  (first_page_data : PageData) (page : Z) : option PageData :=
  if (page =? start_page a) && (start_page a =? 0) then Some first_page_data
  else get_decisions_list w page period.

Definition fetch_logged (a : Args) (period : Period) (page : Z) (st : RunState)
  : RunState :=
  if (page =? start_page a) && (start_page a =? 0) then st
  else log (Fetched period page) st.

(** Lines 588-593. *)
Definition normalize_page (page_data : PageData) (period : Period)
  : list CourtDecision :=
  omap (fun decision_data => parse_decision_from_json decision_data period)
       (default [] (content page_data)).

(** Lines 595-604.  [all_decisions] is extended with the very objects that
    the batch then updates, so it ends up holding the updated records. *)
Definition store_page (w : World) (a : Args) (period : Period) (page : Z)
  (page_decisions : list CourtDecision) (st : RunState) : may_raise RunState :=
  match page_decisions with
  | [] => Ok st
  | _ =>
      let st := save_metadata page_decisions (page_identifier period page) st in
      page_decisions' ←
        (if download_pdfs a then
           _download_pdfs_batch (task_outcome w period page)
             (completed_order w period page) page_decisions (max_workers a)
         else Ok page_decisions);
      let st := if download_pdfs a
                then log (BatchRun period page (completed_order w period page)) st
                else st in
      Ok {| all_decisions := all_decisions st ++ page_decisions';
            pages_processed := pages_processed st;
            decisions_found :=
              decisions_found st + Z.of_nat (length page_decisions);
            metadata_dir := metadata_dir st;
            trace := trace st |}
  end.

Definition count_page (st : RunState) : RunState :=
  {| all_decisions := all_decisions st;
     pages_processed := pages_processed st + 1;
     decisions_found := decisions_found st;
     metadata_dir := metadata_dir st;
     trace := trace st |}.

Definition page_exists (period : Period) (page : Z) (st : RunState) : bool :=
  bool_decide (is_Some (metadata_dir st !! metadata_file (page_identifier period page))).

(** Lines 573-604: what the loop body does with a page that it does not
    skip. *)
Definition fetch_and_store (w : World) (a : Args) (period : Period)
  (first_page_data : PageData) (st : RunState) (page : Z) : may_raise RunState :=
  let st := fetch_logged a period page st in
  match page_listing w a period first_page_data page with
  | None => Ok st
  | Some page_data =>
      st ← store_page w a period page (normalize_page page_data period) st;
      Ok (count_page st)
  end.

(** The body of [for page in range(start_page, actual_end_page)]. *)
Definition process_page (w : World) (a : Args) (period : Period)
  (first_page_data : PageData) (st : RunState) (page : Z) : may_raise RunState :=
  if negb (overwrite_files a) && page_exists period page st then Ok st
  else fetch_and_store w a period first_page_data st page.

Fixpoint process_pages (w : World) (a : Args) (period : Period)
  (first_page_data : PageData) (st : RunState) (pages : list Z)
  : may_raise RunState :=
  match pages with
  | [] => Ok st
  | page :: rest =>
      st ← process_page w a period first_page_data st page;
      process_pages w a period first_page_data st rest
  end.

(** The body of [for court_type, period in sections_to_process]. *)
Definition parse_section (w : World) (a : Args) (st : RunState) (period : Period)
  : may_raise RunState :=
  let st := log (Fetched period 0) st in
  match get_decisions_list w 0 period with
  | None => Ok st
  | Some first_page_data =>
      let total_pages := default 0 (totalPages first_page_data) in
      let total_pages := limit_total_pages total_pages (max_pages a) in
      match section_pages (start_page a) (end_page a) total_pages with
      | None => Ok st
      | Some pages => process_pages w a period first_page_data st pages
      end
  end.

Definition sections_to_process (section : string) : may_raise (list Period) :=
  if String.eqb section "new" then Ok [new]
  else if String.eqb section "old" then Ok [old]
  else if String.eqb section "both" then Ok [new; old]
  else Raise ValueError.

Fixpoint parse_sections (w : World) (a : Args) (st : RunState)
  (periods : list Period) : may_raise RunState :=
  match periods with
  | [] => Ok st
  | period :: rest =>
      st ← parse_section w a st period;
      parse_sections w a st rest
  end.

Definition parse_all_decisions (w : World) (section : string) (a : Args)
  (st : RunState) : may_raise RunState :=
  periods ← sections_to_process section;
  parse_sections w a st periods.

End Crawler.

(** ** Text extraction: extract_text_from_pdf (parser.py 247-277)

    The characters of a [string] stand for code points below 256. *)

(** [str.isspace] on one character, which is also what [split()] and
    [strip()] without argument take for whitespace. *)
Definition isspace (c : ascii) : bool :=
  let n := nat_of_ascii c in
  ((9 <=? n) && (n <=? 13) || (28 <=? n) && (n <=? 32) || (n =? 133) || (n =? 160))%nat.

Fixpoint lstrip (s : string) : string :=
  match s with
  | EmptyString => EmptyString
  | String c rest => if isspace c then lstrip rest else s
  end.

Fixpoint rstrip (s : string) : string :=
  match s with
  | EmptyString => EmptyString
  | String c rest =>
      match rstrip rest with
      | EmptyString => if isspace c then EmptyString else String c EmptyString
      | rest' => String c rest'
      end
  end.

(** [s.strip()]. *)
Definition str_strip (s : string) : string := rstrip (lstrip s).

(** [s.split()]: the maximal runs of non-whitespace characters; [word] is
    the run being read. *)
Fixpoint split_from (word : string) (s : string) : list string :=
  match s with
  | EmptyString => if String.eqb word "" then [] else [word]
  | String c rest =>
      if isspace c then
        if String.eqb word "" then split_from "" rest
        else word :: split_from "" rest
      else split_from (word +:+ String c "") rest
  end.

Definition str_split (s : string) : list string := split_from "" s.

(** [sep.join(l)]. *)
Fixpoint str_join (sep : string) (l : list string) : string :=
  match l with
  | [] => ""
  | [x] => x
  | x :: rest => x +:+ sep +:+ str_join sep rest
  end.

Definition LF : ascii := ascii_of_nat 10.

(** The counters of [self.stats] that the client and the extraction update,
    the rate state, and the durations slept so far (oldest first). *)
Record Client := mkClient {
  rate_limit : RateLimitInfo;
  errors : Z;
  pdfs_downloaded : Z;
  texts_extracted : Z;
  text_extraction_errors : Z;
  sleeps : list Q
}.

Definition set_rate_limit (rl : RateLimitInfo) (c : Client) : Client :=
  {| rate_limit := rl; errors := errors c;
     pdfs_downloaded := pdfs_downloaded c; texts_extracted := texts_extracted c;
     text_extraction_errors := text_extraction_errors c; sleeps := sleeps c |}.

Definition set_errors (n : Z) (c : Client) : Client :=
  {| rate_limit := rate_limit c; errors := n;
     pdfs_downloaded := pdfs_downloaded c; texts_extracted := texts_extracted c;
     text_extraction_errors := text_extraction_errors c; sleeps := sleeps c |}.

Definition set_pdfs_downloaded (n : Z) (c : Client) : Client :=
  {| rate_limit := rate_limit c; errors := errors c;
     pdfs_downloaded := n; texts_extracted := texts_extracted c;
     text_extraction_errors := text_extraction_errors c; sleeps := sleeps c |}.

Definition set_texts_extracted (n : Z) (c : Client) : Client :=
  {| rate_limit := rate_limit c; errors := errors c;
     pdfs_downloaded := pdfs_downloaded c; texts_extracted := n;
     text_extraction_errors := text_extraction_errors c; sleeps := sleeps c |}.

Definition set_text_extraction_errors (n : Z) (c : Client) : Client :=
  {| rate_limit := rate_limit c; errors := errors c;
     pdfs_downloaded := pdfs_downloaded c; texts_extracted := texts_extracted c;
     text_extraction_errors := n; sleeps := sleeps c |}.

Definition set_sleeps (l : list Q) (c : Client) : Client :=
  {| rate_limit := rate_limit c; errors := errors c;
     pdfs_downloaded := pdfs_downloaded c; texts_extracted := texts_extracted c;
     text_extraction_errors := text_extraction_errors c; sleeps := l |}.

(** Lines 255-261: the pages that hold text, each with its whitespace runs
    collapsed to single spaces. *)
Definition clean_pages (pages : list string) : list string :=
  omap (fun text =>
          if String.eqb (str_strip text) "" then None
          else Some (str_join " " (str_split text)))
       pages.

(** [extract_text_from_pdf]: [pdf] is what PyMuPDF reads from the content,
    the text of each page in order, or [None] when any of its calls
    raises. *)
Definition extract_text_from_pdf (pdf : option (list string)) (c : Client)
  : option string * Client :=
  match pdf with
  | Some pages =>
      let full_text := str_join (String LF (String LF "")) (clean_pages pages) in
      if (String.length (str_strip full_text) <? 50)%nat then (None, c)
      else (Some full_text, set_texts_extracted (texts_extracted c + 1) c)
  | None => (None, set_text_extraction_errors (text_extraction_errors c + 1) c)
  end.

(** ** CatalogClient: the request protocol of get_decisions_list and
    download_pdf_and_extract_text (parser.py 297-306, 318-328, 400-431) *)

(** One call of [self.session.get]: it returns a response, whose payload is
    [body], or raises a [RequestException]. *)
Inductive attempt (B : Type) : Type :=
| Answered (response : Response) (body : B)
| Refused.

Arguments Answered {B} response body.
Arguments Refused {B}.

(** [response.raise_for_status()] raises [HTTPError], a
    [RequestException], on a status from 400 to 599. *)
Definition raise_for_status (response : Response) : bool :=
  (400 <=? status_code response) && (status_code response <? 600).

(** [self._adaptive_delay()] on the client. *)
Definition client_delay (delay now : Q) (c : Client) : may_raise Client :=
  '(d, rl) ← _adaptive_delay delay now (rate_limit c);
  Ok (set_sleeps (sleeps c ++ [d]) (set_rate_limit rl c)).

(** The [except requests.exceptions.RequestException] block. *)
Definition on_exception (c : Client) : Client :=
  set_rate_limit (on_request_exception (rate_limit c))
                 (set_errors (errors c + 1) c).

(** The lines from the first [_adaptive_delay()] to [raise_for_status()],
    which the two methods share, with the handler of the exceptions raised
    there: the response that went through, or [None] from the handler.
    [first] and [second] are the outcomes of the two calls of
    [session.get]; [now1] and [now2] are the clock readings after the two
    sleeps. *)
Definition request_with_retry {B} (delay now1 now2 : Q)
  (first second : attempt B) (c : Client)
  : may_raise (option (Response * B) * Client) :=
  c ← client_delay delay now1 c;
  match first with
  | Refused => Ok (None, on_exception c)
  | Answered response body =>
      let '(proceed, rl) := _check_rate_limits (rate_limit c) response in
      let c := set_rate_limit rl c in
      if proceed then
        if raise_for_status response then Ok (None, on_exception c)
        else Ok (Some (response, body), c)
      else
        c ← client_delay delay now2 c;
        match second with
        | Refused => Ok (None, on_exception c)
        | Answered response body =>
            if raise_for_status response then Ok (None, on_exception c)
            else Ok (Some (response, body), c)
        end
  end.

(** [download_pdf_and_extract_text]; the payload of a response is the PDF as
    PyMuPDF reads it. *)
Definition download_pdf_and_extract_text (delay now1 now2 : Q)
  (first second : attempt (option (list string))) (c : Client)
  : may_raise (option string * Client) :=
  '(r, c) ← request_with_retry delay now1 now2 first second c;
  match r with
  | Some (_, content) =>
      let '(extracted_text, c) := extract_text_from_pdf content c in
      if optstr_truthy extracted_text then
        Ok (extracted_text, set_pdfs_downloaded (pdfs_downloaded c + 1) c)
      else Ok (None, c)
  | None => Ok (None, c)
  end.

(** The URL that [download_pdf_and_extract_text] requests for the
    [pdf_id] of a record (lines 395-398). *)
Definition download_url (py_str : pyval -> string) (period : Period)
  (pdf_id : pyval) : string :=
  match period with
  | new => new_api_base +:+ "/public/onStream/" +:+ py_str pdf_id
  | old => old_api_base +:+ "/api/file/download/" +:+ py_str pdf_id +:+ "/"
  end.

(** A client just constructed. *)
Definition Client_default : Client :=
  {| rate_limit := RateLimitInfo_default; errors := 0; pdfs_downloaded := 0;
     texts_extracted := 0; text_extraction_errors := 0; sleeps := [] |}.

(** ** The tasks of a batch on the shared parser (parser.py 626-630, 649-651) *)

(** What the network, the clock and the disk hold for the task of one
    record: the outcomes of its two calls of [session.get] (the second is
    made on a retry only), the clock readings after its two sleeps, and
    whether the write of its text file goes through. *)
Record Task := mkTask {
  first_get : attempt (option (list string));
  second_get : attempt (option (list string));
  clock1 : Q;
  clock2 : Q;
  text_written : bool
}.

(** [_process_single_decision] as a task of the pool: the call of
    [download_pdf_and_extract_text] on the parser object, which all tasks
    share.  What the task returns or raises goes to its future; the parser
    keeps what the task did to it.  The method raises nowhere but in its two
    calls of [_adaptive_delay], where [time.sleep] raises before anything is
    changed: a raise at line 400 leaves the parser as it was, a raise at
    line 406 leaves it with the rate state that [_check_rate_limits] has
    just stored. *)
Definition _process_single_decision (delay : Q) (task : Task) (c : Client)
  : future_result * Client :=
  match download_pdf_and_extract_text delay (clock1 task) (clock2 task)
          (first_get task) (second_get task) c with
  | Ok (extracted_text, c') => (Returned extracted_text, c')
  | Raise _ =>
      match client_delay delay (clock1 task) c, first_get task with
      | Ok c1, Answered response _ =>
          (Raised,
           set_rate_limit (snd (_check_rate_limits (rate_limit c1) response)) c1)
      | _, _ => (Raised, c)
      end
  end.

(** [ThreadPoolExecutor(max_workers=1)]: the one worker thread takes the
    tasks in the order of their submission, which is the order of the
    records, each on the parser as the task before left it. *)
Fixpoint pool_of_one (delay : Q) (tasks : list Task) (c : Client)
  : list future_result * Client :=
  match tasks with
  | [] => ([], c)
  | task :: tasks =>
      let '(r, c) := _process_single_decision delay task c in
      let '(rs, c) := pool_of_one delay tasks c in
      (r :: rs, c)
  end.

(** [_download_pdfs_batch(decisions, 1, period)] with its tasks run, not
    given: the future of index [i] holds what the [i]-th task returned or
    raised. *)
Definition batch_with_one_worker (py_str : pyval -> string) (delay : Q)
  (tasks : list Task) (completed : list nat) (decisions : list CourtDecision)
  (c : Client) : may_raise (list CourtDecision) :=
  let results := fst (pool_of_one delay tasks c) in
  _download_pdfs_batch py_str
    (fun i => {| future := default Raised (results !! i);
                 write_ok := default false (text_written <$> tasks !! i) |})
    completed decisions 1.

(** * Sample inputs *)

(** A 429 that carries [Retry-After: 0]. *)
Definition resp_429_retry_after_0 : Response :=
  {| status_code := 429; hdr_Retry_After := Some (HInt 0);
     hdr_X_RateLimit_Remaining := None; hdr_X_Rate_Limit_Remaining := None |}.

(** A 429 that carries [Retry-After: 30] and [X-RateLimit-Remaining: 0]. *)
Definition resp_429_low_quota : Response :=
  {| status_code := 429; hdr_Retry_After := Some (HInt 30);
     hdr_X_RateLimit_Remaining := Some (HInt 0);
     hdr_X_Rate_Limit_Remaining := None |}.

(** A 200 that carries [X-RateLimit-Remaining: 3]. *)
Definition resp_200_low_quota : Response :=
  {| status_code := 200; hdr_Retry_After := None;
     hdr_X_RateLimit_Remaining := Some (HInt 3);
     hdr_X_Rate_Limit_Remaining := None |}.

(** [r] returns a value that satisfies [P]. *)
Definition returns {A} (r : may_raise A) (P : A -> Prop) : Prop :=
  match r with
  | Ok a => P a
  | Raise _ => False
  end.

(** A task fails when [download_pdf_and_extract_text] raises or returns
    nothing that counts as text. *)
Definition task_failed (o : TaskOutcome) : bool :=
  match future o with
  | Returned extracted => negb (optstr_truthy extracted)
  | Raised => true
  end.

Definition future_text (o : TaskOutcome) : option string :=
  match future o with
  | Returned extracted => extracted
  | Raised => None
  end.

(** An entry of the old schema that carries what the normalizer requires:
    a non-empty attachment list whose head has [fileData] with [id], [name]
    and [size], and an [id] of its own. *)
Definition old_entry_complete (decision_data : pyval) : bool :=
  match get decision_data "attachmentsList" with
  | Some (PList (first :: _)) =>
      match getitem first "fileData" with
      | Some file_data =>
          bool_decide (is_Some (getitem file_data "id")) &&
          bool_decide (is_Some (getitem file_data "name")) &&
          bool_decide (is_Some (getitem file_data "size")) &&
          bool_decide (is_Some (getitem decision_data "id"))
      | None => false
      end
  | _ => false
  end.

(** The fields of a record that come from the catalog entry. *)
Definition json_fields (d : CourtDecision) :=
  (decision_id d, case_number d, court_name_uz d, court_name_ru d,
   responsible_judge d, speaker_judge d, hearing_date d, result d, instance d,
   categories d, pdf_id d, pdf_name d, pdf_size d, pdf_url d).

(** Local time in Tashkent: five hours east of UTC all year. *)
Definition tashkent (t : Z) : Z := 18000.
Definition utc (t : Z) : Z := 0.

Definition sample_attachments (n : Z) : pyval :=
  PList [PDict [("fileData",
                 PDict [("id", PInt (7000 + n)); ("name", PStr "decision.pdf");
                        ("size", PInt 20480)])]]%string.

(** An old-schema entry with [id] [n] and the given [hearingDate] keys. *)
Definition sample_old_entry (n : Z) (date : list (string * pyval)) : pyval :=
  PDict ([("id", PInt n); ("caseNumber", PStr "4-1001-2301/15");
          ("dbName", PStr "Toshkent tumanlararo iqtisodiy sudi");
          ("attachmentsList", sample_attachments n)]%string ++ date).

Definition sample_entry (n : Z) : pyval :=
  sample_old_entry n [("hearingDate"%string, PInt 1700000000000)].

Definition sample_text : string :=
  "Sud qarori matni: da'vo arizasi qanoatlantirilsin, sud xarajatlari undirilsin.".

Definition succeeds : TaskOutcome :=
  {| future := Returned (Some sample_text); write_ok := true |}.
Definition fetch_fails : TaskOutcome :=
  {| future := Returned None; write_ok := true |}.
Definition write_fails : TaskOutcome :=
  {| future := Returned (Some sample_text); write_ok := false |}.

(** What the normalizer returns on [sample_entry n] when local time is UTC. *)
Definition sample_decision (n : Z) : CourtDecision :=
  {| decision_id := PStr (pretty n);
     case_number := PStr "4-1001-2301/15";
     court_name_uz := PStr "Toshkent tumanlararo iqtisodiy sudi";
     court_name_ru := PStr "Toshkent tumanlararo iqtisodiy sudi";
     responsible_judge := PNone; speaker_judge := PNone;
     hearing_date := PStr "2023-11-14T22:13:20";
     result := PStr ""; instance := PStr "FIRST"; categories := PList [];
     pdf_id := PStr (pretty (7000 + n)); pdf_name := PStr "decision.pdf";
     pdf_size := PInt 20480;
     pdf_url := "https://publication.sud.uz/api/file/download/"
                +:+ pretty (7000 + n) +:+ "/";
     text_file_path := None; text_file_relative_path := None;
     text_extraction_success := false; extracted_text := None |}.

(** Ten records off the normalizer; the task of index 3 always fails. *)
Definition ten_decisions : list CourtDecision := sample_decision <$> seqZ 0 10.

Definition one_failing (i : nat) : TaskOutcome :=
  if Nat.eqb i 3 then fetch_fails else succeeds.

(** The tasks complete in the reverse of the order of submission. *)
Definition ten_processed : list CourtDecision :=
  fold_left (on_completed str_of_scalar one_failing) (rev (seq 0 10)) ten_decisions.

(** The listing of a page in a section of [total] pages. *)
Definition sample_listing (total : Z) (entries : Z -> list pyval) (page : Z)
  : PageData :=
  {| totalPages := Some total; totalElements := Some total;
     content := Some (entries page) |}.

(** A section of [total] pages; page [p] lists the entries [entries p];
    every attachment is fetched, extracted and written. *)
Definition sample_world (total : Z) (entries : Z -> list pyval) : World :=
  {| get_decisions_list := fun page _ =>
       if (0 <=? page) && (page <? total) then
         Some (sample_listing total entries page)
       else None;
     task_outcome := fun _ _ _ => succeeds;
     completed_order := fun _ _ => [0%nat] |}.

Definition one_entry (page : Z) : list pyval := [sample_entry page].

(** Page 1 lists a single entry without attachments, which the normalizer
    drops. *)
Definition page_1_empty (page : Z) : list pyval :=
  if page =? 1 then [PDict [("id"%string, PInt 1)]] else [sample_entry page].

Definition default_args : Args :=
  {| max_pages := None; download_pdfs := true; max_workers := 4;
     start_page := 0; end_page := None; overwrite_files := false |}.

Definition overwrite_args : Args :=
  {| max_pages := None; download_pdfs := true; max_workers := 4;
     start_page := 0; end_page := None; overwrite_files := true |}.

(** [start_page=2, end_page=2]. *)
Definition page_2_only : Args :=
  {| max_pages := None; download_pdfs := true; max_workers := 4;
     start_page := 2; end_page := Some 2; overwrite_files := false |}.

(** A parser just constructed over an empty download directory. *)
Definition fresh_run : RunState :=
  {| all_decisions := []; pages_processed := 0; decisions_found := 0;
     metadata_dir := ∅; trace := [] |}.

(** A parser constructed later over the directory that [st] left. *)
Definition restart (st : RunState) : RunState :=
  {| all_decisions := []; pages_processed := 0; decisions_found := 0;
     metadata_dir := metadata_dir st; trace := [] |}.

(** A directory that already holds the artifact of page 1 of the old
    section. *)
Definition page_1_on_disk : RunState :=
  {| all_decisions := []; pages_processed := 0; decisions_found := 0;
     metadata_dir := {[ "page_old_0001.json"%string := [to_dict (sample_decision 1)] ]};
     trace := [] |}.

(** * Auxiliary notions *)

(** An event that multiplies the delay: a request that raised, a
    502/503/504, or a 429 without a [Retry-After] that [int()] reads. *)
Definition escalates (ev : event) : bool :=
  match ev with
  | Observed response =>
      is_server_error (status_code response) ||
      (status_code response =? 429) &&
      match hdr_Retry_After response with Some (HInt _) => false | _ => true end
  | RequestFailed => true
  | Delayed _ _ => false
  end.

(** The lower bound of the delay after [n] escalations from [min_delay]. *)
Fixpoint backoff_floor (n : nat) : Q :=
  match n with
  | O => min_delay
  | S n => py_min (backoff_floor n * 1.5)%Q max_delay
  end.

(** The first response calls for a second request. *)
Definition backs_off {B} (a : attempt B) : bool :=
  match a with
  | Answered response _ =>
      (status_code response =? 429) || is_server_error (status_code response)
  | Refused => false
  end.

Definition starts_with_text (s : string) : bool :=
  match s with
  | String c _ => negb (isspace c)
  | EmptyString => false
  end.

Fixpoint ends_with_text (s : string) : bool :=
  match s with
  | EmptyString => false
  | String c EmptyString => negb (isspace c)
  | String _ rest => ends_with_text rest
  end.

(** A text that starts and ends with a character that is no whitespace. *)
Definition word_ok (w : string) : Prop :=
  starts_with_text w = true /\ ends_with_text w = true.

(** A new-schema entry that carries what the normalizer requires. *)
Definition new_entry_complete (decision_data : pyval) : bool :=
  match getitem decision_data "pdf", getitem decision_data "court_names" with
  | Some pdf, Some (PDict _) =>
      bool_decide (is_Some (getitem pdf "id")) &&
      bool_decide (is_Some (getitem pdf "name")) &&
      bool_decide (is_Some (getitem pdf "size")) &&
      bool_decide (is_Some (getitem decision_data "id")) &&
      bool_decide (is_Some (getitem decision_data "case_number")) &&
      bool_decide (is_Some (getitem decision_data "hearing_date")) &&
      bool_decide (is_Some (getitem decision_data "result")) &&
      bool_decide (is_Some (getitem decision_data "instance"))
  | _, _ => false
  end.

Fixpoint contains_char (c : ascii) (s : string) : bool :=
  match s with
  | EmptyString => false
  | String x rest => Ascii.eqb x c || contains_char c rest
  end.

(** The first character of a string is a decimal digit other than [0]. *)
Definition starts_with_nonzero_digit (s : string) : bool :=
  match s with
  | String c _ => bool_decide (c ∈ ["1"; "2"; "3"; "4"; "5"; "6"; "7"; "8"; "9"]%char)
  | EmptyString => false
  end.

(** Decimal numerals without sign: ["0"], or digits that start with a
    digit other than [0]. *)
Definition canonical (s : string) : Prop :=
  s = "0"%string \/ starts_with_nonzero_digit s = true.

(** [k] zeros. *)
Definition zeros (k : nat) : string := string_of_list_ascii (repeat "0"%char k).

(** A 429 that carries [Retry-After: -5]. *)
Definition resp_429_retry_after_negative : Response :=
  {| status_code := 429; hdr_Retry_After := Some (HInt (-5));
     hdr_X_RateLimit_Remaining := None; hdr_X_Rate_Limit_Remaining := None |}.

(** A 429 that carries [Retry-After: 10000000000]. *)
Definition resp_429_retry_after_huge : Response :=
  {| status_code := 429; hdr_Retry_After := Some (HInt 10000000000);
     hdr_X_RateLimit_Remaining := None; hdr_X_Rate_Limit_Remaining := None |}.

(** A 503 without headers. *)
Definition resp_503 : Response :=
  {| status_code := 503; hdr_Retry_After := None;
     hdr_X_RateLimit_Remaining := None; hdr_X_Rate_Limit_Remaining := None |}.

(** A document of three pages, the second one blank. *)
Definition sample_pdf : list string :=
  ["  Sud   qarori   matni:  da'vo arizasi qanoatlantirilsin.  ";
   "     ";
   "Sud xarajatlari javobgardan undirilsin."]%string.

Definition blank_pdf : list string := [""; "   "]%string.

(** A task whose request is answered 200 with [sample_pdf]. *)
Definition pdf_served : Task :=
  {| first_get := Answered resp_200_low_quota (Some sample_pdf);
     second_get := Refused; clock1 := 1%Q; clock2 := 2%Q; text_written := true |}.

(** A task whose first request is answered [response] without a document;
    a retry would be served [sample_pdf]. *)
Definition answered_with (response : Response) : Task :=
  {| first_get := Answered response None;
     second_get := Answered resp_200_low_quota (Some sample_pdf);
     clock1 := 1%Q; clock2 := 2%Q; text_written := true |}.

(** A 404 without headers. *)
Definition resp_404 : Response :=
  {| status_code := 404; hdr_Retry_After := None;
     hdr_X_RateLimit_Remaining := None; hdr_X_Rate_Limit_Remaining := None |}.

(** The tasks of ten records: the first one answered [response], the nine
    others served their document. *)
Definition ten_tasks (response : Response) : list Task :=
  answered_with response :: replicate 9 pdf_served.

(** The parser holds a negative [retry_after] that [time.sleep] answers
    with [ValueError]. *)
Definition poisoned (c : Client) : Prop :=
  exists n, retry_after (rate_limit c) = Some n /\ -9223372037 <= n < 0.

(** A date-time of four-digit year and two-digit fields. *)
Definition displayable (t : datetime) : Prop :=
  0 <= year t <= 9999 /\ 0 <= month t <= 99 /\ 0 <= day t <= 99 /\
  0 <= hour t <= 99 /\ 0 <= minute t <= 99 /\ 0 <= second t <= 99.

(** A new-schema entry whose [case_number] is null. *)
Definition new_entry_null_case_number : pyval :=
  PDict [("id", PStr "6f1c2a9e-77aa-4d0e-9b11-0c5d4e3f2a10"); ("case_number", PNone);
         ("court_names", PDict [("uz", PStr "Toshkent shahar sudi");
                                ("ru", PStr "Tashkentskiy gorodskoy sud")]);
         ("hearing_date", PStr "2024-05-14"); ("result", PStr "SATISFIED");
         ("instance", PStr "FIRST");
         ("pdf", PDict [("id", PStr "9c0d7e44"); ("name", PStr "decision.pdf");
                        ("size", PInt 18234)])]%string.

(** The same entry with a case number. *)
Definition sample_new_entry : pyval :=
  PDict [("id", PStr "6f1c2a9e-77aa-4d0e-9b11-0c5d4e3f2a10");
         ("case_number", PStr "4-1001-2405/77");
         ("court_names", PDict [("uz", PStr "Toshkent shahar sudi");
                                ("ru", PStr "Tashkentskiy gorodskoy sud")]);
         ("hearing_date", PStr "2024-05-14"); ("result", PStr "SATISFIED");
         ("instance", PStr "FIRST");
         ("pdf", PDict [("id", PStr "9c0d7e44"); ("name", PStr "decision.pdf");
                        ("size", PInt 18234)])]%string.

(** A record whose id holds path separators. *)
Definition decision_with_slash_id : CourtDecision :=
  set_text_paths None None
    {| decision_id := PStr "../../x"; case_number := PStr "4-10/01:2301";
       court_name_uz := PNone; court_name_ru := PNone; responsible_judge := PNone;
       speaker_judge := PNone; hearing_date := PNone; result := PNone;
       instance := PNone; categories := PNone; pdf_id := PNone; pdf_name := PNone;
       pdf_size := PNone; pdf_url := ""; text_file_path := None;
       text_file_relative_path := None; text_extraction_success := false;
       extracted_text := None |}.

(** The state that a first run over three pages leaves. *)
Definition three_pages_done : RunState :=
  match parse_section str_of_scalar utc (sample_world 3 one_entry) default_args
          fresh_run old with
  | Ok st => restart st
  | Raise _ => fresh_run
  end.

(** * Properties *)

(** ** Floats *)

Lemma round_half_even_cases (n d : Z) :
  0 < d ->
  let r := round_half_even n d in
  (r = n / d \/ r = n / d + 1) /\ 2 * Z.abs (d * r - n) <= d.
Proof.
  intros Hd. unfold round_half_even.
  pose proof (Z.div_mod n d ltac:(lia)) as E.
  pose proof (Z.mod_pos_bound n d Hd) as B.
  destruct (2 * (n mod d) <? d) eqn:E1; [split; [by left | lia] |].
  destruct (d <? 2 * (n mod d)) eqn:E2; [split; [by right | lia] |].
  destruct (Z.even (n / d)); (split; [auto | lia]).
Qed.

Lemma Qround_half_even_error (x : Q) :
  (Qabs (inject_Z (Qround_half_even x) - x) <= 1 # 2)%Q.
Proof.
  destruct x as [n d]. unfold Qround_half_even. cbn [Qnum Qden].
  destruct (round_half_even_cases n (Zpos d) ltac:(lia)) as [_ H].
  set (r := round_half_even n (Z.pos d)) in *.
  apply Qabs_Qle_condition. unfold Qle, Qminus, Qplus, Qopp, inject_Z; cbn. lia.
Qed.

Lemma Qround_half_even_floor (x : Q) : Qfloor x <= Qround_half_even x.
Proof.
  destruct x as [n d]. unfold Qround_half_even, Qfloor. cbn [Qnum Qden].
  destruct (round_half_even_cases n (Zpos d) ltac:(lia)) as [[H|H] _]; lia.
Qed.

Lemma Qround_half_even_near (x : Q) (k : Z) :
  (Qabs (x - inject_Z k) < 1 # 2)%Q -> Qround_half_even x = k.
Proof.
  intros H. pose proof (Qround_half_even_error x) as E.
  set (r := Qround_half_even x) in *.
  apply Qabs_Qlt_condition in H. apply Qabs_Qle_condition in E.
  assert (inject_Z r < inject_Z (k + 1))%Q as H1
    by (rewrite inject_Z_plus; change (inject_Z 1) with 1%Q; lra).
  assert (inject_Z k < inject_Z (r + 1))%Q as H2
    by (rewrite inject_Z_plus; change (inject_Z 1) with 1%Q; lra).
  rewrite <- Zlt_Qlt in H1, H2. lia.
Qed.

Lemma two_pow_pos (e : Z) : (0 < 2 ^ e)%Q.
Proof. apply Qpower_0_lt. reflexivity. Qed.

Lemma two_pow_plus (a b : Z) : (2 ^ (a + b) == 2 ^ a * 2 ^ b)%Q.
Proof. apply Qpower_plus. discriminate. Qed.

Lemma two_pow_Z (n : Z) : 0 <= n -> (inject_Z (2 ^ n) == 2 ^ n)%Q.
Proof. intros H. by rewrite Zpower_Qpower. Qed.

Lemma two_pow_le (a b : Z) : a <= b -> (2 ^ a <= 2 ^ b)%Q.
Proof. intros H. apply Qpower_le_compat_l; [assumption | discriminate]. Qed.

Lemma two_pow_lt_inv (a b : Z) : (2 ^ a < 2 ^ b)%Q -> a < b.
Proof.
  intros H. destruct (Z_lt_le_dec a b) as [|Hle]; [assumption |].
  apply two_pow_le in Hle. lra.
Qed.

(** The rounding error is half a unit in the last place. *)
Lemma b64_round_pos_ulp (x : Q) :
  (Qabs (b64_round_pos x - x) <= 2 ^ (b64_exponent x - 1))%Q.
Proof.
  unfold b64_round_pos. set (e := b64_exponent x).
  pose proof (Qround_half_even_error (x * 2 ^ (- e))) as E.
  set (m := inject_Z (Qround_half_even (x * 2 ^ (- e)))) in *.
  pose proof (two_pow_pos e) as He.
  assert (X : (x == x * 2 ^ (- e) * 2 ^ e)%Q).
  { rewrite <- Qmult_assoc, <- two_pow_plus. replace (- e + e) with 0 by lia.
    cbn. ring. }
  assert (P : (2 ^ (e - 1) == (1 # 2) * 2 ^ e)%Q).
  { replace (e - 1) with (-1 + e) by lia. rewrite two_pow_plus. reflexivity. }
  assert (D : (m * 2 ^ e - x == (m - x * 2 ^ (- e)) * 2 ^ e)%Q).
  { transitivity (m * 2 ^ e - x * 2 ^ (- e) * 2 ^ e)%Q; [by rewrite <- X | ring]. }
  rewrite P, D, Qabs_Qmult, (Qabs_pos (2 ^ e)) by lra.
  apply Qmult_le_compat_r; [assumption | lra].
Qed.

Lemma floor_scaled_log2 (x : Q) :
  (0 < x)%Q ->
  let t := Qfloor (x * 2 ^ 1080) in
  0 <= t /\ (x * 2 ^ 1080 < 2 ^ (Z.log2 t + 1))%Q /\
  (0 < t -> (2 ^ (Z.log2 t) <= x * 2 ^ 1080)%Q).
Proof.
  intros Hx t.
  assert (Hy : (0 < x * 2 ^ 1080)%Q).
  { apply Qmult_lt_0_compat; [assumption | apply two_pow_pos]. }
  assert (Ht : 0 <= t).
  { change 0 with (Qfloor 0). apply Qfloor_resp_le. lra. }
  pose proof (Qfloor_le (x * 2 ^ 1080)) as Hlo.
  pose proof (Qlt_floor (x * 2 ^ 1080)) as Hhi. fold t in Hlo, Hhi.
  pose proof (Z.log2_nonneg t) as Hl.
  split; [assumption |]. split.
  - assert (t + 1 <= 2 ^ (Z.log2 t + 1)).
    { destruct (Z.eq_dec t 0) as [->|Hne]; [cbn; lia |].
      pose proof (Z.log2_spec t ltac:(lia)). unfold Z.succ in *. lia. }
    rewrite <- (two_pow_Z (Z.log2 t + 1)) by lia.
    eapply Qlt_le_trans; [exact Hhi |]. by rewrite Zle_Qle in H.
  - intros Hpos. pose proof (Z.log2_spec t Hpos) as [S _].
    rewrite <- (two_pow_Z (Z.log2 t)) by lia. rewrite Zle_Qle in S. lra.
Qed.

(** A value below [2 ^ k] is rounded with an error of at most [2 ^ (k - 54)]. *)
Lemma b64_round_pos_error (x : Q) (k : Z) :
  (0 < x)%Q -> (x < 2 ^ k)%Q -> -1000 <= k ->
  (Qabs (b64_round_pos x - x) <= 2 ^ (k - 54))%Q.
Proof.
  intros Hx Hk Hk0.
  eapply Qle_trans; [apply b64_round_pos_ulp |].
  apply two_pow_le.
  destruct (floor_scaled_log2 x Hx) as (Ht & Hhi & Hlo).
  unfold b64_exponent. set (t := Qfloor (x * 2 ^ 1080)) in *.
  apply Z.lt_succ_r. unfold Z.succ.
  assert (Z.log2 t < k + 1080); [| lia].
  destruct (Z.eq_dec t 0) as [E0|Hne]; [rewrite E0; cbn; lia |].
  apply two_pow_lt_inv.
  eapply Qle_lt_trans; [apply Hlo; lia |].
  rewrite two_pow_plus. apply Qmult_lt_compat_r; [apply two_pow_pos | assumption].
Qed.

(** Rounding does not cross a power of two. *)
Lemma b64_round_pos_ge (x : Q) (k : Z) :
  (2 ^ k <= x)%Q -> -1000 <= k -> (2 ^ k <= b64_round_pos x)%Q.
Proof.
  intros Hk Hk0.
  assert (Hx : (0 < x)%Q) by (pose proof (two_pow_pos k); lra).
  destruct (floor_scaled_log2 x Hx) as (Ht & Hhi & Hlo).
  unfold b64_round_pos, b64_exponent. set (t := Qfloor (x * 2 ^ 1080)) in *.
  assert (Hl : k + 1080 <= Z.log2 t).
  { apply Z.lt_succ_r. unfold Z.succ. apply two_pow_lt_inv.
    eapply Qle_lt_trans; [| exact Hhi].
    rewrite two_pow_plus. apply Qmult_le_compat_r; [assumption |].
    pose proof (two_pow_pos 1080). lra. }
  assert (Hpos : 0 < t).
  { destruct (Z.eq_dec t 0) as [E0|]; [rewrite E0 in Hl; cbn in Hl; lia | lia]. }
  specialize (Hlo Hpos).
  rewrite Z.max_l by lia. set (e := Z.log2 t - 1132).
  assert (Hs : (2 ^ 52 <= x * 2 ^ (- e))%Q).
  { replace (- e) with (1080 + (52 - Z.log2 t)) by lia.
    rewrite two_pow_plus, Qmult_assoc.
    assert (D : (2 ^ 52 == 2 ^ (Z.log2 t) * 2 ^ (52 - Z.log2 t))%Q).
    { rewrite <- two_pow_plus. by replace (Z.log2 t + (52 - Z.log2 t)) with 52 by lia. }
    rewrite D.
    apply Qmult_le_compat_r; [assumption |].
    pose proof (two_pow_pos (52 - Z.log2 t)). lra. }
  assert (Hm : 2 ^ 52 <= Qround_half_even (x * 2 ^ (- e))).
  { etransitivity; [| apply Qround_half_even_floor].
    change (2 ^ 52) with (Qfloor (inject_Z (2 ^ 52))) at 1.
    apply Qfloor_resp_le. rewrite (two_pow_Z 52) by lia. exact Hs. }
  rewrite Zle_Qle in Hm. rewrite (two_pow_Z 52) in Hm by lia.
  eapply Qle_trans; [| apply Qmult_le_compat_r; [exact Hm |]].
  - rewrite <- two_pow_plus. apply two_pow_le. lia.
  - pose proof (two_pow_pos e). lra.
Qed.

Lemma b64_round_0 (x : Q) : (x == 0)%Q -> b64_round x = 0%Q.
Proof. intros H. unfold b64_round. by rewrite (proj1 (Qeq_alt x 0) H). Qed.

Lemma b64_round_positive (x : Q) : (0 < x)%Q -> b64_round x = b64_round_pos x.
Proof. intros H. unfold b64_round. by rewrite (proj1 (Qgt_alt x 0) H). Qed.

Lemma b64_round_negative (x : Q) :
  (x < 0)%Q -> b64_round x = (- b64_round_pos (- x))%Q.
Proof. intros H. unfold b64_round. by rewrite (proj1 (Qlt_alt x 0) H). Qed.

Lemma b64_round_error (x : Q) (k : Z) :
  (Qabs x < 2 ^ k)%Q -> -1000 <= k -> (Qabs (b64_round x - x) <= 2 ^ (k - 54))%Q.
Proof.
  intros Hk Hk0. pose proof (two_pow_pos (k - 54)) as Hp.
  apply Qabs_Qlt_condition in Hk.
  destruct (Q_dec x 0) as [[Hneg|Hpos]|Hz].
  - rewrite (b64_round_negative x Hneg).
    pose proof (b64_round_pos_error (- x) k ltac:(lra) ltac:(lra) Hk0) as E.
    apply Qabs_Qle_condition in E. apply Qabs_Qle_condition. lra.
  - rewrite (b64_round_positive x Hpos).
    apply b64_round_pos_error; [assumption | lra | assumption].
  - rewrite (b64_round_0 x Hz). apply Qabs_Qle_condition. lra.
Qed.

Lemma b64_round_ge (x : Q) (k : Z) :
  (2 ^ k <= x)%Q -> -1000 <= k -> (2 ^ k <= b64_round x)%Q.
Proof.
  intros Hk Hk0. pose proof (two_pow_pos k).
  rewrite b64_round_positive by lra. by apply b64_round_pos_ge.
Qed.

Lemma b64_round_le (x : Q) (k : Z) :
  (x <= - 2 ^ k)%Q -> -1000 <= k -> (b64_round x <= - 2 ^ k)%Q.
Proof.
  intros Hk Hk0. pose proof (two_pow_pos k).
  rewrite b64_round_negative by lra.
  pose proof (b64_round_pos_ge (- x) k ltac:(lra) Hk0). lra.
Qed.

Lemma b64_round_nonneg (x : Q) : (0 <= x)%Q -> (0 <= b64_round x)%Q.
Proof.
  intros Hx. destruct (Qlt_le_dec 0 x) as [Hpos|Hle].
  - rewrite (b64_round_positive x Hpos). unfold b64_round_pos.
    apply Qmult_le_0_compat; [| apply Qlt_le_weak, two_pow_pos].
    change 0%Q with (inject_Z 0). rewrite <- Zle_Qle.
    etransitivity; [| apply Qround_half_even_floor].
    change 0 with (Qfloor 0). apply Qfloor_resp_le.
    apply Qmult_le_0_compat; [lra | apply Qlt_le_weak, two_pow_pos].
  - rewrite (b64_round_0 x) by lra. lra.
Qed.

Lemma Qceiling_le_Z (x : Q) (n : Z) : (x <= inject_Z n)%Q -> Qceiling x <= n.
Proof. intros H. rewrite <- (Qceiling_Z n). by apply Qceiling_resp_le. Qed.

Lemma Qceiling_ge_Z (x : Q) (n : Z) : (inject_Z n <= x)%Q -> n <= Qceiling x.
Proof. intros H. rewrite <- (Qceiling_Z n). by apply Qceiling_resp_le. Qed.

Lemma Qfloor_le_Z (x : Q) (n : Z) : (x <= inject_Z n)%Q -> Qfloor x <= n.
Proof. intros H. rewrite <- (Qfloor_Z n). by apply Qfloor_resp_le. Qed.

Lemma Qfloor_ge_Z (x : Q) (n : Z) : (inject_Z n <= x)%Q -> n <= Qfloor x.
Proof. intros H. rewrite <- (Qfloor_Z n). by apply Qfloor_resp_le. Qed.

(** On a duration from 0 to 9223372036 seconds the nanoseconds fit and are
    not negative: neither exception of the conversion is raised. *)
Lemma time_sleep_returns (secs : Q) :
  (0 <= secs)%Q -> (secs <= 9223372036)%Q -> time_sleep secs = Ok tt.
Proof.
  intros Hlo Hhi. unfold time_sleep.
  set (q := (secs * 1000000000)%Q).
  assert (Hq : (0 <= q)%Q) by (unfold q; lra).
  pose proof (b64_round_nonneg q Hq) as Hd.
  pose proof (b64_round_error q 63) as E.
  assert (Hq63 : (Qabs q < 2 ^ 63)%Q).
  { apply Qabs_Qlt_condition. unfold q. change (2 ^ 63)%Q with 9223372036854775808%Q. lra. }
  specialize (E Hq63 ltac:(lia)). change (2 ^ (63 - 54))%Q with 512%Q in E.
  apply Qabs_Qle_condition in E.
  set (d := b64_round q) in *.
  replace (Qle_bool 0 d) with true by (symmetry; by apply Qle_bool_iff).
  assert (0 <= Qceiling d) by (apply Qceiling_ge_Z; exact Hd).
  assert (Qceiling d <= 9223372036000000512).
  { apply Qceiling_le_Z. unfold q in E.
    change (inject_Z 9223372036000000512) with 9223372036000000512%Q. lra. }
  replace (Qceiling d <? - 2 ^ 63) with false by lia.
  replace (2 ^ 63 <=? Qceiling d) with false by lia.
  replace (Qceiling d <? 0) with false by lia. reflexivity.
Qed.

(** A negative duration of a nanosecond or more, down to -9223372036.5
    seconds, raises [ValueError]. *)
Lemma time_sleep_negative (secs : Q) :
  (- 9223372036.5 <= secs)%Q -> (secs <= - (1 # 1000000000))%Q ->
  time_sleep secs = Raise ValueError.
Proof.
  intros Hlo Hhi. unfold time_sleep.
  set (q := (secs * 1000000000)%Q).
  assert (Hq : (q <= - 2 ^ 0)%Q) by (unfold q; cbn; lra).
  pose proof (b64_round_le q 0 Hq ltac:(lia)) as Hd. cbn in Hd.
  pose proof (b64_round_error q 63) as E.
  assert (Hq63 : (Qabs q < 2 ^ 63)%Q).
  { apply Qabs_Qlt_condition. unfold q. change (2 ^ 63)%Q with 9223372036854775808%Q. lra. }
  specialize (E Hq63 ltac:(lia)). change (2 ^ (63 - 54))%Q with 512%Q in E.
  apply Qabs_Qle_condition in E.
  set (d := b64_round q) in *.
  replace (Qle_bool 0 d) with false.
  2: { symmetry. apply not_true_is_false. intros H. apply Qle_bool_iff in H. lra. }
  assert (Qfloor d <= -1) by (apply Qfloor_le_Z; exact Hd).
  assert (- 9223372036500000512 <= Qfloor d).
  { apply Qfloor_ge_Z. unfold q in E.
    change (inject_Z (- 9223372036500000512)) with (- 9223372036500000512)%Q. lra. }
  replace (Qfloor d <? - 2 ^ 63) with false by lia.
  replace (2 ^ 63 <=? Qfloor d) with false by lia.
  replace (Qfloor d <? 0) with true by lia. reflexivity.
Qed.

(** Beyond 9223372037 seconds in either direction the conversion to
    nanoseconds overflows. *)
Lemma time_sleep_overflows (secs : Q) :
  (9223372037 <= secs)%Q \/ (secs <= - 9223372037)%Q ->
  time_sleep secs = Raise OverflowError.
Proof.
  intros H. unfold time_sleep.
  set (q := (secs * 1000000000)%Q). set (d := b64_round q).
  destruct H as [H|H].
  - assert (Hq : (2 ^ 63 <= q)%Q).
    { unfold q. change (2 ^ 63)%Q with 9223372036854775808%Q. lra. }
    pose proof (b64_round_ge q 63 Hq ltac:(lia)) as Hd. fold d in Hd.
    change (2 ^ 63)%Q with (inject_Z (2 ^ 63)) in Hd.
    replace (Qle_bool 0 d) with true.
    2: { symmetry. apply Qle_bool_iff. change (inject_Z (2 ^ 63)) with 9223372036854775808%Q in Hd. lra. }
    apply Qceiling_ge_Z in Hd.
    replace (2 ^ 63 <=? Qceiling d) with true by lia. by rewrite orb_true_r.
  - assert (Hd : (d <= inject_Z (- 2 ^ 63 - 1))%Q).
    { change (inject_Z (- 2 ^ 63 - 1)) with (- 9223372036854775809)%Q.
      destruct (Qlt_le_dec (- 2 ^ 64) q) as [Hin|Hout].
      - pose proof (b64_round_error q 64) as E.
        assert (Hq64 : (Qabs q < 2 ^ 64)%Q).
        { apply Qabs_Qlt_condition. unfold q in *.
          change (2 ^ 64)%Q with 18446744073709551616%Q in *. lra. }
        specialize (E Hq64 ltac:(lia)). change (2 ^ (64 - 54))%Q with 1024%Q in E.
        apply Qabs_Qle_condition in E. fold d in E. unfold q in E. lra.
      - pose proof (b64_round_le q 64 Hout ltac:(lia)) as Hd. fold d in Hd.
        change (2 ^ 64)%Q with 18446744073709551616%Q in Hd. lra. }
    replace (Qle_bool 0 d) with false.
    2: { symmetry. apply not_true_is_false. intros H0. apply Qle_bool_iff in H0.
         change (inject_Z (- 2 ^ 63 - 1)) with (- 9223372036854775809)%Q in Hd. lra. }
    apply Qfloor_le_Z in Hd.
    replace (Qfloor d <? - 2 ^ 63) with true by lia. reflexivity.
Qed.

(** ** The rate controller *)

Lemma py_min_le_r (a b : Q) : (py_min a b <= b)%Q.
Proof. unfold py_min. destruct (Qlt_le_dec b a); lra. Qed.

Lemma py_min_ge (lo a b : Q) : (lo <= a)%Q -> (lo <= b)%Q -> (lo <= py_min a b)%Q.
Proof. unfold py_min. destruct (Qlt_le_dec b a); lra. Qed.

Lemma py_max_ge_r (a b : Q) : (b <= py_max a b)%Q.
Proof. unfold py_max. destruct (Qlt_le_dec a b); lra. Qed.

Lemma py_max_le (hi a b : Q) : (a <= hi)%Q -> (b <= hi)%Q -> (py_max a b <= hi)%Q.
Proof. unfold py_max. destruct (Qlt_le_dec a b); lra. Qed.

Lemma escalate_in_bounds (d f : Q) :
  (min_delay <= d)%Q -> (1 <= f)%Q ->
  (min_delay <= py_min (d * f) max_delay)%Q /\ (py_min (d * f) max_delay <= max_delay)%Q.
Proof.
  unfold min_delay, max_delay. intros Hd Hf. split.
  - apply py_min_ge; [| lra].
    assert (0 <= (d - 0.1) * (f - 1))%Q by (apply Qmult_le_0_compat; lra).
    assert (0 <= 0.1 * (f - 1))%Q by (apply Qmult_le_0_compat; lra).
    lra.
  - apply py_min_le_r.
Qed.

Lemma decay_in_bounds (d : Q) :
  (min_delay <= d)%Q -> (d <= max_delay)%Q ->
  (min_delay <= py_max (d * 0.9) min_delay)%Q /\ (py_max (d * 0.9) min_delay <= max_delay)%Q.
Proof.
  unfold min_delay, max_delay. intros Hlo Hhi. split.
  - apply py_max_ge_r.
  - apply py_max_le; lra.
Qed.

Lemma floor_in_bounds (d : Q) :
  (min_delay <= d)%Q -> (d <= max_delay)%Q ->
  (min_delay <= py_max d 2.0)%Q /\ (py_max d 2.0 <= max_delay)%Q.
Proof.
  unfold min_delay, max_delay. intros Hlo Hhi. split.
  - pose proof (py_max_ge_r d 2.0). lra.
  - apply py_max_le; lra.
Qed.

Lemma check_rate_limits_in_bounds (rl : RateLimitInfo) (response : Response) :
  delay_in_bounds rl -> delay_in_bounds (snd (_check_rate_limits rl response)).
Proof.
  unfold delay_in_bounds, _check_rate_limits. intros [Hlo Hhi].
  destruct (status_code response =? 429).
  - destruct (hdr_Retry_After response) as [[| |n]|]; cbn;
      try (apply escalate_in_bounds; [assumption | unfold backoff_factor; lra]);
      split; assumption.
  - destruct (is_server_error (status_code response)); cbn.
    + apply escalate_in_bounds; [assumption | lra].
    + destruct (decay_in_bounds _ Hlo Hhi) as [Dlo Dhi].
      destruct ((status_code response =? 200) && (consecutive_errors rl >? 0));
        destruct (remaining_header response) as [[| |n]|]; cbn;
        try (split; assumption);
        destruct (n <? 10); cbn;
        try (split; assumption); apply floor_in_bounds; assumption.
Qed.

Lemma on_request_exception_in_bounds (rl : RateLimitInfo) :
  delay_in_bounds rl -> delay_in_bounds (on_request_exception rl).
Proof.
  unfold delay_in_bounds, on_request_exception. intros [Hlo Hhi]. cbn.
  apply escalate_in_bounds; [assumption | lra].
Qed.

Lemma adaptive_delay_current_delay (delay now : Q) (rl : RateLimitInfo) (d : Q)
  (rl' : RateLimitInfo) :
  _adaptive_delay delay now rl = Ok (d, rl') -> current_delay rl' = current_delay rl.
Proof.
  unfold _adaptive_delay.
  destruct (optint_truthy (retry_after rl)); [| destruct (consecutive_errors rl >? 0)];
    match goal with |- context [time_sleep ?x] => destruct (time_sleep x) as [[]|] end;
    cbn; intros H; inversion H; reflexivity.
Qed.

Lemma rate_step_in_bounds (rl : RateLimitInfo) (ev : event) :
  delay_in_bounds rl -> delay_in_bounds (rate_step rl ev).
Proof.
  intros H. destruct ev as [response| |delay now]; cbn.
  - by apply check_rate_limits_in_bounds.
  - by apply on_request_exception_in_bounds.
  - destruct (_adaptive_delay delay now rl) as [[d rl']|e] eqn:E; [| assumption].
    unfold delay_in_bounds. rewrite (adaptive_delay_current_delay _ _ _ _ _ E). exact H.
Qed.

Lemma rate_run_in_bounds (evs : list event) (rl : RateLimitInfo) :
  delay_in_bounds rl -> delay_in_bounds (rate_run evs rl).
Proof.
  revert rl. induction evs as [|ev evs IH]; intros rl H; cbn; [assumption |].
  apply IH. by apply rate_step_in_bounds.
Qed.

Lemma default_in_bounds : delay_in_bounds RateLimitInfo_default.
Proof. unfold delay_in_bounds, min_delay, max_delay; cbn. lra. Qed.

(** C1. From the initial state [RateLimitInfo()], after every prefix of every
    sequence of events of the controller (a response of any status and with
    any headers handed to [_check_rate_limits], a request that raised, a
    call of [_adaptive_delay]), [current_delay] lies between [min_delay]
    (0.1) and [max_delay] (10.0). *)
Theorem current_delay_stays_in_bounds (evs : list event) (n : nat) :
  let rl := rate_run (firstn n evs) RateLimitInfo_default in
  (0.1 <= current_delay rl)%Q /\ (current_delay rl <= 10.0)%Q.
Proof.
  exact (rate_run_in_bounds (firstn n evs) RateLimitInfo_default default_in_bounds).
Qed.

(** *** The next delay *)

Lemma inject_Z_between (n lo hi : Z) :
  lo <= n <= hi -> (inject_Z lo <= inject_Z n)%Q /\ (inject_Z n <= inject_Z hi)%Q.
Proof. intros [H1 H2]. rewrite <- !Zle_Qle. by split. Qed.

Lemma adaptive_delay_consumes_retry_after (delay now : Q) (rl : RateLimitInfo) (n : Z) :
  retry_after rl = Some n -> 0 < n <= sleep_horizon ->
  exists rl',
    _adaptive_delay delay now rl = Ok ((inject_Z n + 0.5)%Q, rl') /\
    retry_after rl' = None /\ is_limited rl' = false.
Proof.
  intros Hra Hn. unfold _adaptive_delay. rewrite Hra.
  cbn [optint_truthy default id]. replace (n =? 0) with false by lia. cbn [negb].
  destruct (inject_Z_between n 0 sleep_horizon ltac:(lia)) as [Hlo Hhi].
  change (inject_Z 0) with 0%Q in Hlo.
  change (inject_Z sleep_horizon) with 1000000000%Q in Hhi.
  rewrite time_sleep_returns by lra.
  eexists. split; [reflexivity |]. split; reflexivity.
Qed.

Lemma adaptive_delay_without_retry_after (delay now : Q) (rl : RateLimitInfo) :
  retry_after rl = None ->
  (0 <= delay)%Q -> (delay <= inject_Z sleep_horizon)%Q ->
  (0 <= current_delay rl)%Q -> (current_delay rl <= inject_Z sleep_horizon)%Q ->
  _adaptive_delay delay now rl =
    Ok (if consecutive_errors rl >? 0 then current_delay rl else delay,
        set_last_request_time (Some now) rl).
Proof.
  change (inject_Z sleep_horizon) with 1000000000%Q.
  intros Hra Hd Hd' Hc Hc'. unfold _adaptive_delay. rewrite Hra. cbn [optint_truthy].
  destruct (consecutive_errors rl >? 0); rewrite time_sleep_returns by lra; reflexivity.
Qed.

(** C7. A stored [retry_after] of 0 is not consumed.  After one 429 that
    carries [Retry-After: 0], observed from the initial state, the value is
    stored, and the next [_adaptive_delay] sleeps [current_delay] (1.5)
    rather than 0 + 0.5, leaves [retry_after] at 0 and leaves [is_limited]
    set. *)
Theorem adaptive_delay_keeps_zero_retry_after (delay now : Q) :
  let rl := snd (_check_rate_limits RateLimitInfo_default resp_429_retry_after_0) in
  retry_after rl = Some 0 /\
  exists rl',
    _adaptive_delay delay now rl = Ok (1.5%Q, rl') /\
    retry_after rl' = Some 0 /\ is_limited rl' = true.
Proof.
  split; [reflexivity |].
  eexists. split.
  - unfold _adaptive_delay.
    cbn [_check_rate_limits resp_429_retry_after_0 RateLimitInfo_default snd
         status_code hdr_Retry_After Z.eqb Pos.eqb retry_after consecutive_errors
         current_delay set_retry_after set_consecutive_errors set_is_limited
         optint_truthy negb Z.add Z.gtb Z.compare].
    rewrite time_sleep_returns by lra. reflexivity.
  - split; reflexivity.
Qed.

(** *** The low-quota floor *)

(** C8, as stated, fails: a 429 with [Retry-After: 30] and
    [X-RateLimit-Remaining: 0], observed from the initial state, leaves
    [current_delay] at 1.5. *)
Lemma low_quota_ignored_on_429 :
  remaining_header resp_429_low_quota = Some (HInt 0) /\
  (current_delay (snd (_check_rate_limits RateLimitInfo_default resp_429_low_quota))
   < 2.0)%Q.
Proof. split; reflexivity. Qed.

Lemma quota_headers_unread_on_errors (rl : RateLimitInfo) (response : Response)
  (h1 h2 : option header_value) :
  status_code response = 429 \/ is_server_error (status_code response) = true ->
  _check_rate_limits rl response =
  _check_rate_limits rl
    {| status_code := status_code response;
       hdr_Retry_After := hdr_Retry_After response;
       hdr_X_RateLimit_Remaining := h1;
       hdr_X_Rate_Limit_Remaining := h2 |}.
Proof.
  intros H. unfold _check_rate_limits. cbn.
  destruct (status_code response =? 429) eqn:E; [reflexivity |].
  destruct H as [H|H]; [lia |]. rewrite H. reflexivity.
Qed.

(** C8, amended. For every response whose status is none of 429, 502, 503
    and 504, if the remaining-quota header that the code reads
    ([X-RateLimit-Remaining], or [X-Rate-Limit-Remaining] when the former is
    absent or empty) parses to an integer below 10, [_check_rate_limits]
    leaves [current_delay] at 2.0 or more. *)
Theorem low_quota_floor (rl : RateLimitInfo) (response : Response) (n : Z) :
  status_code response <> 429 ->
  is_server_error (status_code response) = false ->
  remaining_header response = Some (HInt n) ->
  n < 10 ->
  (2.0 <= current_delay (snd (_check_rate_limits rl response)))%Q.
Proof.
  intros H429 H5xx Hrem Hn. unfold _check_rate_limits.
  replace (status_code response =? 429) with false by lia.
  rewrite H5xx, Hrem. replace (n <? 10) with true by lia. cbn.
  apply py_max_ge_r.
Qed.

Lemma low_quota_floor_witness :
  status_code resp_200_low_quota <> 429 /\
  (2.0 <= current_delay
            (snd (_check_rate_limits RateLimitInfo_default resp_200_low_quota)))%Q.
Proof.
  split; [discriminate |].
  apply (low_quota_floor RateLimitInfo_default resp_200_low_quota 3);
    [discriminate | reflexivity | reflexivity | lia].
Defined.

(** ** The attachment batch *)

Section BatchProperties.

Variable py_str : pyval -> string.

Lemma mapM_may_raise_Ok {A B} (f : A -> may_raise B) (l : list A) :
  Forall (fun x => exists y, f x = Ok y) l <-> exists ys, mapM f l = Ok ys.
Proof.
  induction l as [|x l IH]; cbn.
  - split; [intros _; by eexists | constructor].
  - split.
    + intros H. inversion H as [|? ? [y Hy] Hl]; subst.
      apply IH in Hl as [ys Hys]. rewrite Hy. cbn. rewrite Hys. cbn. by eexists.
    + intros [ys H]. destruct (f x) as [y|e] eqn:Hy; cbn in H; [| discriminate].
      destruct (mapM f l) as [ys'|e] eqn:Hys; cbn in H; [| discriminate].
      constructor; [by eexists | apply IH; by eexists].
Qed.

Lemma on_completed_length (outcome : nat -> TaskOutcome)
  (decisions : list CourtDecision) (i : nat) :
  length (on_completed py_str outcome decisions i) = length decisions.
Proof.
  unfold on_completed. destruct (decisions !! i); [apply length_insert | reflexivity].
Qed.

Lemma fold_on_completed_length (outcome : nat -> TaskOutcome) (completed : list nat)
  (decisions : list CourtDecision) :
  length (fold_left (on_completed py_str outcome) completed decisions) = length decisions.
Proof.
  revert decisions. induction completed as [|i completed IH]; intros decisions; cbn;
    [reflexivity |].
  rewrite IH. apply on_completed_length.
Qed.

Lemma on_completed_lookup (outcome : nat -> TaskOutcome)
  (decisions : list CourtDecision) (i j : nat) :
  on_completed py_str outcome decisions i !! j =
  if decide (i = j) then complete_task py_str (outcome i) <$> decisions !! j
  else decisions !! j.
Proof.
  unfold on_completed. destruct (decisions !! i) as [d|] eqn:E.
  - destruct (decide (i = j)) as [->|Hne].
    + rewrite list_lookup_insert_eq by (by eapply lookup_lt_Some). by rewrite E.
    + by rewrite list_lookup_insert_ne.
  - destruct (decide (i = j)) as [->|Hne]; [by rewrite E | reflexivity].
Qed.

(** Each future completes once: whatever the order of completion, the record
    of index [j] ends up as [complete_task] of its own outcome. *)
Lemma fold_on_completed_lookup (outcome : nat -> TaskOutcome) (completed : list nat)
  (decisions : list CourtDecision) (j : nat) :
  NoDup completed ->
  fold_left (on_completed py_str outcome) completed decisions !! j =
  if decide (j ∈ completed) then complete_task py_str (outcome j) <$> decisions !! j
  else decisions !! j.
Proof.
  revert decisions. induction completed as [|i completed IH]; intros decisions Hnd; cbn.
  - destruct (decide (j ∈ [])) as [H|_]; [by apply elem_of_nil in H | reflexivity].
  - apply NoDup_cons in Hnd as [Hi Hnd]. rewrite (IH _ Hnd), on_completed_lookup.
    destruct (decide (i = j)) as [->|Hne].
    + destruct (decide (j ∈ completed)); [contradiction |].
      destruct (decide (j ∈ j :: completed)) as [_|H]; [reflexivity |].
      exfalso. apply H. apply elem_of_cons. by left.
    + destruct (decide (j ∈ completed)) as [Hin|Hnin];
        destruct (decide (j ∈ i :: completed)) as [Hin'|Hnin']; try reflexivity.
      * exfalso. apply Hnin'. apply elem_of_cons. by right.
      * exfalso. apply elem_of_cons in Hin' as [->|?]; [by apply Hne | contradiction].
Qed.

Lemma batch_pointwise (outcome : nat -> TaskOutcome) (completed : list nat)
  (decisions : list CourtDecision) (j : nat) :
  completed ≡ₚ seq 0 (length decisions) ->
  fold_left (on_completed py_str outcome) completed decisions !! j =
  complete_task py_str (outcome j) <$> decisions !! j.
Proof.
  intros Hperm. rewrite fold_on_completed_lookup.
  - destruct (decide (j ∈ completed)) as [_|Hnin]; [reflexivity |].
    destruct (decisions !! j) as [d|] eqn:E; [| reflexivity].
    exfalso. apply Hnin. rewrite Hperm. apply elem_of_seq.
    apply lookup_lt_Some in E. lia.
  - rewrite Hperm. apply NoDup_seq.
Qed.

Lemma create_safe_filename_complete (o : TaskOutcome) (d : CourtDecision) :
  _create_safe_filename py_str
    (set_text_extraction_success true (set_extracted_text (future_text o) d)) =
  _create_safe_filename py_str d.
Proof. reflexivity. Qed.

Lemma complete_task_cases (o : TaskOutcome) (d : CourtDecision) (name : string) :
  _create_safe_filename py_str d = Ok name ->
  complete_task py_str o d =
  if task_failed o then set_text_extraction_success false d
  else
    let d1 := set_text_extraction_success true (set_extracted_text (future_text o) d) in
    if write_ok o then
      set_text_paths (Some ("extracted_text/" +:+ name +:+ ".txt"))
                     (Some ("../extracted_text/" +:+ name +:+ ".txt")) d1
    else set_text_paths None None d1.
Proof.
  intros Hname. unfold complete_task, task_failed, future_text.
  destruct (future o) as [t|]; [| reflexivity].
  destruct (optstr_truthy t) eqn:E; [| reflexivity]. cbn.
  unfold save_decision_with_text. cbn [extracted_text set_extracted_text
    set_text_extraction_success]. rewrite E.
  change (_create_safe_filename py_str _) with (_create_safe_filename py_str d).
  rewrite Hname. cbn. by destruct (write_ok o).
Qed.

Lemma complete_task_json_fields (o : TaskOutcome) (d : CourtDecision) :
  json_fields (complete_task py_str o d) = json_fields d.
Proof.
  unfold complete_task. destruct (future o) as [t|]; [| reflexivity].
  destruct (optstr_truthy t) eqn:E; [| reflexivity].
  unfold save_decision_with_text. cbn [extracted_text set_extracted_text
    set_text_extraction_success]. rewrite E.
  destruct (_create_safe_filename py_str _); cbn; [| reflexivity].
  by destruct (write_ok o).
Qed.

Lemma batch_returns (outcome : nat -> TaskOutcome) (completed : list nat)
  (decisions : list CourtDecision) (max_workers : Z) :
  Forall (fun d => exists name, _create_safe_filename py_str d = Ok name) decisions ->
  0 < max_workers ->
  _download_pdfs_batch py_str outcome completed decisions max_workers =
  Ok (fold_left (on_completed py_str outcome) completed decisions).
Proof.
  intros Hnames Hpos. unfold _download_pdfs_batch.
  apply mapM_may_raise_Ok in Hnames as [names ->]. cbn.
  replace (max_workers <=? 0) with false by lia. reflexivity.
Qed.

Lemma batch_inv (outcome : nat -> TaskOutcome) (completed : list nat)
  (decisions decisions' : list CourtDecision) (max_workers : Z) :
  _download_pdfs_batch py_str outcome completed decisions max_workers = Ok decisions' ->
  Forall (fun d => exists name, _create_safe_filename py_str d = Ok name) decisions /\
  decisions' = fold_left (on_completed py_str outcome) completed decisions.
Proof.
  unfold _download_pdfs_batch. intros H.
  destruct (mapM _ decisions) as [names|e] eqn:Hnames; cbn in H; [| discriminate].
  destruct (max_workers <=? 0); cbn in H; [discriminate |].
  split; [apply mapM_may_raise_Ok; by eexists | congruence].
Qed.

(** The loop over the completed futures.  A batch over records off the
    normalizer, with a positive pool, whatever the futures hold and in
    whatever order they complete, returns as many records as it was given;
    the record at each position is the input record of that position (same
    catalog fields), updated from what its own future holds and from nothing
    else: a future that raised or returned no text leaves it with
    [text_extraction_success] false and both text paths null, any other
    leaves it with the flag true. *)
Theorem batch_isolates_failures (outcome : nat -> TaskOutcome) (completed : list nat)
  (decisions : list CourtDecision) (max_workers : Z) :
  Forall fresh decisions ->
  Forall (fun d => exists name, _create_safe_filename py_str d = Ok name) decisions ->
  0 < max_workers ->
  completed ≡ₚ seq 0 (length decisions) ->
  exists decisions',
    _download_pdfs_batch py_str outcome completed decisions max_workers = Ok decisions' /\
    length decisions' = length decisions /\
    forall i d, decisions !! i = Some d ->
      exists d',
        decisions' !! i = Some d' /\
        d' = complete_task py_str (outcome i) d /\
        json_fields d' = json_fields d /\
        (task_failed (outcome i) = true ->
           text_extraction_success d' = false /\
           text_file_path d' = None /\ text_file_relative_path d' = None) /\
        (task_failed (outcome i) = false -> text_extraction_success d' = true).
Proof.
  intros Hfresh Hnames Hpos Hperm. eexists. split; [by apply batch_returns |].
  split; [apply fold_on_completed_length |].
  intros i d Hd. exists (complete_task py_str (outcome i) d).
  split; [by rewrite batch_pointwise, Hd |].
  split; [reflexivity |]. split; [apply complete_task_json_fields |].
  rewrite Forall_lookup in Hfresh, Hnames.
  destruct (Hnames i d Hd) as [name Hname].
  destruct (Hfresh i d Hd) as (Hp & Hr & _ & _).
  rewrite (complete_task_cases _ _ _ Hname).
  split; intros ->; cbn; [done |]. by destruct (write_ok (outcome i)).
Qed.

(** C2, amended. After the batch over records off the normalizer, for every
    record: [text_extraction_success] false implies both text paths null;
    [text_extraction_success] true implies both paths non-null when the
    write of the text file succeeded, and both null when that write failed
    (the flag stays true). *)
Theorem text_paths_after_batch (outcome : nat -> TaskOutcome) (completed : list nat)
  (decisions decisions' : list CourtDecision) (max_workers : Z) (i : nat)
  (d' : CourtDecision) :
  Forall fresh decisions ->
  completed ≡ₚ seq 0 (length decisions) ->
  _download_pdfs_batch py_str outcome completed decisions max_workers = Ok decisions' ->
  decisions' !! i = Some d' ->
  (text_extraction_success d' = false ->
     text_file_path d' = None /\ text_file_relative_path d' = None) /\
  (text_extraction_success d' = true -> write_ok (outcome i) = true ->
     is_Some (text_file_path d') /\ is_Some (text_file_relative_path d')) /\
  (text_extraction_success d' = true -> write_ok (outcome i) = false ->
     text_file_path d' = None /\ text_file_relative_path d' = None).
Proof.
  intros Hfresh Hperm Hbatch Hd'.
  apply batch_inv in Hbatch as [Hnames ->].
  rewrite batch_pointwise in Hd' by assumption.
  destruct (decisions !! i) as [d|] eqn:Hd; [| discriminate].
  cbn in Hd'. injection Hd' as <-.
  rewrite Forall_lookup in Hfresh, Hnames.
  destruct (Hnames i d Hd) as [name Hname].
  destruct (Hfresh i d Hd) as (Hp & Hr & Hs & _).
  rewrite (complete_task_cases _ _ _ Hname).
  destruct (task_failed (outcome i)); cbn.
  - rewrite Hp, Hr. repeat split; intros; congruence.
  - destruct (write_ok (outcome i)); cbn; repeat split; intros; try congruence; by eexists.
Qed.

End BatchProperties.

Example sample_decisions_normalized :
  omap (fun n => parse_decision_from_json str_of_scalar utc (sample_entry n) old)
       (seqZ 0 10) = ten_decisions.
Proof. vm_compute. reflexivity. Qed.

Lemma ten_decisions_fresh : Forall fresh ten_decisions.
Proof. apply Forall_fmap, Forall_forall. intros n _. by repeat split. Qed.

Lemma ten_decisions_named :
  Forall (fun d => exists name, _create_safe_filename str_of_scalar d = Ok name)
         ten_decisions.
Proof. apply Forall_fmap, Forall_forall. intros n _. cbn. by eexists. Qed.

Lemma ten_completed : rev (seq 0 10) ≡ₚ seq 0 (length ten_decisions).
Proof. symmetry. exact (Permutation_rev (seq 0 10)). Qed.

Lemma batch_isolates_failures_witness :
  exists decisions',
    _download_pdfs_batch str_of_scalar one_failing (rev (seq 0 10)) ten_decisions 4
      = Ok decisions' /\
    length decisions' = length ten_decisions /\
    forall i d, ten_decisions !! i = Some d ->
      exists d',
        decisions' !! i = Some d' /\
        d' = complete_task str_of_scalar (one_failing i) d /\
        json_fields d' = json_fields d /\
        (task_failed (one_failing i) = true ->
           text_extraction_success d' = false /\
           text_file_path d' = None /\ text_file_relative_path d' = None) /\
        (task_failed (one_failing i) = false -> text_extraction_success d' = true).
Proof.
  apply (batch_isolates_failures str_of_scalar one_failing (rev (seq 0 10))
           ten_decisions 4);
    [exact ten_decisions_fresh | exact ten_decisions_named | lia | exact ten_completed].
Defined.

(** One failing record among nine succeeding ones: exactly the record of
    index 3 is left unextracted, the nine others carry both paths. *)
Example one_failure_in_ten :
  _download_pdfs_batch str_of_scalar one_failing (rev (seq 0 10)) ten_decisions 4
    = Ok ten_processed /\
  text_extraction_success <$> ten_processed =
    [true; true; true; false; true; true; true; true; true; true] /\
  (fun d => bool_decide (is_Some (text_file_path d) /\ is_Some (text_file_relative_path d)))
    <$> ten_processed =
    [true; true; true; false; true; true; true; true; true; true] /\
  json_fields <$> ten_processed = json_fields <$> ten_decisions.
Proof. repeat split; vm_compute; reflexivity. Qed.

(** C2, as stated, fails: when extraction succeeds and the write of the text
    file fails, the record keeps [text_extraction_success] true with both
    paths null. *)
Lemma write_failure_keeps_success_flag :
  returns
    (_download_pdfs_batch str_of_scalar (fun _ => write_fails) [0%nat]
       [sample_decision 0] 4)
    (fun decisions' =>
       exists d', decisions' = [d'] /\
         text_extraction_success d' = true /\
         text_file_path d' = None /\ text_file_relative_path d' = None).
Proof. vm_compute. eexists. repeat split; reflexivity. Qed.

Lemma text_paths_after_batch_witness :
  let d' := complete_task str_of_scalar succeeds (sample_decision 0) in
  ten_processed !! 0%nat = Some d' /\
  (text_extraction_success d' = false ->
     text_file_path d' = None /\ text_file_relative_path d' = None) /\
  (text_extraction_success d' = true -> write_ok (one_failing 0) = true ->
     is_Some (text_file_path d') /\ is_Some (text_file_relative_path d')) /\
  (text_extraction_success d' = true -> write_ok (one_failing 0) = false ->
     text_file_path d' = None /\ text_file_relative_path d' = None).
Proof.
  intros d'. split; [vm_compute; reflexivity |].
  apply (text_paths_after_batch str_of_scalar one_failing (rev (seq 0 10))
           ten_decisions ten_processed 4 0 d');
    [exact ten_decisions_fresh | exact ten_completed
    | vm_compute; reflexivity | vm_compute; reflexivity].
Defined.

(** ** The record normalizer *)

Example utc_of_1700000000000 :
  iso8601_utc 1700000000000 = Some "2023-11-14T22:13:20"%string /\
  iso8601_utc 0 = Some "1970-01-01T00:00:00"%string /\
  iso8601_utc 951782400123 = Some "2000-02-29T00:00:00.123000"%string /\
  iso8601_utc (-1) = Some "1969-12-31T23:59:59.999000"%string.
Proof. repeat split; vm_compute; reflexivity. Qed.

Section NormalizerProperties.

Variable py_str : pyval -> string.
Variable utcoffset : Z -> Z.

Lemma append_nonempty (a b : string) (c : ascii) :
  String.eqb (a +:+ String c b) "" = false.
Proof. by destruct a. Qed.

Lemma isoformat_truthy (t : datetime) : truthy (PStr (isoformat t)) = true.
Proof.
  unfold isoformat, truthy.
  change ("-" +:+ ?x)%string with (String "-" x).
  by rewrite append_nonempty.
Qed.

Lemma old_entry_complete_inv (decision_data : pyval) :
  old_entry_complete decision_data = true ->
  exists kvs first rest file_data file_id name size id,
    decision_data = PDict kvs /\
    assoc kvs "attachmentsList" = Some (PList (first :: rest)) /\
    getitem first "fileData" = Some file_data /\
    getitem file_data "id" = Some file_id /\
    getitem file_data "name" = Some name /\
    getitem file_data "size" = Some size /\
    assoc kvs "id" = Some id.
Proof.
  unfold old_entry_complete. intros H.
  destruct decision_data as [| | | | | |kvs]; try discriminate. cbn in H.
  destruct (assoc kvs "attachmentsList") as [[| | | | |[|first rest]|]|] eqn:Ha;
    try discriminate. cbn in H.
  destruct (getitem first "fileData") as [file_data|] eqn:Hf; [| discriminate].
  repeat (apply andb_true_iff in H as [H ?]).
  repeat match goal with
         | H : bool_decide _ = true |- _ => apply bool_decide_eq_true in H as [? H]
         end.
  cbn in *. by repeat eexists.
Qed.

(** On a complete entry the normalizer returns a record whenever the date
    conversion does, and the record carries [hearing_date or ''] . *)
Lemma parse_old_hearing_date (decision_data v hd : pyval) :
  old_entry_complete decision_data = true ->
  get decision_data "hearingDate" = Some v ->
  convert_hearing_date utcoffset v = Some hd ->
  exists d,
    parse_decision_from_json py_str utcoffset decision_data old = Some d /\
    hearing_date d = py_or hd (PStr "").
Proof.
  intros Hc Hv Hhd.
  apply old_entry_complete_inv in Hc
    as (kvs & first & rest & file_data & file_id & name & size & id &
        -> & Ha & Hf & Hi & Hn & Hs & Hid).
  unfold parse_decision_from_json.
  unfold get, get_default in *. rewrite Ha. cbn.
  rewrite Hf. cbn. rewrite Hi. cbn.
  injection Hv as Hv. rewrite Hv, Hhd. cbn.
  rewrite Hid. cbn. rewrite Hn. cbn. rewrite Hs. cbn.
  eexists. split; reflexivity.
Qed.

End NormalizerProperties.


(** ** The page loop *)

Section OrchestratorProperties.

Variable py_str : pyval -> string.
Variable utcoffset : Z -> Z.

(** C6, amended. When the metadata artifact of a page exists and overwrite
    is not requested, the loop body skips the page: nothing is fetched,
    nothing is written, and no counter moves ([pages_processed] included). *)
Theorem existing_page_is_skipped (w : World) (a : Args) (period : Period)
  (first_page_data : PageData) (st : RunState) (page : Z) :
  overwrite_files a = false ->
  page_exists period page st = true ->
  process_page py_str utcoffset w a period first_page_data st page = Ok st.
Proof. intros Ho He. unfold process_page. by rewrite Ho, He. Qed.

Lemma fetch_logged_metadata_dir (a : Args) (period : Period) (page : Z)
  (st : RunState) :
  metadata_dir (fetch_logged a period page st) = metadata_dir st /\
  pages_processed (fetch_logged a period page st) = pages_processed st.
Proof. unfold fetch_logged. by destruct (_ && _). Qed.

Lemma page_exists_metadata_dir (period : Period) (page : Z) (st st' : RunState) :
  metadata_dir st' = metadata_dir st ->
  page_exists period page st' = page_exists period page st.
Proof. unfold page_exists. by intros ->. Qed.


(** The page artifact is written once, before the batch, from the records as
    the normalizer left them; nothing rewrites it after the batch. *)
Lemma store_page_saves_before_batch (w : World) (a : Args) (period : Period)
  (page : Z) (page_decisions : list CourtDecision) (st st' : RunState) :
  page_decisions <> [] ->
  store_page py_str w a period page page_decisions st = Ok st' ->
  metadata_dir st' =
    <[metadata_file (page_identifier period page) := to_dict <$> page_decisions]>
      (metadata_dir st) /\
  trace st' =
    trace st ++
    MetadataSaved (metadata_file (page_identifier period page))
                  (to_dict <$> page_decisions)
    :: (if download_pdfs a
        then [BatchRun period page (completed_order w period page)] else []).
Proof.
  intros Hne H. unfold store_page in H.
  destruct page_decisions as [|d ds]; [done |].
  destruct (download_pdfs a).
  - destruct (_download_pdfs_batch _ _ _ _ _) as [ds'|e]; cbn in H; [| discriminate].
    injection H as <-. cbn. split; [reflexivity |]. by rewrite <- app_assoc.
  - cbn in H. injection H as <-. cbn. by split.
Qed.

(** C9, amended. With [last] the end page clamped to the last page of the
    section (that is [min end_page (total_pages - 1)], or [total_pages - 1]
    when no end page is given), the loop visits the pages [start_page],
    ..., [last] in increasing order; the section is skipped exactly when
    [start_page > last].  With [start_page = end_page] below [total_pages]
    the loop visits that one page. *)
Theorem effective_page_range (w : World) (a : Args) (st : RunState)
  (period : Period) (first_page_data : PageData) :
  get_decisions_list w 0 period = Some first_page_data ->
  let total_pages :=
    limit_total_pages (default 0 (totalPages first_page_data)) (max_pages a) in
  let last :=
    match end_page a with
    | Some end_page => Z.min end_page (total_pages - 1)
    | None => total_pages - 1
    end in
  (start_page a <= last ->
     parse_section py_str utcoffset w a st period =
     process_pages py_str utcoffset w a period first_page_data
       (log (Fetched period 0) st)
       (seqZ (start_page a) (last - start_page a + 1))) /\
  (last < start_page a ->
     parse_section py_str utcoffset w a st period = Ok (log (Fetched period 0) st)).
Proof.
  intros Hfirst total_pages last. unfold parse_section. rewrite Hfirst.
  fold total_pages. unfold section_pages, py_range.
  assert (Hend : actual_end_page (end_page a) total_pages = last + 1).
  { unfold actual_end_page, last. destruct (end_page a); lia. }
  rewrite Hend.
  assert (Hle : last + 1 <= total_pages).
  { unfold last. destruct (end_page a); lia. }
  split; intros H.
  - replace ((start_page a >? 0) && (start_page a >=? total_pages)) with false
      by (symmetry; apply andb_false_iff; right; lia).
    replace (start_page a >=? last + 1) with false by lia.
    by replace (last + 1 - start_page a) with (last - start_page a + 1) by lia.
  - destruct ((start_page a >? 0) && (start_page a >=? total_pages)); [reflexivity |].
    by replace (start_page a >=? last + 1) with true by lia.
Qed.

End OrchestratorProperties.

(** C6, as stated, fails.  A first run over three pages counts three pages;
    a second run over the directory it left, without overwrite, skips all
    three, fetches only the listing that opens the section, and counts no
    page. *)
Lemma skipped_pages_are_not_counted :
  returns
    (parse_section str_of_scalar utc (sample_world 3 one_entry) default_args
       fresh_run old)
    (fun st1 =>
       pages_processed st1 = 3 /\
       returns
         (parse_section str_of_scalar utc (sample_world 3 one_entry) default_args
            (restart st1) old)
         (fun st2 => pages_processed st2 = 0 /\ trace st2 = [Fetched old 0])).
Proof. vm_compute. repeat split; reflexivity. Qed.

Lemma existing_page_is_skipped_witness :
  page_exists old 1 page_1_on_disk = true /\
  process_page str_of_scalar utc (sample_world 3 one_entry) default_args old
    (sample_listing 3 one_entry 0) page_1_on_disk 1 = Ok page_1_on_disk.
Proof.
  split; [vm_compute; reflexivity |].
  apply (existing_page_is_skipped str_of_scalar utc (sample_world 3 one_entry)
           default_args old (sample_listing 3 one_entry 0) page_1_on_disk 1);
    [reflexivity | vm_compute; reflexivity].
Defined.



(** C9, as stated, fails.  With [start_page = end_page = 2] in a section of
    five pages, the section is not skipped: page 2 is fetched, stored and
    counted. *)
Lemma equal_start_and_end_page_is_processed :
  section_pages 2 (Some 2) 5 = Some [2] /\
  returns
    (parse_section str_of_scalar utc (sample_world 5 one_entry) page_2_only
       fresh_run old)
    (fun st =>
       pages_processed st = 1 /\
       page_exists old 2 st = true /\
       trace st =
         [Fetched old 0; Fetched old 2;
          MetadataSaved "page_old_0002.json" [to_dict (sample_decision 2)];
          BatchRun old 2 [0%nat]]).
Proof. split; [reflexivity |]. vm_compute. repeat split; reflexivity. Qed.

Lemma effective_page_range_witness :
  parse_section str_of_scalar utc (sample_world 5 one_entry) page_2_only
    fresh_run old =
  process_pages str_of_scalar utc (sample_world 5 one_entry) page_2_only old
    (sample_listing 5 one_entry 0) (log (Fetched old 0) fresh_run) [2].
Proof.
  apply (proj1 (effective_page_range str_of_scalar utc (sample_world 5 one_entry)
                  page_2_only fresh_run old (sample_listing 5 one_entry 0) eq_refl)).
  vm_compute. discriminate.
Defined.

(** C3. On a one-page section whose single attachment is fetched, extracted
    and written, the record in memory ends with its text path and the
    success flag, while the artifact of the page, written once before the
    batch and never after it, holds null text paths and a false flag. *)
Theorem page_artifact_lacks_text_paths :
  returns
    (parse_section str_of_scalar utc (sample_world 1 one_entry) default_args
       fresh_run old)
    (fun st =>
       text_file_path <$> all_decisions st =
         [Some "extracted_text/4-1001-2301_15_0.txt"%string] /\
       text_extraction_success <$> all_decisions st = [true] /\
       metadata_dir st !! "page_old_0000.json"%string =
         Some [to_dict (sample_decision 0)] /\
       getitem (to_dict (sample_decision 0)) "text_file_path" = Some PNone /\
       getitem (to_dict (sample_decision 0)) "text_file_relative_path" = Some PNone /\
       getitem (to_dict (sample_decision 0)) "text_extraction_success"
         = Some (PBool false) /\
       trace st =
         [Fetched old 0;
          MetadataSaved "page_old_0000.json" [to_dict (sample_decision 0)];
          BatchRun old 0 [0%nat]]).
Proof. vm_compute. repeat split; reflexivity. Qed.

(** * Further properties *)

#[local] Arguments isspace : simpl never.

(** A 429 or a 502/503/504 tells the caller not to proceed, counts one more
    consecutive error, and never lowers the delay, which stays at or below
    [max_delay]. *)
Theorem error_response_backs_off (rl : RateLimitInfo) (response : Response) :
  status_code response = 429 \/ is_server_error (status_code response) = true ->
  (0 <= current_delay rl)%Q -> (current_delay rl <= max_delay)%Q ->
  fst (_check_rate_limits rl response) = false /\
  consecutive_errors (snd (_check_rate_limits rl response)) = consecutive_errors rl + 1 /\
  (current_delay rl <= current_delay (snd (_check_rate_limits rl response)))%Q /\
  (current_delay (snd (_check_rate_limits rl response)) <= max_delay)%Q.
Proof.
  intros Hst Hlo Hhi. unfold _check_rate_limits, max_delay in *.
  assert (Hesc : forall f, (f == 1.5)%Q ->
            (current_delay rl <= py_min (current_delay rl * f) 10.0)%Q /\
            (py_min (current_delay rl * f) 10.0 <= 10.0)%Q).
  { intros f Hf. split; [| apply py_min_le_r].
    apply py_min_ge; [| assumption]. rewrite Hf. lra. }
  destruct (status_code response =? 429) eqn:E.
  - destruct (hdr_Retry_After response) as [[| |n]|]; cbn;
      repeat split; try reflexivity; try lra;
      try (apply (Hesc backoff_factor); reflexivity).
  - destruct Hst as [Hst|Hst]; [lia |]. rewrite Hst. cbn.
    repeat split; try reflexivity; apply (Hesc 1.5%Q); reflexivity.
Qed.

Lemma py_max_floor_idem (x : Q) : py_max (py_max x 2.0) 2.0 = py_max x 2.0.
Proof.
  unfold py_max. destruct (Qlt_le_dec x 2.0) as [H|H].
  - by destruct (Qlt_le_dec 2.0 2.0).
  - destruct (Qlt_le_dec x 2.0); [lra | reflexivity].
Qed.

(** Observing the same 200 a second time changes nothing: the decay of the
    delay happens once, on the first success after an error, and not again
    on the successes that follow. *)
Theorem success_decays_once (rl : RateLimitInfo) (response : Response) :
  status_code response = 200 ->
  _check_rate_limits (snd (_check_rate_limits rl response)) response =
  _check_rate_limits rl response.
Proof.
  intros Hst. unfold _check_rate_limits. rewrite Hst. cbn [Z.eqb Pos.eqb is_server_error orb andb].
  destruct (consecutive_errors rl >? 0) eqn:E;
    destruct (remaining_header response) as [[| |n]|]; cbn; rewrite ?E; try reflexivity;
    destruct (n <? 10); cbn; rewrite ?E; try reflexivity;
    unfold set_current_delay; cbn; by rewrite py_max_floor_idem.
Qed.

Lemma rate_step_errors_nonneg (rl : RateLimitInfo) (ev : event) :
  0 <= consecutive_errors rl -> 0 <= consecutive_errors (rate_step rl ev).
Proof.
  intros H. destruct ev as [response| |delay now]; cbn.
  - unfold _check_rate_limits.
    destruct (status_code response =? 429).
    + destruct (hdr_Retry_After response) as [[| |n]|]; cbn; lia.
    + destruct (is_server_error _); cbn; [lia |].
      destruct (_ && _); destruct (remaining_header response) as [[| |n]|]; cbn;
        try lia; destruct (n <? 10); cbn; lia.
  - lia.
  - unfold _adaptive_delay.
    destruct (optint_truthy _); [| destruct (consecutive_errors rl >? 0)];
      match goal with |- context [time_sleep ?x] => destruct (time_sleep x) as [[]|] end;
      cbn; lia.
Qed.

(** From the initial state, [consecutive_errors] is never negative. *)
Theorem consecutive_errors_never_negative (evs : list event) (n : nat) :
  0 <= consecutive_errors (rate_run (firstn n evs) RateLimitInfo_default).
Proof.
  assert (G : forall evs rl, 0 <= consecutive_errors rl ->
                             0 <= consecutive_errors (rate_run evs rl)).
  { clear. induction evs as [|ev evs IH]; intros rl H; cbn; [assumption |].
    apply IH. by apply rate_step_errors_nonneg. }
  apply G. cbn. lia.
Qed.

Lemma py_min_mono (a b c : Q) : (a <= b)%Q -> (py_min a c <= py_min b c)%Q.
Proof.
  unfold py_min. intros H.
  destruct (Qlt_le_dec c a), (Qlt_le_dec c b); lra.
Qed.

Lemma escalates_step (rl : RateLimitInfo) (ev : event) :
  escalates ev = true ->
  current_delay (rate_step rl ev) = py_min (current_delay rl * 1.5)%Q max_delay.
Proof.
  destruct ev as [response| |delay now]; cbn; [| reflexivity | discriminate].
  unfold _check_rate_limits. intros H.
  destruct (status_code response =? 429) eqn:E.
  - destruct (is_server_error _) eqn:E5.
    { unfold is_server_error in E5. lia. }
    cbn in H. destruct (hdr_Retry_After response) as [[| |n]|]; try discriminate; reflexivity.
  - rewrite andb_false_l, orb_false_r in H. rewrite H. reflexivity.
Qed.

Lemma escalations_lower_bound (evs : list event) (rl : RateLimitInfo) (k : nat) :
  Forall (fun ev => escalates ev = true) evs ->
  (backoff_floor k <= current_delay rl)%Q ->
  (backoff_floor (length evs + k) <= current_delay (rate_run evs rl))%Q.
Proof.
  revert rl k. induction evs as [|ev evs IH]; intros rl k Hall Hlo; [assumption |].
  inversion Hall as [|? ? Hev Hevs]; subst.
  replace (length (ev :: evs) + k)%nat with (length evs + S k)%nat by (cbn; lia).
  apply (IH (rate_step rl ev) (S k) Hevs).
  cbn [backoff_floor]. rewrite (escalates_step _ _ Hev).
  apply py_min_mono. lra.
Qed.

Lemma backoff_floor_12 (n : nat) : (12 <= n)%nat -> (backoff_floor n == max_delay)%Q.
Proof.
  intros H. replace n with ((n - 12) + 12)%nat by lia.
  induction (n - 12)%nat as [|m IH].
  - vm_compute. reflexivity.
  - cbn [Nat.add backoff_floor]. unfold py_min, max_delay in *.
    destruct (Qlt_le_dec 10.0 (backoff_floor (m + 12) * 1.5)); [reflexivity | lra].
Qed.

(** From any state with the delay in bounds, twelve or more escalations in a
    row leave the delay at [max_delay]. *)
Theorem backoff_reaches_cap (evs : list event) (rl : RateLimitInfo) :
  delay_in_bounds rl ->
  Forall (fun ev => escalates ev = true) evs ->
  (12 <= length evs)%nat ->
  (current_delay (rate_run evs rl) == max_delay)%Q.
Proof.
  intros Hb Hall Hlen. apply Qle_antisym.
  - apply (rate_run_in_bounds evs rl Hb).
  - rewrite <- (backoff_floor_12 (length evs + 0)) by lia.
    apply escalations_lower_bound; [assumption |]. apply Hb.
Qed.

Lemma backoff_reaches_cap_witness :
  (current_delay (rate_run (repeat RequestFailed 12) RateLimitInfo_default) == max_delay)%Q.
Proof.
  apply (backoff_reaches_cap (repeat RequestFailed 12) RateLimitInfo_default).
  - exact default_in_bounds.
  - by repeat constructor.
  - cbn. lia.
Defined.



Section ClientProperties.

Context {B : Type}.

Lemma check_rate_limits_proceed (rl : RateLimitInfo) (response : Response) :
  fst (_check_rate_limits rl response) =
  negb ((status_code response =? 429) || is_server_error (status_code response)).
Proof.
  unfold _check_rate_limits. destruct (status_code response =? 429).
  - by destruct (hdr_Retry_After response) as [[| |n]|].
  - destruct (is_server_error _); [reflexivity |]. cbn.
    destruct (remaining_header response) as [[| |n]|]; try reflexivity.
    by destruct (n <? 10).
Qed.

Lemma client_delay_inv (delay now : Q) (c c1 : Client) :
  client_delay delay now c = Ok c1 ->
  exists d rl,
    _adaptive_delay delay now (rate_limit c) = Ok (d, rl) /\
    c1 = set_sleeps (sleeps c ++ [d]) (set_rate_limit rl c).
Proof.
  unfold client_delay. destruct (_adaptive_delay _ _ _) as [[d rl]|e]; cbn; [| discriminate].
  intros H. injection H as <-. by exists d, rl.
Qed.

Lemma client_delay_in_bounds (delay now : Q) (c c1 : Client) :
  client_delay delay now c = Ok c1 ->
  errors c1 = errors c /\ length (sleeps c1) = S (length (sleeps c)) /\
  (delay_in_bounds (rate_limit c) -> delay_in_bounds (rate_limit c1)).
Proof.
  intros H. apply client_delay_inv in H as (d & rl & Hd & ->). cbn.
  split; [reflexivity |]. split; [rewrite length_app; cbn; lia |].
  unfold delay_in_bounds. by rewrite (adaptive_delay_current_delay _ _ _ _ _ Hd).
Qed.

(** A call returns the response of one of its two requests only if that
    response passed [raise_for_status]; [stats['errors']] grows by one
    exactly when the call returns [None]; the delay stays in bounds. *)
Theorem request_accounting (delay now1 now2 : Q) (first second : attempt B)
  (c c' : Client) (r : option (Response * B)) :
  request_with_retry delay now1 now2 first second c = Ok (r, c') ->
  match r with
  | Some (response, body) =>
      raise_for_status response = false /\
      (first = Answered response body \/
       backs_off first = true /\ second = Answered response body) /\
      errors c' = errors c
  | None => errors c' = errors c + 1
  end /\
  (delay_in_bounds (rate_limit c) -> delay_in_bounds (rate_limit c')).
Proof.
  unfold request_with_retry. intros H.
  destruct (client_delay delay now1 c) as [c1|e] eqn:H1; cbn in H; [| discriminate].
  apply client_delay_in_bounds in H1 as (He1 & _ & Hb1).
  destruct first as [response body|]; cbn in H.
  2: { injection H as <- <-. cbn. split; [lia |]. intros Hb.
       by apply on_request_exception_in_bounds, Hb1. }
  pose proof (check_rate_limits_proceed (rate_limit c1) response) as Hp.
  pose proof (check_rate_limits_in_bounds (rate_limit c1) response) as Hc.
  destruct (_check_rate_limits (rate_limit c1) response) as [proceed rl]; cbn in Hp, Hc.
  destruct proceed.
  - destruct (raise_for_status response) eqn:Hs; injection H as <- <-; cbn.
    + split; [lia |]. intros Hb. by apply on_request_exception_in_bounds, Hc, Hb1.
    + split; [split; [assumption | split; [by left | lia]] |]. intros Hb. by apply Hc, Hb1.
  - destruct (client_delay delay now2 _) as [c2|e] eqn:H2; cbn in H; [| discriminate].
    apply client_delay_in_bounds in H2 as (He2 & _ & Hb2). cbn in He2, Hb2.
    destruct second as [response2 body2|]; cbn in H.
    2: { injection H as <- <-. cbn. split; [lia |]. intros Hb.
         by apply on_request_exception_in_bounds, Hb2, Hc, Hb1. }
    destruct (raise_for_status response2) eqn:Hs; injection H as <- <-; cbn.
    + split; [lia |]. intros Hb. by apply on_request_exception_in_bounds, Hb2, Hc, Hb1.
    + split.
      * split; [assumption |]. split; [| lia]. right. split; [| reflexivity].
        by apply negb_false_iff.
      * intros Hb. by apply Hb2, Hc, Hb1.
Qed.

(** The second request is made only after a 429 or a 502/503/504: otherwise
    its outcome is never looked at and the call sleeps once. *)
Theorem no_retry_without_backoff_status (delay now1 now2 : Q)
  (first second second' : attempt B) (c : Client) :
  backs_off first = false ->
  request_with_retry delay now1 now2 first second c =
  request_with_retry delay now1 now2 first second' c /\
  forall r c', request_with_retry delay now1 now2 first second c = Ok (r, c') ->
               length (sleeps c') = S (length (sleeps c)).
Proof.
  intros Hb. unfold request_with_retry.
  destruct (client_delay delay now1 c) as [c1|e] eqn:H1; cbn; [| by split].
  apply client_delay_in_bounds in H1 as (_ & Hl & _).
  destruct first as [response body|]; cbn in *.
  2: { split; [reflexivity |]. intros r c' H. injection H as <- <-. exact Hl. }
  pose proof (check_rate_limits_proceed (rate_limit c1) response) as Hp.
  rewrite Hb in Hp.
  destruct (_check_rate_limits (rate_limit c1) response) as [proceed rl]; cbn in Hp.
  subst proceed. split; [reflexivity |].
  intros r c' H. destruct (raise_for_status response); injection H as <- <-; exact Hl.
Qed.

Lemma check_rate_limits_stores_retry_after (rl : RateLimitInfo) (response : Response)
  (n : Z) :
  status_code response = 429 ->
  hdr_Retry_After response = Some (HInt n) ->
  exists rl1, _check_rate_limits rl response = (false, rl1) /\ retry_after rl1 = Some n.
Proof.
  intros Hs Hra. unfold _check_rate_limits. rewrite Hs, Hra. cbn. by eexists.
Qed.

(** After a 429 with a positive [Retry-After: n], [n] at most
    [sleep_horizon], the call waits [n + 0.5] before its second request, and
    returns with the stored value consumed and [is_limited] cleared,
    whatever the second request gives. *)
Theorem retry_waits_retry_after (delay now1 now2 : Q) (response : Response) (body : B)
  (second : attempt B) (c c1 : Client) (n : Z) :
  client_delay delay now1 c = Ok c1 ->
  status_code response = 429 ->
  hdr_Retry_After response = Some (HInt n) ->
  0 < n <= sleep_horizon ->
  exists r c',
    request_with_retry delay now1 now2 (Answered response body) second c = Ok (r, c') /\
    sleeps c' = sleeps c1 ++ [(inject_Z n + 0.5)%Q] /\
    retry_after (rate_limit c') = None /\
    is_limited (rate_limit c') = false.
Proof.
  intros H1 Hs Hra Hn. unfold request_with_retry. rewrite H1. cbn.
  destruct (check_rate_limits_stores_retry_after (rate_limit c1) response n Hs Hra)
    as (rl1 & -> & Hrl1).
  destruct (adaptive_delay_consumes_retry_after delay now2 rl1 n Hrl1 Hn)
    as (rl' & Hd & Hr & Hl).
  unfold client_delay. cbn. rewrite Hd. cbn.
  destruct second as [response2 body2|]; [destruct (raise_for_status response2) |];
    do 2 eexists; (split; [reflexivity |]); cbn; rewrite ?Hr, ?Hl; by repeat split.
Qed.

(** A 429 with a negative [Retry-After: n] makes the call raise instead of
    returning, since the handler catches [RequestException] only:
    [time.sleep] raises [ValueError] for [n] down to -9223372037, and
    [OverflowError] for [n] below, whose nanoseconds do not fit 64 bits. *)
Theorem negative_retry_after_escapes (delay now1 now2 : Q) (response : Response)
  (body : B) (second : attempt B) (c c1 : Client) (n : Z) :
  client_delay delay now1 c = Ok c1 ->
  status_code response = 429 ->
  hdr_Retry_After response = Some (HInt n) ->
  n < 0 ->
  request_with_retry delay now1 now2 (Answered response body) second c =
  Raise (if -9223372037 <=? n then ValueError else OverflowError).
Proof.
  intros H1 Hs Hra Hn. unfold request_with_retry. rewrite H1.
  cbn [mbind may_raise_bind].
  destruct (check_rate_limits_stores_retry_after (rate_limit c1) response n Hs Hra)
    as (rl1 & -> & Hrl1).
  unfold client_delay, _adaptive_delay. cbn [rate_limit set_rate_limit].
  rewrite Hrl1. cbn [optint_truthy default id].
  replace (n =? 0) with false by lia. cbn [negb].
  destruct (-9223372037 <=? n) eqn:En.
  - destruct (inject_Z_between n (-9223372037) (-1) ltac:(lia)) as [Hlo Hhi].
    change (inject_Z (-9223372037)) with (-9223372037)%Q in Hlo.
    change (inject_Z (-1)) with (-1)%Q in Hhi.
    rewrite time_sleep_negative by lra. reflexivity.
  - destruct (inject_Z_between n n (-9223372038) ltac:(lia)) as [_ Hhi].
    change (inject_Z (-9223372038)) with (-9223372038)%Q in Hhi.
    rewrite time_sleep_overflows by (right; lra). reflexivity.
Qed.

(** A 429 with a [Retry-After: n] of 9223372037 or more makes the call
    raise [OverflowError] instead of returning: the nanoseconds of
    [n + 0.5] seconds do not fit 64 bits, and the handler catches
    [RequestException] only. *)
Theorem huge_retry_after_escapes (delay now1 now2 : Q) (response : Response)
  (body : B) (second : attempt B) (c c1 : Client) (n : Z) :
  client_delay delay now1 c = Ok c1 ->
  status_code response = 429 ->
  hdr_Retry_After response = Some (HInt n) ->
  9223372037 <= n ->
  request_with_retry delay now1 now2 (Answered response body) second c =
  Raise OverflowError.
Proof.
  intros H1 Hs Hra Hn. unfold request_with_retry. rewrite H1.
  cbn [mbind may_raise_bind].
  destruct (check_rate_limits_stores_retry_after (rate_limit c1) response n Hs Hra)
    as (rl1 & -> & Hrl1).
  unfold client_delay, _adaptive_delay. cbn [rate_limit set_rate_limit].
  rewrite Hrl1. cbn [optint_truthy default id].
  replace (n =? 0) with false by lia. cbn [negb].
  destruct (inject_Z_between n 9223372037 n ltac:(lia)) as [Hlo _].
  change (inject_Z 9223372037) with 9223372037%Q in Hlo.
  rewrite time_sleep_overflows by (left; lra). reflexivity.
Qed.

End ClientProperties.

Lemma lstrip_length (s : string) : (String.length (lstrip s) <= String.length s)%nat.
Proof. induction s as [|c s IH]; cbn; [lia |]. destruct (isspace c); cbn; lia. Qed.

Lemma rstrip_length (s : string) : (String.length (rstrip s) <= String.length s)%nat.
Proof.
  induction s as [|c s IH]; cbn; [lia |].
  destruct (rstrip s); [destruct (isspace c) |]; cbn in *; lia.
Qed.

Lemma str_strip_length (s : string) : (String.length (str_strip s) <= String.length s)%nat.
Proof.
  unfold str_strip. pose proof (rstrip_length (lstrip s)). pose proof (lstrip_length s). lia.
Qed.

Lemma rstrip_ends_with_text (s : string) : ends_with_text s = true -> rstrip s = s.
Proof.
  induction s as [|c s IH]; cbn; [discriminate |].
  destruct s as [|c' s'].
  - cbn. intros H. by destruct (isspace c).
  - intros H. rewrite (IH H). reflexivity.
Qed.

Lemma str_strip_clean (s : string) :
  starts_with_text s = true -> ends_with_text s = true -> str_strip s = s.
Proof.
  intros Hs He. unfold str_strip. destruct s as [|c s]; [discriminate |].
  cbn in Hs. cbn [lstrip]. apply negb_true_iff in Hs. rewrite Hs.
  by apply rstrip_ends_with_text.
Qed.

Lemma ends_with_text_cons (c : ascii) (s : string) :
  s <> "" -> ends_with_text (String c s) = ends_with_text s.
Proof. by destruct s. Qed.

Lemma starts_with_text_app (a b : string) :
  starts_with_text a = true -> starts_with_text (a +:+ b) = true.
Proof. by destruct a. Qed.

Lemma ends_with_text_app (a b : string) :
  ends_with_text b = true -> ends_with_text (a +:+ b) = true.
Proof.
  intros H. induction a as [|c a IH]; [assumption |].
  change (String c a +:+ b) with (String c (a +:+ b)).
  rewrite ends_with_text_cons; [assumption |].
  intros E. by rewrite E in IH.
Qed.

Lemma ends_with_text_snoc (a : string) (c : ascii) :
  isspace c = false -> ends_with_text (a +:+ String c "") = true.
Proof. intros H. apply ends_with_text_app. cbn. by rewrite H. Qed.

(** Every word of [split()] starts and ends with a non-whitespace
    character. *)
Lemma split_from_words (s word : string) :
  (word = "" \/ word_ok word) ->
  Forall word_ok (split_from word s).
Proof.
  revert word. induction s as [|c s IH]; intros word Hw; cbn.
  - destruct Hw as [->|Hw]; cbn; [constructor |].
    destruct (String.eqb word "") eqn:E; cbn;
      [constructor | constructor; [exact Hw | constructor]].
  - destruct (isspace c) eqn:Hc.
    + destruct (String.eqb word "") eqn:E; [apply IH; by left |].
      destruct Hw as [->|Hw]; [discriminate |].
      constructor; [assumption | apply IH; by left].
    + apply IH. right. split.
      * destruct Hw as [->|[Hw _]]; [| by apply starts_with_text_app].
        change (negb (isspace c) = true). by rewrite Hc.
      * by apply ends_with_text_snoc.
Qed.

Lemma str_join_words (sep : string) (l : list string) :
  l <> [] -> Forall word_ok l -> word_ok (str_join sep l).
Proof.
  induction l as [|x l IH]; [done |]. intros _ Hall.
  inversion Hall as [|? ? Hx Hl]; subst.
  destruct l as [|y l]; [exact Hx |].
  change (str_join sep (x :: y :: l)) with (x +:+ sep +:+ str_join sep (y :: l)).
  destruct (IH ltac:(done) Hl) as [_ He]. destruct Hx as [Hs _].
  split; [by apply starts_with_text_app | by do 2 apply ends_with_text_app].
Qed.

Lemma split_from_nonempty (s word : string) :
  lstrip s <> "" -> split_from word s <> [].
Proof.
  revert word. induction s as [|c s IH]; intros word H; cbn in *; [done |].
  destruct (isspace c) eqn:Hc.
  - destruct (String.eqb word ""); [by apply IH | done].
  - clear IH H. generalize (word +:+ String c "") (append_nonempty word "" c).
    clear. induction s as [|c s IH]; intros w Hw; cbn.
    + by rewrite Hw.
    + destruct (isspace c); [by rewrite Hw |]. apply IH. apply append_nonempty.
Qed.

Lemma clean_pages_words (pages : list string) : Forall word_ok (clean_pages pages).
Proof.
  unfold clean_pages. induction pages as [|p pages IH]; cbn; [constructor |].
  destruct (String.eqb (str_strip p) "") eqn:E; cbn; [assumption |].
  constructor; [| assumption].
  apply str_join_words.
  - apply split_from_nonempty. intros H. apply String.eqb_neq in E. apply E.
    unfold str_strip. by rewrite H.
  - apply split_from_words. by left.
Qed.

Lemma extract_text_some (pdf : option (list string)) (c c' : Client)
  (text : string) :
  extract_text_from_pdf pdf c = (Some text, c') ->
  (50 <= String.length text)%nat /\
  str_strip text = text /\
  texts_extracted c' = texts_extracted c + 1 /\
  text_extraction_errors c' = text_extraction_errors c.
Proof.
  unfold extract_text_from_pdf. destruct pdf as [pages|]; [| discriminate].
  set (full := str_join _ _).
  destruct (String.length (str_strip full) <? 50)%nat eqn:E; [discriminate |].
  intros H. injection H as <- <-. apply Nat.ltb_ge in E.
  assert (Hclean : str_strip full = full).
  { destruct (clean_pages pages) as [|p ps] eqn:Hp.
    - subst full. cbn in E. lia.
    - destruct (str_join_words (String LF (String LF "")) (p :: ps)) as [Hs He].
      + done.
      + rewrite <- Hp. apply clean_pages_words.
      + by apply str_strip_clean. }
  rewrite Hclean in E. by repeat split.
Qed.

(** A returned text has at least 50 characters and neither starts nor ends
    with whitespace, so the threshold bears on the text as returned; it is
    counted in [texts_extracted] and not in [text_extraction_errors]. *)
Theorem extracted_text_is_clean (pdf : option (list string)) (c c' : Client)
  (text : string) :
  extract_text_from_pdf pdf c = (Some text, c') ->
  (50 <= String.length text)%nat /\
  str_strip text = text /\
  texts_extracted c' = texts_extracted c + 1 /\
  text_extraction_errors c' = text_extraction_errors c.
Proof. apply extract_text_some. Qed.

(** A document without text (no page, or whitespace only) yields nothing
    and is not counted as an extraction error. *)
Theorem blank_document_yields_nothing (pages : list string) (c : Client) :
  Forall (fun text => str_strip text = "") pages ->
  extract_text_from_pdf (Some pages) c = (None, c).
Proof.
  intros H. unfold extract_text_from_pdf.
  assert (clean_pages pages = []) as ->; [| reflexivity].
  unfold clean_pages. induction H as [|p ps Hp _ IH]; cbn; [reflexivity |].
  by rewrite Hp, IH.
Qed.

Lemma extract_text_pdfs_downloaded (pdf : option (list string)) (c : Client) :
  pdfs_downloaded (snd (extract_text_from_pdf pdf c)) = pdfs_downloaded c.
Proof.
  unfold extract_text_from_pdf. destruct pdf as [pages|]; [| reflexivity].
  by destruct (_ <? _)%nat.
Qed.

Lemma request_with_retry_counters {B} (delay now1 now2 : Q) (first second : attempt B)
  (c c' : Client) (r : option (Response * B)) :
  request_with_retry delay now1 now2 first second c = Ok (r, c') ->
  pdfs_downloaded c' = pdfs_downloaded c /\
  texts_extracted c' = texts_extracted c /\
  text_extraction_errors c' = text_extraction_errors c.
Proof.
  unfold request_with_retry, client_delay. intros H.
  destruct (_adaptive_delay delay now1 _) as [[d1 rl1]|e]; cbn in H; [| discriminate].
  destruct first as [response body|]; cbn in H; [| by injection H as <- <-].
  destruct (_check_rate_limits rl1 response) as [[] rl].
  - destruct (raise_for_status response); by injection H as <- <-.
  - cbn in H.
    destruct (_adaptive_delay delay now2 _) as [[d2 rl2]|e]; cbn in H; [| discriminate].
    destruct second as [response2 body2|]; cbn in H; [| by injection H as <- <-].
    destruct (raise_for_status response2); by injection H as <- <-.
Qed.

(** [download_pdf_and_extract_text] returns either nothing or a text of at
    least 50 characters; [pdfs_downloaded] and [texts_extracted] each grow by
    one exactly when a text is returned. *)
Theorem download_returns_text_or_nothing (delay now1 now2 : Q)
  (first second : attempt (option (list string))) (c c' : Client)
  (t : option string) :
  download_pdf_and_extract_text delay now1 now2 first second c = Ok (t, c') ->
  match t with
  | Some text =>
      (50 <= String.length text)%nat /\
      pdfs_downloaded c' = pdfs_downloaded c + 1 /\
      texts_extracted c' = texts_extracted c + 1
  | None =>
      pdfs_downloaded c' = pdfs_downloaded c /\
      texts_extracted c' = texts_extracted c
  end.
Proof.
  unfold download_pdf_and_extract_text. intros H.
  destruct (request_with_retry _ _ _ _ _ _) as [[r c1]|e] eqn:Hr; cbn in H; [| discriminate].
  apply request_with_retry_counters in Hr as (Hp & Ht & _).
  destruct r as [[response content]|]; [| by injection H as <- <-].
  pose proof (extract_text_pdfs_downloaded content c1) as Hp2.
  destruct (extract_text_from_pdf content c1) as [extracted c2] eqn:He. cbn in Hp2.
  destruct extracted as [text|].
  - apply extract_text_some in He as (Hlen & _ & Ht2 & _).
    destruct text as [|ch text]; [cbn in Hlen; lia |].
    cbn in H. injection H as <- <-. cbn. repeat split; [assumption | lia..].
  - cbn in H. injection H as <- <-.
    unfold extract_text_from_pdf in He. destruct content as [pages|].
    + destruct (_ <? _)%nat; [| discriminate]. by injection He as <-.
    + by injection He as <-.
Qed.

Section NormalizerExtras.

Variable py_str : pyval -> string.
Variable utcoffset : Z -> Z.

Ltac unbind H :=
  repeat first
    [ apply bind_Some in H as (? & ? & H)
    | match type of H with
      | (if ?b then _ else _) = Some _ => destruct b eqn:?; [discriminate H |]
      end ].

(** Every record off the normalizer has its crawl-derived fields at their
    defaults: no text paths, no text, the success flag false. *)
Theorem normalizer_output_is_fresh (decision_data : pyval) (period : Period)
  (d : CourtDecision) :
  parse_decision_from_json py_str utcoffset decision_data period = Some d -> fresh d.
Proof.
  unfold parse_decision_from_json. intros H.
  destruct period; unbind H; injection H as <-; by repeat split.
Qed.

(** A new-schema entry is kept exactly when it carries the required keys
    (with [court_names] and [pdf] as dicts); the record then holds the values of
    the entry verbatim. *)
Theorem new_entry_kept_iff_complete (decision_data : pyval) :
  (is_Some (parse_decision_from_json py_str utcoffset decision_data new) <->
   new_entry_complete decision_data = true) /\
  (forall d,
     parse_decision_from_json py_str utcoffset decision_data new = Some d ->
     getitem decision_data "id" = Some (decision_id d) /\
     getitem decision_data "case_number" = Some (case_number d) /\
     getitem decision_data "hearing_date" = Some (hearing_date d) /\
     getitem decision_data "result" = Some (result d) /\
     getitem decision_data "instance" = Some (instance d) /\
     (getitem decision_data "pdf" ≫= fun pdf => getitem pdf "id") = Some (pdf_id d)).
Proof.
  split.
  - unfold new_entry_complete, parse_decision_from_json. split.
    + intros [d H]. unbind H.
      repeat match goal with H : _ = Some _ |- _ => rewrite H; clear H end.
      repeat match goal with
             | H : get_default ?v _ _ = Some _ |- _ =>
                 is_var v; destruct v; try discriminate H; clear H
             end.
      reflexivity.
    + intros H.
      destruct (getitem decision_data "pdf") as [pdf|]; [| discriminate].
      destruct (getitem decision_data "court_names") as [[| | | | | |kvs]|]; try discriminate.
      repeat (apply andb_true_iff in H as [H ?]).
      repeat match goal with
             | H : bool_decide _ = true |- _ => apply bool_decide_eq_true in H as [? H]
             end.
      destruct decision_data as [| | | | | |entry]; try discriminate.
      cbn in *.
      repeat match goal with H : _ = Some _ |- _ => rewrite H; clear H end.
      cbn. by eexists.
  - unfold parse_decision_from_json. intros d H. unbind H. injection H as <-. cbn.
    repeat match goal with H : _ = Some _ |- _ => rewrite H end. by repeat split.
Qed.

(** An old-schema entry is kept only if it carries a non-empty attachment
    list with [fileData] ([id], [name], [size]) and an [id]; the record then
    has instance ["FIRST"], no speaker judge, the same court name in both
    locales, and strings for [id] and [pdf_id]. *)
Theorem old_entry_kept_only_if_complete (decision_data : pyval) (d : CourtDecision) :
  parse_decision_from_json py_str utcoffset decision_data old = Some d ->
  old_entry_complete decision_data = true /\
  instance d = PStr "FIRST" /\
  speaker_judge d = PNone /\
  court_name_ru d = court_name_uz d /\
  (exists id, getitem decision_data "id" = Some id /\ decision_id d = PStr (py_str id)) /\
  (exists s, pdf_id d = PStr s).
Proof.
  unfold parse_decision_from_json. intros H. unbind H. injection H as <-. cbn.
  split.
  - unfold old_entry_complete.
    match goal with H : get _ "attachmentsList" = Some ?v |- _ =>
      rewrite H; destruct v as [| | | |s|[|first rest]|]; simplify_eq/= end.
    + destruct s; simplify_eq/=.
    + repeat match goal with H : _ = Some _ |- _ => rewrite H; clear H end.
      reflexivity.
  - repeat split; eauto.
Qed.

(** The URL that the batch requests for a record is the [pdf_url] stored in
    the record. *)
Theorem download_url_is_pdf_url (decision_data : pyval) (period : Period)
  (d : CourtDecision) :
  (forall s, py_str (PStr s) = s) ->
  parse_decision_from_json py_str utcoffset decision_data period = Some d ->
  download_url py_str period (pdf_id d) = pdf_url d.
Proof.
  intros Hstr. unfold parse_decision_from_json. intros H.
  destruct period; unbind H; injection H as <-; cbn; [reflexivity |].
  by rewrite Hstr.
Qed.

(** An old-schema record whose [caseNumber] is a string, or is missing or
    falsy, always gets a file name. *)
Theorem old_record_has_filename (decision_data v : pyval) (d : CourtDecision) :
  parse_decision_from_json py_str utcoffset decision_data old = Some d ->
  get decision_data "caseNumber" = Some v ->
  truthy v = false \/ (exists s, v = PStr s) ->
  exists name, _create_safe_filename py_str d = Ok name.
Proof.
  unfold parse_decision_from_json. intros H Hv Hs. unbind H. injection H as <-.
  unfold _create_safe_filename. cbn.
  match goal with H : get _ "caseNumber" = Some ?x |- _ =>
    rewrite Hv in H; injection H as <- end.
  unfold py_or. destruct Hs as [Hf|[s ->]].
  - rewrite Hf. cbn. by eexists.
  - destruct (truthy (PStr s)); cbn; by eexists.
Qed.

End NormalizerExtras.

Section FilenameExtras.

Variable py_str : pyval -> string.

Lemma contains_char_app (c : ascii) (a b : string) :
  contains_char c (a +:+ b) = contains_char c a || contains_char c b.
Proof.
  induction a as [|x a IH]; [reflexivity |].
  change (String x a +:+ b) with (String x (a +:+ b)). cbn. rewrite IH.
  by rewrite orb_assoc.
Qed.

Lemma replace_char_removes (c : ascii) (s : string) :
  c <> "_"%char -> contains_char c (replace_char c s) = false.
Proof.
  intros Hc. unfold replace_char. induction s as [|x s IH]; cbn; [reflexivity |].
  rewrite IH, orb_false_r. destruct (Ascii.eqb x c) eqn:E.
  - by apply Ascii.eqb_neq.
  - exact E.
Qed.

Lemma replace_char_other (c c' : ascii) (s : string) :
  c <> c' -> c <> "_"%char ->
  contains_char c (replace_char c' s) = contains_char c s.
Proof.
  intros Hne Hc. unfold replace_char. induction s as [|x s IH]; cbn; [reflexivity |].
  rewrite IH. f_equal. destruct (Ascii.eqb x c') eqn:E; [| reflexivity].
  apply Ascii.eqb_eq in E as ->.
  transitivity false; [by apply Ascii.eqb_neq | symmetry; by apply Ascii.eqb_neq].
Qed.

Lemma replace_all_removes (l : list ascii) (c : ascii) (s : string) :
  c <> "_"%char ->
  contains_char c (fold_left (fun s c => replace_char c s) l s) =
  if bool_decide (c ∈ l) then false else contains_char c s.
Proof.
  intros Hc. revert s. induction l as [|x l IH]; intros s; cbn; [reflexivity |].
  rewrite IH. destruct (decide (c = x)) as [->|Hne].
  - rewrite replace_char_removes by assumption.
    rewrite (bool_decide_eq_true_2 (x ∈ x :: l)) by (apply elem_of_cons; by left).
    by destruct (bool_decide _).
  - rewrite replace_char_other by assumption.
    destruct (bool_decide (c ∈ l)) eqn:E.
    + apply bool_decide_eq_true in E.
      by rewrite bool_decide_eq_true_2 by (apply elem_of_cons; by right).
    + apply bool_decide_eq_false in E.
      rewrite bool_decide_eq_false_2; [reflexivity |].
      intros [?|?]%elem_of_cons; contradiction.
Qed.

(** None of the seven characters that the loop of [_create_safe_filename]
    replaces occurs in a file name. *)
Theorem safe_filename_has_no_forbidden_char (d : CourtDecision) (name : string)
  (c : ascii) :
  _create_safe_filename py_str d = Ok name ->
  c ∈ forbidden_chars ->
  contains_char c name = false.
Proof.
  unfold _create_safe_filename. intros H Hc.
  destruct (case_number d) as [| | | |cn| |]; try discriminate.
  destruct (match decision_id d with PStr s => _ | PList l => _ | _ => _ end)
    as [id_prefix|e]; unfold mbind, may_raise_bind in H; [| discriminate].
  injection H as <-.
  change (contains_char c
            (fold_left (fun s c => replace_char c s) forbidden_chars
               (replace_char "\" (replace_char "/" cn) +:+ "_" +:+ id_prefix)) = false).
  rewrite replace_all_removes.
  - by rewrite bool_decide_eq_true_2.
  - intros ->. revert Hc.
    by apply (bool_decide_eq_false_1 ("_"%char ∈ forbidden_chars)).
Qed.

Lemma replace_char_length (c : ascii) (s : string) :
  String.length (replace_char c s) = String.length s.
Proof. unfold replace_char. induction s as [|x s IH]; cbn; congruence. Qed.

Lemma replace_all_length (l : list ascii) (s : string) :
  String.length (fold_left (fun s c => replace_char c s) l s) = String.length s.
Proof.
  revert s. induction l as [|x l IH]; intros s; cbn; [reflexivity |].
  by rewrite IH, replace_char_length.
Qed.

Lemma string_app_length (a b : string) :
  String.length (a +:+ b) = (String.length a + String.length b)%nat.
Proof.
  induction a as [|x a IH]; [reflexivity |].
  change (String x a +:+ b) with (String x (a +:+ b)). cbn. by rewrite IH.
Qed.

(** With a string case number and a string id, the file name is as long as
    the case number, one underscore and the first eight characters of the
    id; a path separator occurs in it exactly when it occurs in those eight
    characters: the separators of the case number are replaced, those of the
    id are not. *)
Theorem safe_filename_separators (d : CourtDecision) (cn id : string) (c : ascii) :
  case_number d = PStr cn ->
  decision_id d = PStr id ->
  c = "/"%char \/ c = "\"%char ->
  exists name,
    _create_safe_filename py_str d = Ok name /\
    contains_char c name = contains_char c (str_prefix 8 id) /\
    String.length name =
      (String.length cn + 1 + String.length (str_prefix 8 id))%nat.
Proof.
  intros Hcn Hid Hc. unfold _create_safe_filename. rewrite Hcn, Hid.
  eexists. split; [reflexivity |]. split.
  - rewrite replace_all_removes by (destruct Hc as [-> | ->]; discriminate).
    assert (Hnot : c ∉ forbidden_chars).
    { destruct Hc as [-> | ->];
        [by apply (bool_decide_eq_false_1 ("/"%char ∈ forbidden_chars))
        |by apply (bool_decide_eq_false_1 ("\"%char ∈ forbidden_chars))]. }
    rewrite (bool_decide_eq_false_2 _ Hnot).
    rewrite 2!contains_char_app.
    assert (contains_char c (replace_char "\" (replace_char "/" cn)) = false) as ->.
    { destruct Hc as [-> | ->].
      - rewrite replace_char_other by discriminate.
        by apply replace_char_removes.
      - by apply replace_char_removes. }
    destruct Hc as [-> | ->]; reflexivity.
  - rewrite replace_all_length, 2!string_app_length, 2!replace_char_length. cbn. lia.
Qed.

End FilenameExtras.

Section BatchExtras.

Variable py_str : pyval -> string.

(** The order in which the tasks complete does not change what the batch
    returns. *)
Theorem completion_order_is_irrelevant (outcome : nat -> TaskOutcome)
  (completed1 completed2 : list nat) (decisions : list CourtDecision)
  (max_workers : Z) :
  completed1 ≡ₚ seq 0 (length decisions) ->
  completed2 ≡ₚ seq 0 (length decisions) ->
  _download_pdfs_batch py_str outcome completed1 decisions max_workers =
  _download_pdfs_batch py_str outcome completed2 decisions max_workers.
Proof.
  intros H1 H2. unfold _download_pdfs_batch.
  destruct (mapM _ decisions); cbn; [| reflexivity].
  destruct (max_workers <=? 0); cbn; [reflexivity |].
  f_equal. apply list_eq. intros i. by rewrite !batch_pointwise.
Qed.

(** After the batch, the relative path of every record is its path with
    [../] in front. *)
Theorem relative_path_mirrors_path (outcome : nat -> TaskOutcome)
  (completed : list nat) (decisions decisions' : list CourtDecision)
  (max_workers : Z) (i : nat) (d' : CourtDecision) :
  Forall fresh decisions ->
  completed ≡ₚ seq 0 (length decisions) ->
  _download_pdfs_batch py_str outcome completed decisions max_workers = Ok decisions' ->
  decisions' !! i = Some d' ->
  text_file_relative_path d' = (fun path => "../" +:+ path) <$> text_file_path d'.
Proof.
  intros Hfresh Hperm Hbatch Hd'.
  apply batch_inv in Hbatch as [Hnames ->].
  rewrite batch_pointwise in Hd' by assumption.
  destruct (decisions !! i) as [d|] eqn:Hd; [| discriminate].
  cbn in Hd'. injection Hd' as <-.
  rewrite Forall_lookup in Hfresh, Hnames.
  destruct (Hnames i d Hd) as [name Hname].
  destruct (Hfresh i d Hd) as (Hp & Hr & _).
  rewrite (complete_task_cases _ _ _ _ Hname).
  destruct (task_failed (outcome i)); cbn; [by rewrite Hp, Hr |].
  by destruct (write_ok (outcome i)).
Qed.

Lemma malformed_record_aborts_batch (outcome : nat -> TaskOutcome)
  (completed : list nat) (decisions : list CourtDecision) (max_workers : Z)
  (d : CourtDecision) :
  d ∈ decisions ->
  (forall s, case_number d <> PStr s) ->
  exists e, _download_pdfs_batch py_str outcome completed decisions max_workers = Raise e.
Proof.
  intros Hin Hcn.
  destruct (_download_pdfs_batch _ _ _ _ _) as [ds'|e] eqn:H; [| by eexists].
  apply batch_inv in H as [Hnames _].
  rewrite Forall_forall in Hnames. destruct (Hnames d Hin) as [name Hname].
  unfold _create_safe_filename in Hname.
  destruct (case_number d) as [| | | |s| |]; try discriminate. by destruct (Hcn s).
Qed.

End BatchExtras.

Section OrchestratorExtras.

Variable py_str : pyval -> string.
Variable utcoffset : Z -> Z.

(** A record whose case number is not a string makes the loop body raise:
    the file names of the batch are computed outside any handler, so one
    such record ends the page and the run. *)
Theorem malformed_record_aborts_page (w : World) (a : Args) (period : Period)
  (first_page_data : PageData) (st : RunState) (page : Z) (page_data : PageData)
  (d : CourtDecision) :
  download_pdfs a = true ->
  negb (overwrite_files a) && page_exists period page st = false ->
  page_listing w a period first_page_data page = Some page_data ->
  d ∈ normalize_page py_str utcoffset page_data period ->
  (forall s, case_number d <> PStr s) ->
  exists e,
    process_page py_str utcoffset w a period first_page_data st page = Raise e.
Proof.
  intros Hdl Hskip Hlist Hin Hcn. unfold process_page, fetch_and_store.
  rewrite Hskip, Hlist. unfold store_page. rewrite Hdl.
  destruct (normalize_page py_str utcoffset page_data period) as [|d0 ds] eqn:E.
  { by apply elem_of_nil in Hin. }
  destruct (malformed_record_aborts_batch py_str (task_outcome w period page)
              (completed_order w period page) (d0 :: ds) (max_workers a) d Hin Hcn)
    as [e ->].
  by exists e.
Qed.

Lemma store_page_keeps_artifacts (w : World) (a : Args) (period : Period) (page : Z)
  (page_decisions : list CourtDecision) (st st' : RunState) :
  page_exists period page st = false ->
  store_page py_str w a period page page_decisions st = Ok st' ->
  metadata_dir st ⊆ metadata_dir st'.
Proof.
  intros He H. unfold store_page in H.
  destruct page_decisions as [|d ds]; [by injection H as <- |].
  assert (Hsub : metadata_dir st ⊆
            <[metadata_file (page_identifier period page) := to_dict <$> d :: ds]>
              (metadata_dir st)).
  { apply insert_subseteq. unfold page_exists in He.
    apply bool_decide_eq_false in He. by apply eq_None_not_Some. }
  destruct (download_pdfs a).
  - destruct (_download_pdfs_batch _ _ _ _ _); cbn in H; [| discriminate].
    by injection H as <-.
  - cbn in H. by injection H as <-.
Qed.

Lemma process_page_keeps_artifacts (w : World) (a : Args) (period : Period)
  (first_page_data : PageData) (st st' : RunState) (page : Z) :
  overwrite_files a = false ->
  process_page py_str utcoffset w a period first_page_data st page = Ok st' ->
  metadata_dir st ⊆ metadata_dir st'.
Proof.
  intros Ho H. unfold process_page in H. rewrite Ho in H. cbn in H.
  destruct (page_exists period page st) eqn:He; [by injection H as <- |].
  unfold fetch_and_store in H.
  destruct (fetch_logged_metadata_dir a period page st) as [Hm _].
  destruct (page_listing _ _ _ _ _) as [page_data|].
  - destruct (store_page _ _ _ _ _ _ _) as [st1|e] eqn:Hs; cbn in H; [| discriminate].
    injection H as <-. cbn. rewrite <- Hm.
    eapply store_page_keeps_artifacts; [| exact Hs].
    by rewrite (page_exists_metadata_dir period page st _ Hm).
  - injection H as <-. by rewrite Hm.
Qed.

Lemma process_pages_keeps_artifacts (w : World) (a : Args) (period : Period)
  (first_page_data : PageData) (pages : list Z) (st st' : RunState) :
  overwrite_files a = false ->
  process_pages py_str utcoffset w a period first_page_data st pages = Ok st' ->
  metadata_dir st ⊆ metadata_dir st'.
Proof.
  intros Ho. revert st. induction pages as [|page pages IH]; intros st H; cbn in H.
  - by injection H as <-.
  - destruct (process_page _ _ _ _ _ _ _ _) as [st1|e] eqn:H1; cbn in H; [| discriminate].
    etrans; [by eapply process_page_keeps_artifacts | by apply IH].
Qed.

Lemma parse_section_keeps_artifacts (w : World) (a : Args) (period : Period)
  (st st' : RunState) :
  overwrite_files a = false ->
  parse_section py_str utcoffset w a st period = Ok st' ->
  metadata_dir st ⊆ metadata_dir st'.
Proof.
  intros Ho H. unfold parse_section in H.
  destruct (get_decisions_list w 0 period) as [first|]; [| by injection H as <-].
  destruct (section_pages _ _ _) as [pages|]; [| by injection H as <-].
  by apply process_pages_keeps_artifacts in H.
Qed.

(** Without overwrite, a run never removes or changes an artifact that was
    in the metadata directory when it started. *)
Theorem run_keeps_artifacts (w : World) (section : string) (a : Args)
  (st st' : RunState) :
  overwrite_files a = false ->
  parse_all_decisions py_str utcoffset w section a st = Ok st' ->
  metadata_dir st ⊆ metadata_dir st'.
Proof.
  intros Ho H. unfold parse_all_decisions in H.
  destruct (sections_to_process section) as [periods|e]; cbn in H; [| discriminate].
  revert st H. induction periods as [|period periods IH]; intros st H; cbn in H.
  - by injection H as <-.
  - destruct (parse_section _ _ _ _ _ _) as [st1|e] eqn:H1; cbn in H; [| discriminate].
    etrans; [by eapply parse_section_keeps_artifacts | by apply IH].
Qed.

(** Resume: when every page of the range has its artifact and overwrite is
    not requested, the section changes nothing beyond the listing request
    that opens it. *)
Theorem resume_over_complete_section (w : World) (a : Args) (st : RunState)
  (period : Period) (first_page_data : PageData) (pages : list Z) :
  overwrite_files a = false ->
  get_decisions_list w 0 period = Some first_page_data ->
  section_pages (start_page a) (end_page a)
    (limit_total_pages (default 0 (totalPages first_page_data)) (max_pages a))
    = Some pages ->
  Forall (fun page => page_exists period page st = true) pages ->
  parse_section py_str utcoffset w a st period = Ok (log (Fetched period 0) st).
Proof.
  intros Ho Hfirst Hpages Hall. unfold parse_section. rewrite Hfirst, Hpages.
  assert (Hall' : Forall (fun page => page_exists period page (log (Fetched period 0) st) = true)
                         pages) by exact Hall.
  generalize dependent (log (Fetched period 0) st). clear Hall Hpages.
  intros st0 Hall. induction Hall as [|page pages Hp _ IH]; cbn; [reflexivity |].
  unfold process_page. rewrite Ho, Hp. cbn. exact IH.
Qed.

Lemma process_page_counters (w : World) (a : Args) (period : Period)
  (first_page_data : PageData) (st st' : RunState) (page : Z) :
  process_page py_str utcoffset w a period first_page_data st page = Ok st' ->
  decisions_found st' - decisions_found st =
    Z.of_nat (length (all_decisions st')) - Z.of_nat (length (all_decisions st)) /\
  pages_processed st <= pages_processed st' <= pages_processed st + 1 /\
  decisions_found st <= decisions_found st'.
Proof.
  unfold process_page. intros H.
  destruct (_ && _); [injection H as <-; lia |].
  unfold fetch_and_store in H.
  assert (Hf : all_decisions (fetch_logged a period page st) = all_decisions st /\
               decisions_found (fetch_logged a period page st) = decisions_found st /\
               pages_processed (fetch_logged a period page st) = pages_processed st).
  { unfold fetch_logged. by destruct (_ && _). }
  destruct Hf as (Ha & Hd & Hp). revert H.
  generalize dependent (fetch_logged a period page st). intros st0 Ha Hd Hp H.
  destruct (page_listing _ _ _ _ _) as [page_data|];
    [| injection H as <-; rewrite Ha; lia].
  unfold store_page in H.
  destruct (normalize_page _ _ _ _) as [|d ds].
  { cbn in H. injection H as <-. cbn. rewrite Ha. lia. }
  destruct (download_pdfs a).
  - destruct (_download_pdfs_batch _ _ _ _ _) as [ds'|e] eqn:Hb; cbn in H; [| discriminate].
    injection H as <-. cbn. apply batch_inv in Hb as [_ ->].
    rewrite length_app, fold_on_completed_length, Ha. cbn. lia.
  - cbn in H. injection H as <-. cbn. rewrite length_app, Ha. cbn. lia.
Qed.

(** [decisions_found] grows by the number of records that the run adds to
    the list it returns, and no counter ever goes down. *)
Theorem run_counters (w : World) (section : string) (a : Args) (st st' : RunState) :
  parse_all_decisions py_str utcoffset w section a st = Ok st' ->
  decisions_found st' - decisions_found st =
    Z.of_nat (length (all_decisions st')) - Z.of_nat (length (all_decisions st)) /\
  pages_processed st <= pages_processed st' /\
  decisions_found st <= decisions_found st'.
Proof.
  assert (Hpages : forall period first pages st st',
            process_pages py_str utcoffset w a period first st pages = Ok st' ->
            decisions_found st' - decisions_found st =
              Z.of_nat (length (all_decisions st')) - Z.of_nat (length (all_decisions st)) /\
            pages_processed st <= pages_processed st' /\
            decisions_found st <= decisions_found st').
  { intros period first pages. induction pages as [|page pages IH]; intros s s' H; cbn in H.
    - injection H as <-. lia.
    - destruct (process_page _ _ _ _ _ _ _ _) as [s1|e] eqn:H1; cbn in H; [| discriminate].
      apply process_page_counters in H1. apply IH in H. lia. }
  assert (Hsec : forall period st st',
            parse_section py_str utcoffset w a st period = Ok st' ->
            decisions_found st' - decisions_found st =
              Z.of_nat (length (all_decisions st')) - Z.of_nat (length (all_decisions st)) /\
            pages_processed st <= pages_processed st' /\
            decisions_found st <= decisions_found st').
  { intros period s s' H. unfold parse_section in H.
    destruct (get_decisions_list w 0 period) as [first|]; [| injection H as <-; cbn; lia].
    destruct (section_pages _ _ _) as [pages|]; [| injection H as <-; cbn; lia].
    apply Hpages in H. cbn in H. exact H. }
  unfold parse_all_decisions. intros H.
  destruct (sections_to_process section) as [periods|e]; cbn in H; [| discriminate].
  revert st H. induction periods as [|period periods IH]; intros st H; cbn in H.
  - injection H as <-. lia.
  - destruct (parse_section _ _ _ _ _ _) as [st1|e] eqn:H1; cbn in H; [| discriminate].
    apply Hsec in H1. apply IH in H. lia.
Qed.

End OrchestratorExtras.

Lemma pretty_N_go_canonical (x : N) (s : string) :
  (0 < x)%N -> starts_with_nonzero_digit (pretty_N_go x s) = true.
Proof.
  revert s. induction (N.lt_wf_0 x) as [x _ IH]. intros s Hx.
  rewrite pretty_N_go_step by assumption.
  destruct (decide (x `div` 10 = 0)%N) as [H0|Hn0].
  - rewrite H0, pretty_N_go_0.
    assert (x < 10)%N
      by (pose proof (N.div_mod x 10 ltac:(lia)) as Hdm;
          pose proof (N.mod_lt x 10 ltac:(lia)); rewrite H0 in Hdm; lia).
    rewrite N.mod_small by assumption.
    assert (x = 1 \/ x = 2 \/ x = 3 \/ x = 4 \/ x = 5 \/ x = 6 \/ x = 7 \/ x = 8 \/ x = 9)%N
      as Hc by lia.
    destruct Hc as [->|[->|[->|[->|[->|[->|[->|[->| ->]]]]]]]]; reflexivity.
  - apply IH; [by apply N.div_lt | apply N.neq_0_lt_0, Hn0].
Qed.

Lemma pretty_nonneg_canonical (n : Z) : 0 <= n -> canonical (pretty n).
Proof.
  intros Hn. destruct n as [|p|p]; [by left | | lia].
  right. unfold pretty, pretty_Z, pretty, pretty_positive, pretty, pretty_N.
  destruct (decide (N.pos p = 0)%N); [lia |].
  apply pretty_N_go_canonical. lia.
Qed.

Lemma zeros_S (k : nat) : zeros (S k) = String "0" (zeros k).
Proof. reflexivity. Qed.

Lemma zfill_zeros (w : nat) (s : string) : zfill w s = zeros (w - String.length s) +:+ s.
Proof. reflexivity. Qed.

Lemma zeros_length (k : nat) : String.length (zeros k) = k.
Proof. induction k as [|k IH]; [reflexivity |]. rewrite zeros_S. cbn. by rewrite IH. Qed.

Lemma canonical_no_leading_zero (s rest : string) :
  canonical s -> s = String "0" rest -> rest = "".
Proof.
  intros [H0|H] Hs; [rewrite H0 in Hs; by injection Hs | subst s; discriminate H].
Qed.

Lemma canonical_nonempty (s : string) : canonical s -> s <> "".
Proof. intros [H0|H] Hs; subst s; discriminate. Qed.

Lemma zeros_app_inj (k1 k2 : nat) (s1 s2 : string) :
  canonical s1 -> canonical s2 ->
  (k1 + String.length s1 = k2 + String.length s2)%nat ->
  zeros k1 +:+ s1 = zeros k2 +:+ s2 -> s1 = s2.
Proof.
  revert k2. induction k1 as [|k1 IH]; intros k2 H1 H2 Hlen H.
  - destruct k2 as [|k2]; [exact H |].
    rewrite zeros_S in H. change (s1 = String "0" (zeros k2 +:+ s2)) in H.
    pose proof (canonical_no_leading_zero _ _ H1 H) as Hrest.
    apply (f_equal String.length) in Hrest. rewrite string_app_length in Hrest.
    cbn in Hrest. destruct s2; [by destruct (canonical_nonempty "" H2) | cbn in Hrest; lia].
  - destruct k2 as [|k2].
    + rewrite zeros_S in H. change (String "0" (zeros k1 +:+ s1) = s2) in H.
      symmetry in H.
      pose proof (canonical_no_leading_zero _ _ H2 H) as Hrest.
      apply (f_equal String.length) in Hrest. rewrite string_app_length in Hrest.
      cbn in Hrest. destruct s1; [by destruct (canonical_nonempty "" H1) | cbn in Hrest; lia].
    + rewrite !zeros_S in H.
      change (String "0" (zeros k1 +:+ s1) = String "0" (zeros k2 +:+ s2)) in H.
      injection H as H. apply (IH k2); [assumption.. | lia | assumption].
Qed.

Lemma zfill_inj (w : nat) (s1 s2 : string) :
  canonical s1 -> canonical s2 -> zfill w s1 = zfill w s2 -> s1 = s2.
Proof.
  intros H1 H2 H. rewrite !zfill_zeros in H.
  apply (zeros_app_inj (w - String.length s1) (w - String.length s2) _ _ H1 H2);
    [| exact H].
  apply (f_equal String.length) in H.
  by rewrite !string_app_length, !zeros_length in H.
Qed.

Lemma zfill_head (w : nat) (s : string) (rest : string) :
  canonical s -> zfill w s <> String "-" rest.
Proof.
  intros Hc. rewrite zfill_zeros. destruct (w - String.length s)%nat as [|k].
  - destruct Hc as [->|Hc]; [discriminate |].
    destruct s as [|c s]; [discriminate |]. cbn in Hc.
    apply bool_decide_eq_true in Hc. intros [= -> _]. revert Hc.
    by apply (bool_decide_eq_false_1
                ("-"%char ∈ ["1"; "2"; "3"; "4"; "5"; "6"; "7"; "8"; "9"]%char)).
  - rewrite zeros_S. discriminate.
Qed.

Lemma fmt_0wd_inj (w : nat) (n1 n2 : Z) : fmt_0wd w n1 = fmt_0wd w n2 -> n1 = n2.
Proof.
  unfold fmt_0wd.
  destruct (n1 <? 0) eqn:E1; destruct (n2 <? 0) eqn:E2; intros H.
  - change (String "-" (zfill (w - 1) (pretty (- n1))) =
            String "-" (zfill (w - 1) (pretty (- n2)))) in H.
    injection H as H.
    apply zfill_inj in H; [| apply pretty_nonneg_canonical; lia..].
    apply (inj pretty) in H. lia.
  - change (String "-" (zfill (w - 1) (pretty (- n1))) = zfill w (pretty n2)) in H.
    symmetry in H. by apply zfill_head in H; [| apply pretty_nonneg_canonical; lia].
  - change (zfill w (pretty n1) = String "-" (zfill (w - 1) (pretty (- n2)))) in H.
    by apply zfill_head in H; [| apply pretty_nonneg_canonical; lia].
  - apply zfill_inj in H; [| apply pretty_nonneg_canonical; lia..].
    by apply (inj pretty) in H.
Qed.

Lemma string_app_inv_tail (a b c : string) : a +:+ c = b +:+ c -> a = b.
Proof.
  revert b. induction a as [|x a IH]; intros b H.
  - destruct b as [|y b]; [reflexivity |].
    apply (f_equal String.length) in H. rewrite !string_app_length in H.
    cbn in H. lia.
  - destruct b as [|y b].
    + apply (f_equal String.length) in H. rewrite !string_app_length in H.
      cbn in H. lia.
    + change (String x (a +:+ c) = String y (b +:+ c)) in H.
      injection H as -> H. f_equal. by apply IH.
Qed.

Lemma metadata_file_eq (period1 period2 : Period) (page1 page2 : Z) :
  metadata_file (page_identifier period1 page1) =
  metadata_file (page_identifier period2 page2) ->
  period1 = period2 /\ page1 = page2.
Proof.
  intros H. unfold metadata_file, page_identifier in H.
  destruct period1, period2;
    [ change (String "p" (String "a" (String "g" (String "e" (String "_"
        (String "n" (String "e" (String "w" (String "_"
           (fmt_0wd 4 page1 +:+ ".json"))))))))) =
        String "p" (String "a" (String "g" (String "e" (String "_"
        (String "n" (String "e" (String "w" (String "_"
           (fmt_0wd 4 page2 +:+ ".json")))))))))) in H
    | discriminate H
    | discriminate H
    | change (String "p" (String "a" (String "g" (String "e" (String "_"
        (String "o" (String "l" (String "d" (String "_"
           (fmt_0wd 4 page1 +:+ ".json"))))))))) =
        String "p" (String "a" (String "g" (String "e" (String "_"
        (String "o" (String "l" (String "d" (String "_"
           (fmt_0wd 4 page2 +:+ ".json")))))))))) in H ];
    injection H as H; apply string_app_inv_tail, fmt_0wd_inj in H; by split.
Qed.

(** Two pages share an artifact name only if they are the same page of the
    same section. *)
Theorem metadata_file_inj (period1 period2 : Period) (page1 page2 : Z) :
  metadata_file (page_identifier period1 page1) =
  metadata_file (page_identifier period2 page2) ->
  period1 = period2 /\ page1 = page2.
Proof. apply metadata_file_eq. Qed.

Section ArtifactExtras.

Variable py_str : pyval -> string.
Variable utcoffset : Z -> Z.

(** Whatever the flags, the loop body changes no artifact but the one of
    its own page. *)
Theorem page_touches_only_its_artifact (w : World) (a : Args) (period period' : Period)
  (first_page_data : PageData) (st st' : RunState) (page page' : Z) :
  process_page py_str utcoffset w a period first_page_data st page = Ok st' ->
  (period', page') <> (period, page) ->
  metadata_dir st' !! metadata_file (page_identifier period' page') =
  metadata_dir st !! metadata_file (page_identifier period' page').
Proof.
  intros H Hne. unfold process_page in H.
  destruct (_ && _); [by injection H as <- |].
  unfold fetch_and_store in H.
  destruct (fetch_logged_metadata_dir a period page st) as [Hm _].
  destruct (page_listing _ _ _ _ _) as [page_data|]; [| injection H as <-; by rewrite Hm].
  destruct (store_page _ _ _ _ _ _ _) as [st1|e] eqn:Hs; cbn in H; [| discriminate].
  injection H as <-. cbn. rewrite <- Hm.
  unfold store_page in Hs.
  destruct (normalize_page py_str utcoffset page_data period) as [|d ds] eqn:Hn.
  { by injection Hs as <-. }
  assert (Hother :
    <[metadata_file (page_identifier period page) := to_dict <$> d :: ds]>
      (metadata_dir (fetch_logged a period page st))
      !! metadata_file (page_identifier period' page') =
    metadata_dir (fetch_logged a period page st)
      !! metadata_file (page_identifier period' page')).
  { apply lookup_insert_ne. intros Heq. apply metadata_file_eq in Heq as [-> ->].
    by apply Hne. }
  destruct (download_pdfs a).
  - destruct (_download_pdfs_batch _ _ _ _ _); cbn in Hs; [| discriminate].
    by injection Hs as <-.
  - cbn in Hs. by injection Hs as <-.
Qed.

End ArtifactExtras.

(** ** The shared rate state *)

Lemma poisoned_delay_raises (delay now : Q) (c : Client) :
  poisoned c -> client_delay delay now c = Raise ValueError.
Proof.
  intros (n & Hra & Hn). unfold client_delay, _adaptive_delay. rewrite Hra.
  cbn [optint_truthy default id]. replace (n =? 0) with false by lia. cbn [negb].
  destruct (inject_Z_between n (-9223372037) (-1) ltac:(lia)) as [Hlo Hhi].
  change (inject_Z (-9223372037)) with (-9223372037)%Q in Hlo.
  change (inject_Z (-1)) with (-1)%Q in Hhi.
  rewrite time_sleep_negative by lra. reflexivity.
Qed.

Lemma poisoned_task_raises (delay : Q) (task : Task) (c : Client) :
  poisoned c -> _process_single_decision delay task c = (Raised, c).
Proof.
  intros Hp. unfold _process_single_decision, download_pdf_and_extract_text,
    request_with_retry.
  by rewrite (poisoned_delay_raises delay (clock1 task) c Hp).
Qed.

Lemma poisoned_pool_raises (delay : Q) (tasks : list Task) (c : Client) :
  poisoned c ->
  pool_of_one delay tasks c = (replicate (length tasks) Raised, c).
Proof.
  intros Hp. induction tasks as [|task tasks IH]; [reflexivity |].
  cbn [pool_of_one]. by rewrite (poisoned_task_raises _ _ _ Hp), IH.
Qed.

Lemma negative_retry_after_poisons (delay : Q) (task : Task) (c c1 : Client)
  (response : Response) (body : option (list string)) (n : Z) :
  client_delay delay (clock1 task) c = Ok c1 ->
  first_get task = Answered response body ->
  status_code response = 429 ->
  hdr_Retry_After response = Some (HInt n) ->
  -9223372037 <= n < 0 ->
  exists c', _process_single_decision delay task c = (Raised, c') /\ poisoned c'.
Proof.
  intros H1 Hf Hs Hra Hn.
  unfold _process_single_decision, download_pdf_and_extract_text, request_with_retry.
  rewrite H1, Hf. cbn [mbind may_raise_bind].
  destruct (check_rate_limits_stores_retry_after (rate_limit c1) response n Hs Hra)
    as (rl1 & E & Hrl1).
  rewrite E. cbn [snd].
  assert (Hp : poisoned (set_rate_limit rl1 c1)) by (exists n; by split).
  rewrite (poisoned_delay_raises delay (clock2 task) _ Hp). cbn [mbind may_raise_bind].
  by eexists.
Qed.

Section SharedRateState.

Variable py_str : pyval -> string.

(** C5.  The failure of one record can fail its siblings.  The tasks of a
    batch run on the one parser object and share its rate state.  With one
    worker, which runs the tasks in the order of the records: when the
    request of the first record is answered 429 with a negative
    [Retry-After] (down to -9223372037), the stored value makes
    [time.sleep] raise before [_adaptive_delay] clears it, the task of every
    sibling raises at its first [_adaptive_delay], and the batch leaves every
    record with [text_extraction_success] false, whatever the server answers
    to the requests of the siblings. *)
Theorem negative_retry_after_fails_siblings (delay : Q) (task : Task)
  (siblings : list Task) (completed : list nat) (decisions : list CourtDecision)
  (c c1 : Client) (response : Response) (body : option (list string)) (n : Z) :
  client_delay delay (clock1 task) c = Ok c1 ->
  first_get task = Answered response body ->
  status_code response = 429 ->
  hdr_Retry_After response = Some (HInt n) ->
  -9223372037 <= n < 0 ->
  Forall (fun d => exists name, _create_safe_filename py_str d = Ok name) decisions ->
  length decisions = S (length siblings) ->
  completed ≡ₚ seq 0 (length decisions) ->
  batch_with_one_worker py_str delay (task :: siblings) completed decisions c =
  Ok (set_text_extraction_success false <$> decisions).
Proof.
  intros H1 Hf Hs Hra Hn Hnames Hlen Hperm. unfold batch_with_one_worker.
  destruct (negative_retry_after_poisons delay task c c1 response body n H1 Hf Hs Hra Hn)
    as (c' & E & Hp).
  cbn [pool_of_one]. rewrite E, (poisoned_pool_raises delay siblings c' Hp). cbn [fst].
  rewrite (batch_returns py_str _ completed decisions 1 Hnames ltac:(lia)).
  f_equal. apply list_eq. intros j.
  rewrite (batch_pointwise py_str _ completed decisions j Hperm), list_lookup_fmap.
  destruct (decisions !! j) as [d|] eqn:Hd; [| reflexivity].
  cbn [fmap option_fmap option_map]. f_equal.
  unfold complete_task. cbn [future].
  assert ((Raised :: replicate (length siblings) Raised) !! j = Some Raised) as ->.
  { change (Raised :: replicate (length siblings) Raised)
      with (replicate (S (length siblings)) Raised).
    apply lookup_lt_Some in Hd. apply lookup_replicate_2. lia. }
  reflexivity.
Qed.

End SharedRateState.

(** ** The hearing date *)

(** *** The calendar *)

(** [civil_from_days] and [days_from_civil] agree on the 146097 days of
    the 400 years from 0000-03-01 on, and the months and days are in
    range. *)
Lemma era_roundtrip : roundtrip_ok_from 146097 (-719468) = true.
Proof. vm_cast_no_check (eq_refl true). Qed.

Lemma roundtrip_ok_iter (n : nat) (z : Z) (ok : bool) :
  Nat.iter n (fun '(z, ok) => (z + 1, ok && roundtrip_ok z)) (z, ok) =
  (z + Z.of_nat n,
   ok && forallb roundtrip_ok (seqZ z (Z.of_nat n))).
Proof.
  revert z ok. induction n as [|n IH]; intros z ok.
  - cbn. by rewrite Z.add_0_r, andb_true_r.
  - rewrite Nat.iter_succ_r, IH.
    replace (Z.of_nat (S n)) with (Z.succ (Z.of_nat n)) by lia.
    rewrite (seqZ_cons z) by lia. cbn [forallb].
    replace (Z.pred (Z.succ (Z.of_nat n))) with (Z.of_nat n) by lia.
    unfold Z.succ. f_equal; [lia | by rewrite andb_assoc].
Qed.

Lemma roundtrip_ok_from_spec (n z i : Z) :
  roundtrip_ok_from n z = true -> z <= i < z + n -> roundtrip_ok i = true.
Proof.
  unfold roundtrip_ok_from. intros H Hi.
  rewrite iter_nat_of_Z in H by lia.
  pose proof (roundtrip_ok_iter (Z.abs_nat n) z true) as E.
  unfold Nat.iter in E. rewrite E in H. clear E.
  rewrite Zabs2Nat.id_abs, Z.abs_eq in H by lia.
  cbn in H. rewrite forallb_forall in H. apply H.
  apply list_elem_of_In, elem_of_seqZ. lia.
Qed.

Lemma civil_from_days_shift (z k : Z) :
  civil_from_days (z + 146097 * k) =
  let '(y, m, d) := civil_from_days z in (y + 400 * k, m, d).
Proof.
  unfold civil_from_days.
  replace (z + 146097 * k + 719468) with (z + 719468 + k * 146097) by lia.
  rewrite Z.div_add by lia.
  replace (z + 719468 + k * 146097 - ((z + 719468) / 146097 + k) * 146097)
    with (z + 719468 - (z + 719468) / 146097 * 146097) by lia.
  set (doe := z + 719468 - (z + 719468) / 146097 * 146097).
  set (yoe := (doe - doe / 1460 + doe / 36524 - doe / 146096) / 365).
  set (doy := doe - (365 * yoe + yoe / 4 - yoe / 100)).
  set (mp := (5 * doy + 2) / 153).
  destruct ((if mp <? 10 then mp + 3 else mp - 9) <=? 2); f_equal; f_equal; lia.
Qed.

Lemma days_from_civil_shift (y m d k : Z) :
  days_from_civil (y + 400 * k) m d = days_from_civil y m d + 146097 * k.
Proof.
  unfold days_from_civil.
  set (y' := if m <=? 2 then y - 1 else y).
  replace (if m <=? 2 then y + 400 * k - 1 else y + 400 * k) with (y' + k * 400)
    by (unfold y'; destruct (m <=? 2); lia).
  rewrite Z.div_add by lia.
  replace (y' + k * 400 - (y' / 400 + k) * 400) with (y' - y' / 400 * 400) by lia.
  lia.
Qed.

Lemma civil_from_days_spec_era (z0 k : Z) :
  -719468 <= z0 < -719468 + 146097 ->
  let '(y, m, d) := civil_from_days (z0 + 146097 * k) in
  days_from_civil y m d = z0 + 146097 * k /\ 1 <= m <= 12 /\ 1 <= d <= 31.
Proof.
  intros Hz0.
  pose proof (roundtrip_ok_from_spec _ _ z0 era_roundtrip Hz0) as H.
  rewrite civil_from_days_shift. unfold roundtrip_ok in H.
  destruct (civil_from_days z0) as [[y m] d].
  rewrite days_from_civil_shift.
  repeat (apply andb_true_iff in H as [H ?]). lia.
Qed.

(** [days_from_civil] undoes [civil_from_days] on every day, and the month
    and the day of the month are in range. *)
Lemma civil_from_days_spec (z : Z) :
  let '(y, m, d) := civil_from_days z in
  days_from_civil y m d = z /\ 1 <= m <= 12 /\ 1 <= d <= 31.
Proof.
  pose proof (Z.div_mod (z + 719468) 146097 ltac:(lia)) as E.
  pose proof (Z.mod_pos_bound (z + 719468) 146097 ltac:(lia)) as B.
  pose proof (civil_from_days_spec_era
                (z - 146097 * ((z + 719468) / 146097)) ((z + 719468) / 146097)
                ltac:(lia)) as H.
  replace (z - 146097 * ((z + 719468) / 146097) + 146097 * ((z + 719468) / 146097))
    with z in H by lia.
  exact H.
Qed.

Lemma civil_from_days_inj (z1 z2 : Z) :
  civil_from_days z1 = civil_from_days z2 -> z1 = z2.
Proof.
  intros H. pose proof (civil_from_days_spec z1) as H1.
  pose proof (civil_from_days_spec z2) as H2. rewrite H in H1.
  destruct (civil_from_days z2) as [[y m] d]. lia.
Qed.

(** *** Splitting a timestamp *)

Lemma inject_Z_minus (x y : Z) : inject_Z (x - y) = (inject_Z x - inject_Z y)%Q.
Proof. unfold Z.sub, Qminus. by rewrite inject_Z_plus, inject_Z_opp. Qed.

Lemma Qtrunc_spec (x : Q) : (Qabs (x - inject_Z (Qtrunc x)) < 1)%Q.
Proof.
  destruct x as [n d]. unfold Qtrunc. cbn [Qnum Qden].
  pose proof (Z.quot_rem' n (Zpos d)) as E.
  pose proof (Z.rem_bound_abs n (Zpos d) ltac:(lia)) as B.
  apply Qabs_Qlt_condition.
  unfold Qlt, Qminus, Qplus, Qopp, inject_Z; cbn. lia.
Qed.

(** A float within [2 ^ -21] of a whole number of milliseconds splits into
    the seconds and the microseconds of that number. *)
Lemma split_timestamp_near (x : Q) (a j : Z) :
  0 <= j <= 999 ->
  (Qabs (x - (inject_Z a + inject_Z j * (1 # 1000))) <= 1 # 2097152)%Q ->
  split_timestamp x = (a, 1000 * j).
Proof.
  intros Hj Hx. unfold split_timestamp.
  pose proof (Qtrunc_spec x) as Ht. set (i := Qtrunc x) in *.
  set (v := ((x - inject_Z i) * 1000000)%Q).
  set (K := 1000 * j + (a - i) * 1000000).
  apply Qabs_Qle_condition in Hx. apply Qabs_Qlt_condition in Ht.
  destruct (inject_Z_between j 0 999 Hj) as [Hj0 Hj1].
  change (inject_Z 0) with 0%Q in Hj0. change (inject_Z 999) with 999%Q in Hj1.
  assert (HK : (inject_Z K == 1000 * inject_Z j + (inject_Z a - inject_Z i) * 1000000)%Q).
  { unfold K. rewrite inject_Z_plus, !inject_Z_mult, inject_Z_minus. reflexivity. }
  assert (Hv : (v == (x - inject_Z i) * 1000000)%Q) by reflexivity.
  clearbody v.
  assert (Hv20 : (Qabs v < 2 ^ 20)%Q).
  { apply Qabs_Qlt_condition. change (2 ^ 20)%Q with 1048576%Q. lra. }
  pose proof (b64_round_error v 20 Hv20 ltac:(lia)) as E.
  change (2 ^ (20 - 54))%Q with (1 # 17179869184)%Q in E.
  apply Qabs_Qle_condition in E.
  assert (Hus : Qround_half_even (b64_round v) = K).
  { apply Qround_half_even_near, Qabs_Qlt_condition. lra. }
  rewrite Hus.
  assert (Hi : -1 <= i - a <= 1).
  { assert (inject_Z (-2) < inject_Z (i - a))%Q as H1
      by (rewrite inject_Z_minus; change (inject_Z (-2)) with (-2)%Q; lra).
    assert (inject_Z (i - a) < inject_Z 2)%Q as H2
      by (rewrite inject_Z_minus; change (inject_Z 2) with 2%Q; lra).
    rewrite <- Zlt_Qlt in H1, H2. lia. }
  assert (i = a - 1 \/ i = a \/ i = a + 1) as [-> | [-> | ->]] by lia; unfold K.
  - replace (1000000 <=? _) with true by lia. f_equal; lia.
  - replace (1000000 <=? _) with false by lia.
    replace (_ <? 0) with false by lia. f_equal; lia.
  - replace (1000000 <=? _) with false by lia.
    replace (_ <? 0) with true by lia. f_equal; lia.
Qed.

(** Up to [2 ^ 33] seconds from the epoch (the years 1697 to 2242) the float
    quotient [ms / 1000] keeps the millisecond. *)
Lemma split_timestamp_exact (ms : Z) :
  - 2 ^ 33 * 1000 < ms < 2 ^ 33 * 1000 ->
  split_timestamp (true_divide ms 1000) = (ms / 1000, ms mod 1000 * 1000).
Proof.
  intros Hms. rewrite (Z.mul_comm (ms mod 1000)).
  pose proof (Z.div_mod ms 1000 ltac:(lia)) as Ediv.
  pose proof (Z.mod_pos_bound ms 1000 ltac:(lia)) as Hj.
  apply split_timestamp_near; [lia |].
  unfold true_divide. set (q := (inject_Z ms / inject_Z 1000)%Q).
  assert (Hq : (q == inject_Z (ms / 1000) + inject_Z (ms mod 1000) * (1 # 1000))%Q).
  { unfold q. rewrite Ediv at 1. rewrite inject_Z_plus, inject_Z_mult.
    change (inject_Z 1000) with 1000%Q. field. }
  destruct (inject_Z_between ms (- 2 ^ 33 * 1000 + 1) (2 ^ 33 * 1000 - 1) ltac:(lia))
    as [Hlo Hhi].
  change (inject_Z (- 2 ^ 33 * 1000 + 1)) with (- 8589934591999)%Q in Hlo.
  change (inject_Z (2 ^ 33 * 1000 - 1)) with 8589934591999%Q in Hhi.
  assert (Hq33 : (Qabs q < 2 ^ 33)%Q).
  { apply Qabs_Qlt_condition. change (2 ^ 33)%Q with 8589934592%Q.
    assert (q * 1000 == inject_Z ms)%Q as Hm
      by (unfold q; change (inject_Z 1000) with 1000%Q; field).
    lra. }
  pose proof (b64_round_error q 33 Hq33 ltac:(lia)) as E.
  change (2 ^ (33 - 54))%Q with (1 # 2097152)%Q in E.
  apply Qabs_Qle_condition in E. apply Qabs_Qle_condition. lra.
Qed.

(** *** Wall clocks *)

Lemma civil_from_days_year (z y m d : Z) :
  civil_from_days z = (y, m, d) -> -99425 <= z <= 99425 -> 1600 <= y <= 2400.
Proof.
  intros E Hz. pose proof (civil_from_days_spec z) as H. rewrite E in H.
  destruct H as (H & Hm & Hd). unfold days_from_civil in H.
  destruct (m <=? 2) eqn:E1; destruct (m >? 2) eqn:E2; try lia;
    Z.div_mod_to_equations; lia.
Qed.

Lemma wall_clock_in_range (secs us : Z) :
  - 8590193792 <= secs <= 8590193792 ->
  exists y m d,
    civil_from_days (secs / 86400) = (y, m, d) /\
    wall_clock secs us =
      Some {| year := y; month := m; day := d;
              hour := secs mod 86400 / 3600; minute := secs mod 86400 mod 3600 / 60;
              second := secs mod 86400 mod 60; microsecond := us |}.
Proof.
  intros Hs. unfold wall_clock.
  destruct (civil_from_days (secs / 86400)) as [[y m] d] eqn:E.
  exists y, m, d. split; [reflexivity |].
  assert (-99425 <= secs / 86400 <= 99425) as Hz by (Z.div_mod_to_equations; lia).
  pose proof (civil_from_days_year _ _ _ _ E Hz).
  replace (1 <=? y) with true by lia. replace (y <=? 9999) with true by lia.
  reflexivity.
Qed.

Lemma forallb_seqZ (f : Z -> bool) (a n i : Z) :
  forallb f (seqZ a n) = true -> a <= i < a + n -> f i = true.
Proof.
  intros H Hi. rewrite forallb_forall in H. apply H.
  apply list_elem_of_In, elem_of_seqZ. lia.
Qed.

Lemma fmt_0wd_2_length (n : Z) : 0 <= n <= 99 -> String.length (fmt_0wd 2 n) = 2%nat.
Proof.
  intros Hn. apply Nat.eqb_eq.
  apply (forallb_seqZ (fun n => Nat.eqb (String.length (fmt_0wd 2 n)) 2) 0 100);
    [vm_compute; reflexivity | lia].
Qed.

Lemma fmt_0wd_4_length (n : Z) : 0 <= n <= 9999 -> String.length (fmt_0wd 4 n) = 4%nat.
Proof.
  intros Hn. apply Nat.eqb_eq.
  apply (forallb_seqZ (fun n => Nat.eqb (String.length (fmt_0wd 4 n)) 4) 0 10000);
    [vm_compute; reflexivity | lia].
Qed.

Lemma string_app_inj (a a' b b' : string) :
  String.length a = String.length a' -> a +:+ b = a' +:+ b' -> a = a' /\ b = b'.
Proof.
  revert a'. induction a as [|x a IH]; intros [|x' a'] Hlen H; try discriminate.
  - by split.
  - change (String x (a +:+ b) = String x' (a' +:+ b')) in H.
    injection H as -> H. injection Hlen as Hlen.
    destruct (IH a' Hlen H) as [-> ->]. by split.
Qed.

Lemma isoformat_inj (t1 t2 : datetime) :
  displayable t1 -> displayable t2 -> isoformat t1 = isoformat t2 ->
  year t1 = year t2 /\ month t1 = month t2 /\ day t1 = day t2 /\
  hour t1 = hour t2 /\ minute t1 = minute t2 /\ second t1 = second t2.
Proof.
  intros (Hy1 & Hm1 & Hd1 & Hh1 & Hi1 & Hs1) (Hy2 & Hm2 & Hd2 & Hh2 & Hi2 & Hs2) H.
  unfold isoformat in H.
  apply string_app_inj in H as [Ey H]; [| by rewrite !fmt_0wd_4_length].
  change ("-" +:+ ?x)%string with (String "-" x) in H. injection H as H.
  apply string_app_inj in H as [Em H]; [| by rewrite !fmt_0wd_2_length].
  change ("-" +:+ ?x)%string with (String "-" x) in H. injection H as H.
  apply string_app_inj in H as [Ed H]; [| by rewrite !fmt_0wd_2_length].
  change ("T" +:+ ?x)%string with (String "T" x) in H. injection H as H.
  apply string_app_inj in H as [Eh H]; [| by rewrite !fmt_0wd_2_length].
  change (":" +:+ ?x)%string with (String ":" x) in H. injection H as H.
  apply string_app_inj in H as [Ei H]; [| by rewrite !fmt_0wd_2_length].
  change (":" +:+ ?x)%string with (String ":" x) in H. injection H as H.
  apply string_app_inj in H as [Es H]; [| by rewrite !fmt_0wd_2_length].
  repeat split; eapply fmt_0wd_inj; eassumption.
Qed.

(** Two clocks that show the same microseconds and render alike show the
    same second. *)
Lemma wall_clock_inj (secs1 secs2 us : Z) (t1 t2 : datetime) :
  wall_clock secs1 us = Some t1 -> wall_clock secs2 us = Some t2 ->
  isoformat t1 = isoformat t2 -> secs1 = secs2.
Proof.
  unfold wall_clock. intros H1 H2 H.
  pose proof (civil_from_days_spec (secs1 / 86400)) as S1.
  pose proof (civil_from_days_spec (secs2 / 86400)) as S2.
  destruct (civil_from_days (secs1 / 86400)) as [[y1 m1] d1] eqn:E1.
  destruct (civil_from_days (secs2 / 86400)) as [[y2 m2] d2] eqn:E2.
  destruct ((1 <=? y1) && (y1 <=? 9999)) eqn:R1; [| discriminate].
  destruct ((1 <=? y2) && (y2 <=? 9999)) eqn:R2; [| discriminate].
  injection H1 as <-. injection H2 as <-.
  pose proof (Z.mod_pos_bound secs1 86400 ltac:(lia)) as B1.
  pose proof (Z.mod_pos_bound secs2 86400 ltac:(lia)) as B2.
  apply isoformat_inj in H as (Ey & Em & Ed & Eh & Ei & Es); cbn in *.
  - subst y2 m2 d2. rewrite <- E2 in E1. apply civil_from_days_inj in E1.
    Z.div_mod_to_equations. lia.
  - unfold displayable; cbn. Z.div_mod_to_equations. lia.
  - unfold displayable; cbn. Z.div_mod_to_equations. lia.
Qed.

Section HearingDate.

Variable py_str : pyval -> string.
Variable utcoffset : Z -> Z.

(** Within [2 ^ 33] seconds of the epoch, on a host whose local time stays
    within a day of UTC, [fromtimestamp(ms / 1000)] returns, and returns the
    reading of the local clock at the instant [ms]. *)
Lemma fromtimestamp_in_range (ms : Z) :
  (forall t, -86400 < utcoffset t < 86400) ->
  - 2 ^ 33 * 1000 < ms < 2 ^ 33 * 1000 ->
  exists t,
    fromtimestamp utcoffset (true_divide ms 1000) = Some t /\
    wall_clock (ms / 1000 + utcoffset (ms / 1000)) (ms mod 1000 * 1000) = Some t.
Proof.
  intros Hoff Hms. unfold fromtimestamp, local_datetime.
  rewrite (split_timestamp_exact ms Hms).
  set (t := ms / 1000). set (us := ms mod 1000 * 1000).
  assert (Ht : - 2 ^ 33 <= t < 2 ^ 33) by (unfold t; Z.div_mod_to_equations; lia).
  pose proof (Hoff t) as H0. pose proof (Hoff (t - 86400)) as H1.
  set (trans := t + utcoffset t - (t - 86400 + utcoffset (t - 86400)) - 86400).
  pose proof (Hoff (t + trans)) as H2.
  destruct (wall_clock_in_range (t + utcoffset t) us ltac:(lia))
    as (y & m & d & _ & ->).
  destruct (wall_clock_in_range (t - 86400 + utcoffset (t - 86400)) us ltac:(lia))
    as (y1 & m1 & d1 & _ & ->).
  cbn [mbind option_bind].
  destruct (trans <? 0) eqn:E.
  - destruct (wall_clock_in_range (t + trans + utcoffset (t + trans)) us
                ltac:(unfold trans in *; lia)) as (y2 & m2 & d2 & _ & ->).
    cbn [mbind option_bind]. by eexists.
  - by eexists.
Qed.

Lemma datetime_at_shift (offset ms : Z) :
  datetime_at 0 (ms + 1000 * offset) = datetime_at offset ms.
Proof.
  unfold datetime_at.
  replace (ms + 1000 * offset) with (ms + offset * 1000) by lia.
  rewrite Z.div_add, Z.mod_add by lia. by rewrite Z.add_0_r.
Qed.


End HearingDate.

(** ** Instances *)

Lemma error_response_backs_off_witness :
  fst (_check_rate_limits RateLimitInfo_default resp_503) = false /\
  consecutive_errors (snd (_check_rate_limits RateLimitInfo_default resp_503)) =
    consecutive_errors RateLimitInfo_default + 1 /\
  (current_delay RateLimitInfo_default <=
   current_delay (snd (_check_rate_limits RateLimitInfo_default resp_503)))%Q /\
  (current_delay (snd (_check_rate_limits RateLimitInfo_default resp_503)) <= max_delay)%Q.
Proof.
  apply (error_response_backs_off RateLimitInfo_default resp_503);
    [by right | discriminate | discriminate].
Defined.

Lemma success_decays_once_witness :
  _check_rate_limits
    (snd (_check_rate_limits (on_request_exception RateLimitInfo_default)
            resp_200_low_quota)) resp_200_low_quota =
  _check_rate_limits (on_request_exception RateLimitInfo_default) resp_200_low_quota.
Proof.
  apply (success_decays_once (on_request_exception RateLimitInfo_default)
           resp_200_low_quota).
  reflexivity.
Defined.

Lemma request_accounting_witness :
  returns
    (request_with_retry 0.3%Q 1%Q 2%Q (Answered resp_503 tt) Refused Client_default)
    (fun '(r, c') =>
       match r with
       | Some (response, body) =>
           raise_for_status response = false /\
           (Answered resp_503 tt = Answered response body \/
            backs_off (Answered resp_503 tt) = true /\
            Refused = Answered response body) /\
           errors c' = errors Client_default
       | None => errors c' = errors Client_default + 1
       end /\
       (delay_in_bounds (rate_limit Client_default) -> delay_in_bounds (rate_limit c'))).
Proof.
  unfold returns.
  destruct (request_with_retry 0.3%Q 1%Q 2%Q (Answered resp_503 tt) Refused
              Client_default) as [[r c']|e] eqn:E.
  - exact (request_accounting 0.3%Q 1%Q 2%Q (Answered resp_503 tt) Refused
             Client_default c' r E).
  - vm_compute in E. discriminate E.
Defined.

Lemma no_retry_without_backoff_status_witness :
  request_with_retry 0.3%Q 1%Q 2%Q (Answered resp_200_low_quota tt) Refused
    Client_default =
  request_with_retry 0.3%Q 1%Q 2%Q (Answered resp_200_low_quota tt)
    (Answered resp_503 tt) Client_default /\
  forall r c',
    request_with_retry 0.3%Q 1%Q 2%Q (Answered resp_200_low_quota tt) Refused
      Client_default = Ok (r, c') ->
    length (sleeps c') = S (length (sleeps Client_default)).
Proof.
  apply (no_retry_without_backoff_status 0.3%Q 1%Q 2%Q
           (Answered resp_200_low_quota tt) Refused (Answered resp_503 tt)
           Client_default).
  reflexivity.
Defined.

Lemma retry_waits_retry_after_witness :
  exists r c',
    request_with_retry 0.3%Q 1%Q 2%Q (Answered resp_429_low_quota tt)
      (Answered resp_200_low_quota tt) Client_default = Ok (r, c') /\
    sleeps c' = [0.3%Q] ++ [(inject_Z 30 + 0.5)%Q] /\
    retry_after (rate_limit c') = None /\
    is_limited (rate_limit c') = false.
Proof.
  apply (retry_waits_retry_after 0.3%Q 1%Q 2%Q resp_429_low_quota tt
           (Answered resp_200_low_quota tt) Client_default
           (set_sleeps [0.3%Q]
              (set_rate_limit (set_last_request_time (Some 1%Q) RateLimitInfo_default)
                 Client_default)) 30);
    [vm_compute; reflexivity | reflexivity | reflexivity | unfold sleep_horizon; lia].
Defined.

Lemma negative_retry_after_escapes_witness :
  request_with_retry 0.3%Q 1%Q 2%Q (Answered resp_429_retry_after_negative tt)
    (Answered resp_200_low_quota tt) Client_default =
  Raise (if -9223372037 <=? -5 then ValueError else OverflowError).
Proof.
  apply (negative_retry_after_escapes 0.3%Q 1%Q 2%Q resp_429_retry_after_negative tt
           (Answered resp_200_low_quota tt) Client_default
           (set_sleeps [0.3%Q]
              (set_rate_limit (set_last_request_time (Some 1%Q) RateLimitInfo_default)
                 Client_default)) (-5));
    [vm_compute; reflexivity | reflexivity | reflexivity | lia].
Defined.

Lemma huge_retry_after_escapes_witness :
  request_with_retry 0.3%Q 1%Q 2%Q (Answered resp_429_retry_after_huge tt)
    (Answered resp_200_low_quota tt) Client_default = Raise OverflowError.
Proof.
  apply (huge_retry_after_escapes 0.3%Q 1%Q 2%Q resp_429_retry_after_huge tt
           (Answered resp_200_low_quota tt) Client_default
           (set_sleeps [0.3%Q]
              (set_rate_limit (set_last_request_time (Some 1%Q) RateLimitInfo_default)
                 Client_default)) 10000000000);
    [vm_compute; reflexivity | reflexivity | reflexivity | lia].
Defined.

Lemma extracted_text_is_clean_witness :
  let text := str_join (String LF (String LF "")) (clean_pages sample_pdf) in
  extract_text_from_pdf (Some sample_pdf) Client_default =
    (Some text, set_texts_extracted 1 Client_default) /\
  (50 <= String.length text)%nat /\
  str_strip text = text /\
  texts_extracted (set_texts_extracted 1 Client_default) =
    texts_extracted Client_default + 1 /\
  text_extraction_errors (set_texts_extracted 1 Client_default) =
    text_extraction_errors Client_default.
Proof.
  intros text. split; [vm_compute; reflexivity |].
  apply (extracted_text_is_clean (Some sample_pdf) Client_default
           (set_texts_extracted 1 Client_default) text).
  vm_compute. reflexivity.
Defined.

Example sample_pdf_text :
  clean_pages sample_pdf =
    ["Sud qarori matni: da'vo arizasi qanoatlantirilsin.";
     "Sud xarajatlari javobgardan undirilsin."]%string.
Proof. vm_compute. reflexivity. Qed.

Lemma blank_document_yields_nothing_witness :
  extract_text_from_pdf (Some blank_pdf) Client_default = (None, Client_default).
Proof.
  apply (blank_document_yields_nothing blank_pdf Client_default).
  by repeat constructor.
Defined.

Lemma download_returns_text_or_nothing_witness :
  returns
    (download_pdf_and_extract_text 0.3%Q 1%Q 2%Q
       (Answered resp_200_low_quota (Some sample_pdf)) Refused Client_default)
    (fun '(t, c') =>
       match t with
       | Some text =>
           (50 <= String.length text)%nat /\
           pdfs_downloaded c' = pdfs_downloaded Client_default + 1 /\
           texts_extracted c' = texts_extracted Client_default + 1
       | None =>
           pdfs_downloaded c' = pdfs_downloaded Client_default /\
           texts_extracted c' = texts_extracted Client_default
       end).
Proof.
  unfold returns.
  destruct (download_pdf_and_extract_text 0.3%Q 1%Q 2%Q
              (Answered resp_200_low_quota (Some sample_pdf)) Refused Client_default)
    as [[t c']|e] eqn:E.
  - exact (download_returns_text_or_nothing 0.3%Q 1%Q 2%Q
             (Answered resp_200_low_quota (Some sample_pdf)) Refused
             Client_default c' t E).
  - vm_compute in E. discriminate E.
Defined.

Lemma normalizer_output_is_fresh_witness : fresh (sample_decision 4).
Proof.
  apply (normalizer_output_is_fresh str_of_scalar utc (sample_entry 4) old
           (sample_decision 4)).
  vm_compute. reflexivity.
Defined.

Lemma old_entry_kept_only_if_complete_witness :
  old_entry_complete (sample_entry 4) = true /\
  instance (sample_decision 4) = PStr "FIRST" /\
  speaker_judge (sample_decision 4) = PNone /\
  court_name_ru (sample_decision 4) = court_name_uz (sample_decision 4) /\
  (exists id, getitem (sample_entry 4) "id" = Some id /\
              decision_id (sample_decision 4) = PStr (str_of_scalar id)) /\
  (exists s, pdf_id (sample_decision 4) = PStr s).
Proof.
  apply (old_entry_kept_only_if_complete str_of_scalar utc (sample_entry 4)
           (sample_decision 4)).
  vm_compute. reflexivity.
Defined.

Lemma download_url_is_pdf_url_witness :
  download_url str_of_scalar old (pdf_id (sample_decision 4)) =
  pdf_url (sample_decision 4).
Proof.
  apply (download_url_is_pdf_url str_of_scalar utc (sample_entry 4) old
           (sample_decision 4)); [reflexivity | vm_compute; reflexivity].
Defined.

Lemma old_record_has_filename_witness :
  exists name, _create_safe_filename str_of_scalar (sample_decision 4) = Ok name.
Proof.
  apply (old_record_has_filename str_of_scalar utc (sample_entry 4)
           (PStr "4-1001-2301/15") (sample_decision 4));
    [vm_compute; reflexivity | reflexivity | right; by eexists].
Defined.

Lemma safe_filename_has_no_forbidden_char_witness :
  contains_char ":" "4-10_01_2301_../../x" = false.
Proof.
  apply (safe_filename_has_no_forbidden_char str_of_scalar decision_with_slash_id
           "4-10_01_2301_../../x" ":");
    [reflexivity | by apply (bool_decide_eq_true_1 (":"%char ∈ forbidden_chars))].
Defined.

(** The separators of the id survive: the file name of this record leads
    out of the text directory. *)
Lemma safe_filename_separators_witness :
  exists name,
    _create_safe_filename str_of_scalar decision_with_slash_id = Ok name /\
    contains_char "/" name = contains_char "/" (str_prefix 8 "../../x") /\
    String.length name =
      (String.length "4-10/01:2301" + 1 + String.length (str_prefix 8 "../../x"))%nat.
Proof.
  apply (safe_filename_separators str_of_scalar decision_with_slash_id
           "4-10/01:2301" "../../x" "/"); [reflexivity | reflexivity | by left].
Defined.

Lemma completion_order_is_irrelevant_witness :
  _download_pdfs_batch str_of_scalar one_failing (rev (seq 0 10)) ten_decisions 4 =
  _download_pdfs_batch str_of_scalar one_failing (seq 0 10) ten_decisions 4.
Proof.
  apply (completion_order_is_irrelevant str_of_scalar one_failing (rev (seq 0 10))
           (seq 0 10) ten_decisions 4); [exact ten_completed | reflexivity].
Defined.

Lemma relative_path_mirrors_path_witness :
  let d' := complete_task str_of_scalar succeeds (sample_decision 0) in
  text_file_relative_path d' = (fun path => "../" +:+ path) <$> text_file_path d'.
Proof.
  intros d'.
  apply (relative_path_mirrors_path str_of_scalar one_failing (rev (seq 0 10))
           ten_decisions ten_processed 4 0 d');
    [exact ten_decisions_fresh | exact ten_completed
    | vm_compute; reflexivity | vm_compute; reflexivity].
Defined.

Lemma malformed_record_aborts_page_witness :
  exists e,
    process_page str_of_scalar utc
      (sample_world 1 (fun _ => [new_entry_null_case_number])) default_args new
      (sample_listing 1 (fun _ => [new_entry_null_case_number]) 0) fresh_run 0
    = Raise e.
Proof.
  eapply (malformed_record_aborts_page str_of_scalar utc
            (sample_world 1 (fun _ => [new_entry_null_case_number])) default_args new
            (sample_listing 1 (fun _ => [new_entry_null_case_number]) 0) fresh_run 0
            (sample_listing 1 (fun _ => [new_entry_null_case_number]) 0));
    [reflexivity | reflexivity | reflexivity
    | vm_compute; apply elem_of_cons; left; reflexivity
    | intros s; discriminate].
Defined.

Lemma run_keeps_artifacts_witness :
  returns
    (parse_all_decisions str_of_scalar utc (sample_world 3 page_1_empty) "old"
       default_args page_1_on_disk)
    (fun st' => metadata_dir page_1_on_disk ⊆ metadata_dir st').
Proof.
  unfold returns.
  destruct (parse_all_decisions str_of_scalar utc (sample_world 3 page_1_empty) "old"
              default_args page_1_on_disk) as [st'|e] eqn:E.
  - exact (run_keeps_artifacts str_of_scalar utc (sample_world 3 page_1_empty) "old"
             default_args page_1_on_disk st' eq_refl E).
  - vm_compute in E. discriminate E.
Defined.

Lemma resume_over_complete_section_witness :
  parse_section str_of_scalar utc (sample_world 3 one_entry) default_args
    three_pages_done old = Ok (log (Fetched old 0) three_pages_done).
Proof.
  apply (resume_over_complete_section str_of_scalar utc (sample_world 3 one_entry)
           default_args three_pages_done old (sample_listing 3 one_entry 0) [0; 1; 2]);
    [reflexivity | reflexivity | reflexivity |].
  repeat constructor; vm_compute; reflexivity.
Defined.

Lemma run_counters_witness :
  returns
    (parse_all_decisions str_of_scalar utc (sample_world 3 page_1_empty) "old"
       default_args fresh_run)
    (fun st' =>
       decisions_found st' - decisions_found fresh_run =
         Z.of_nat (length (all_decisions st')) -
         Z.of_nat (length (all_decisions fresh_run)) /\
       pages_processed fresh_run <= pages_processed st' /\
       decisions_found fresh_run <= decisions_found st').
Proof.
  unfold returns.
  destruct (parse_all_decisions str_of_scalar utc (sample_world 3 page_1_empty) "old"
              default_args fresh_run) as [st'|e] eqn:E.
  - exact (run_counters str_of_scalar utc (sample_world 3 page_1_empty) "old"
             default_args fresh_run st' E).
  - vm_compute in E. discriminate E.
Defined.

Lemma store_page_saves_before_batch_witness :
  returns
    (store_page str_of_scalar (sample_world 3 one_entry) default_args old 1
       [sample_decision 1] fresh_run)
    (fun st' =>
       metadata_dir st' =
         <[metadata_file (page_identifier old 1) := to_dict <$> [sample_decision 1]]>
           (metadata_dir fresh_run) /\
       trace st' =
         trace fresh_run ++
         MetadataSaved (metadata_file (page_identifier old 1))
                       (to_dict <$> [sample_decision 1])
         :: (if download_pdfs default_args
             then [BatchRun old 1 (completed_order (sample_world 3 one_entry) old 1)]
             else [])).
Proof.
  unfold returns.
  destruct (store_page str_of_scalar (sample_world 3 one_entry) default_args old 1
              [sample_decision 1] fresh_run) as [st'|e] eqn:E.
  - exact (store_page_saves_before_batch str_of_scalar (sample_world 3 one_entry)
             default_args old 1 [sample_decision 1] fresh_run st' ltac:(discriminate) E).
  - vm_compute in E. discriminate E.
Defined.

Lemma metadata_file_inj_witness : old = old /\ 1517 = 1517.
Proof.
  apply (metadata_file_inj old old 1517 1517). reflexivity.
Defined.

Lemma page_touches_only_its_artifact_witness :
  returns
    (process_page str_of_scalar utc (sample_world 3 one_entry) overwrite_args old
       (sample_listing 3 one_entry 0) page_1_on_disk 2)
    (fun st' =>
       metadata_dir st' !! metadata_file (page_identifier old 1) =
       metadata_dir page_1_on_disk !! metadata_file (page_identifier old 1)).
Proof.
  unfold returns.
  destruct (process_page str_of_scalar utc (sample_world 3 one_entry) overwrite_args old
              (sample_listing 3 one_entry 0) page_1_on_disk 2) as [st'|e] eqn:E.
  - apply (page_touches_only_its_artifact str_of_scalar utc (sample_world 3 one_entry)
             overwrite_args old old (sample_listing 3 one_entry 0) page_1_on_disk st'
             2 1 E).
    discriminate.
  - vm_compute in E. discriminate E.
Defined.

Lemma negative_retry_after_fails_siblings_witness :
  batch_with_one_worker str_of_scalar 0.3%Q (ten_tasks resp_429_retry_after_negative)
    (seq 0 10) ten_decisions Client_default =
  Ok (set_text_extraction_success false <$> ten_decisions).
Proof.
  apply (negative_retry_after_fails_siblings str_of_scalar 0.3%Q
           (answered_with resp_429_retry_after_negative) (replicate 9 pdf_served)
           (seq 0 10) ten_decisions Client_default
           (set_sleeps [0.3%Q]
              (set_rate_limit (set_last_request_time (Some 1%Q) RateLimitInfo_default)
                 Client_default))
           resp_429_retry_after_negative None (-5));
    [vm_compute; reflexivity | reflexivity | reflexivity | reflexivity | lia
    | exact ten_decisions_named | reflexivity | reflexivity].
Defined.

(** The same batch when the first request is answered 404, a failure that
    the handler of the task catches: the nine siblings are extracted. *)
Example plain_failure_spares_siblings :
  returns
    (batch_with_one_worker str_of_scalar 0.3%Q (ten_tasks resp_404)
       (seq 0 10) ten_decisions Client_default)
    (fun decisions' =>
       text_extraction_success <$> decisions' =
       [false; true; true; true; true; true; true; true; true; true]) /\
  returns
    (batch_with_one_worker str_of_scalar 0.3%Q (ten_tasks resp_429_retry_after_negative)
       (seq 0 10) ten_decisions Client_default)
    (fun decisions' =>
       text_extraction_success <$> decisions' =
       [false; false; false; false; false; false; false; false; false; false]).
Proof. split; vm_compute; reflexivity. Qed.


(** Past [2 ^ 33] seconds the float quotient loses the millisecond, and on
    the first day of the year 1 the look a day back leaves the calendar. *)
Example hearing_date_float_limits :
  fromtimestamp_isoformat utc 8589934592001 = Some "2242-03-16T12:56:32.000999"%string /\
  iso8601_utc 8589934592001 = Some "2242-03-16T12:56:32.001000"%string /\
  fromtimestamp_isoformat utc 253402300799999 = Some "9999-12-31T23:59:59.998993"%string /\
  fromtimestamp_isoformat utc (-62135596800000) = None /\
  iso8601_utc (-62135596800000) = Some "0001-01-01T00:00:00"%string.
Proof. repeat split; vm_compute; reflexivity. Qed.
